(** * VideoDataset: metadata subsetting, lookups, augmentation and collation

    A shallow embedding of [databunch/dataset.py] (with [pipeline/label.py]):
    the metadata table is a list of rows carrying their pandas index, Python
    exceptions are an error monad, Python floats are IEEE 754 binary64 values
    computed on integers, tensors carry their shape and their elements.
    With it come the option table of [logger.py] and the two building
    blocks of [models/i3d/common/blocks.py] that check their padding. *)

From Stdlib Require Import ZArith List Bool String Ascii Lia.
From Stdlib Require Import Strings.Byte.
From Stdlib Require Import Floats.SpecFloat.
From Stdlib Require Import DecimalString.
From Stdlib Require Import Sorting.Permutation.
Import ListNotations.

Local Open Scope Z_scope.

(* ===================================================================== *)
(** ** Exceptions and the error monad *)
(* ===================================================================== *)

(** The Python exception classes that the embedded code can raise, and the
    two that only the specification names ([ConfigurationError],
    [ShapeMismatchError]): no definition below raises those two. *)
Inductive exn : Type :=
| AssertionError
| ValueError
| TypeError
| KeyError
| IndexError
| OverflowError
| RuntimeError
| ConfigurationError
| ShapeMismatchError.

Inductive result (A : Type) : Type :=
| Ok (a : A)
| Raise (e : exn).

Arguments Ok {A} a.
Arguments Raise {A} e.

Definition bind {A B : Type} (r : result A) (k : A -> result B) : result B :=
  match r with
  | Ok a => k a
  | Raise e => Raise e
  end.

Notation "x <- c ;; k" := (bind c (fun x => k))
  (at level 61, c at next level, right associativity).
Notation "' p <- c ;; k" := (bind c (fun x => let 'p := x in k))
  (at level 61, p pattern, c at next level, right associativity).

(** [result] analogue of a list comprehension whose body may raise: the
    first exception aborts the comprehension. *)
Fixpoint mapM {A B : Type} (f : A -> result B) (l : list A) : result (list B) :=
  match l with
  | [] => Ok []
  | a :: l' => b <- f a ;; bs <- mapM f l' ;; Ok (b :: bs)
  end.

Definition is_ok {A : Type} (r : result A) : bool :=
  match r with Ok _ => true | Raise _ => false end.

(* ===================================================================== *)
(** ** Python floats *)
(* ===================================================================== *)

Module PyFloat.

(** A Python [float] is an IEEE 754 binary64 value. *)
Definition prec : Z := 53.
Definition emax : Z := 1024.
Definition float : Type := spec_float.

Definition mul : float -> float -> float := SFmul prec emax.
Definition leb : float -> float -> bool := SFleb.
Definition ltb : float -> float -> bool := SFltb.

(** [float(n)] for a Python [int]: correctly rounded; a magnitude beyond
    the binary64 range raises [OverflowError]. *)
Definition of_int (n : Z) : result float :=
  match binary_normalize prec emax n 0 false with
  | S754_infinity _ => Raise OverflowError
  | f => Ok f
  end.

Definition zero : float := S754_zero false.
Definition one : float := Eval vm_compute in binary_normalize prec emax 1 0 false.
Definition half : float := Eval vm_compute in SFdiv prec emax one (binary_normalize prec emax 2 0 false).

(** Quotient of [n] by [d > 0] rounded to the nearest integer, ties to
    the even one. *)
Definition round_half_even (n d : Z) : Z :=
  let q := n / d in
  let r := n mod d in
  if 2 * r <? d then q
  else if d <? 2 * r then q + 1
  else if Z.even q then q else q + 1.

(** The built-in [round(x)] on a float, without [ndigits]: the nearest
    [int], ties to even; [ValueError] on NaN, [OverflowError] on an
    infinity. *)
Definition round (x : float) : result Z :=
  match x with
  | S754_zero _ => Ok 0
  | S754_nan => Raise ValueError
  | S754_infinity _ => Raise OverflowError
  | S754_finite s m e =>
      let mag := match e with
                 | Zneg p => round_half_even (Zpos m) (Z.pow_pos 2 p)
                 | _ => Zpos m * 2 ^ e
                 end in
      Ok (if s then - mag else mag)
  end.

(** The floats that Python computes with are canonical binary64 values. *)
Definition valid (x : float) : bool := valid_binary prec emax x.

(** [below f n]: [f] is a non-negative finite float whose value is at
    most the integer [n]. *)
Definition below (f : float) (n : Z) : Prop :=
  match f with
  | S754_zero _ => True
  | S754_finite false m e => e <= 0 /\ Zpos m <= n * 2 ^ (- e)
  | _ => False
  end.

End PyFloat.

(* ===================================================================== *)
(** ** The metadata table *)
(* ===================================================================== *)

(** One clip's metadata.  [lid] is the integer class id (the column that
    [pipeline/label.py] calls [template_id]). *)
Module VideoMeta.
Record t : Type := mk {
  id : Z;
  label : string;
  lid : Z;
  path : string;
  length : Z;
  height : Z;
  width : Z;
  framerate : Z
}.
End VideoMeta.

Module Pandas.

(** A row of the metadata [DataFrame]: its index label and its columns. *)
Record Row : Type := mkRow { row_index : Z; row_meta : VideoMeta.t }.

Definition DataFrame : Type := list Row.

Definition row_lid (r : Row) : Z := VideoMeta.lid (row_meta r).
Definition row_label (r : Row) : string := VideoMeta.label (row_meta r).

(** [df['lid']] *)
Definition col_lid (df : DataFrame) : list Z := map row_lid df.

(** [Series.unique()]: the distinct values in order of first appearance. *)
Fixpoint unique (l : list Z) : list Z :=
  match l with
  | [] => []
  | x :: l' => x :: filter (fun y => negb (y =? x)) (unique l')
  end.

(** [df[df['lid'] == lid]]: the rows of one class, order and index kept. *)
Definition where_lid (df : DataFrame) (l : Z) : DataFrame :=
  filter (fun r => row_lid r =? l) df.

(** [seq[0:stop]] with Python's slice rules: a negative [stop] counts from
    the end, and the bounds are clamped to the sequence. *)
Definition slice_to {A : Type} (s : list A) (stop : Z) : list A :=
  let n := Z.of_nat (List.length s) in
  let stop' := if stop <? 0 then Z.max 0 (n + stop) else Z.min stop n in
  firstn (Z.to_nat stop') s.

(** [df.iloc[0:stop]] for an integer [stop]. *)
Definition iloc_to (df : DataFrame) (stop : Z) : DataFrame := slice_to df stop.

Fixpoint has_duplicates (l : list Z) : bool :=
  match l with
  | [] => false
  | x :: l' => existsb (Z.eqb x) l' || has_duplicates l'
  end.

(** [pd.concat(frames, verify_integrity=True)]: [ValueError] when there is
    nothing to concatenate, and when the resulting index has duplicates. *)
Definition concat (frames : list DataFrame) : result DataFrame :=
  match frames with
  | [] => Raise ValueError
  | _ =>
      let df := List.concat frames in
      if has_duplicates (map row_index df) then Raise ValueError else Ok df
  end.

(** A [Series] named ['label']: (index label, value) pairs. *)
Definition Series : Type := list (Z * string).

(** [df.groupby('lid').head(n)]: the first [n] rows of each group, as a
    subset of the rows of [df] with the original index and order. *)
Fixpoint groupby_lid_head_from (seen : list Z) (n : nat) (df : DataFrame) : DataFrame :=
  match df with
  | [] => []
  | r :: df' =>
      if (count_occ Z.eq_dec seen (row_lid r) <? n)%nat
      then r :: groupby_lid_head_from (row_lid r :: seen) n df'
      else groupby_lid_head_from (row_lid r :: seen) n df'
  end.

Definition groupby_lid_head (n : nat) (df : DataFrame) : DataFrame :=
  groupby_lid_head_from [] n df.

(** [df.groupby('lid')['label'].head(n)] *)
Definition groupby_lid_label_head (n : nat) (df : DataFrame) : Series :=
  map (fun r => (row_index r, row_label r)) (groupby_lid_head n df).

(** [s[key]] on a series with an integer index is a lookup by index
    label: [KeyError] when no entry has that label, the value when one
    has, the sub-series of the matching entries otherwise. *)
Inductive Selection : Type :=
| Scalar (v : string)
| SubSeries (s : Series).

Definition Series_getitem (s : Series) (key : Z) : result Selection :=
  match filter (fun kv => fst kv =? key) s with
  | [] => Raise KeyError
  | [kv] => Ok (Scalar (snd kv))
  | kvs => Ok (SubSeries kvs)
  end.

(** What [s.reset_index().set_index('label')] is for a series [s] named
    ['label'] with an unnamed index: a frame indexed by the label strings
    whose only column, named ['index'], holds the former index labels. *)
Record LabelFrame : Type := mkLabelFrame {
  lf_column_name : string;
  lf_rows : list (string * Z)
}.

Definition reset_index_set_index_label (s : Series) : LabelFrame :=
  {| lf_column_name := "index";
     lf_rows := map (fun kv => (snd kv, fst kv)) s |}.

(** [frame[key]] selects the column named [key]. *)
Definition LabelFrame_getitem (f : LabelFrame) (key : string) : result (list Z) :=
  if String.eqb key (lf_column_name f) then Ok (map snd (lf_rows f))
  else Raise KeyError.

(** [frame.loc[key]] selects the rows whose index label is [key]; the
    values of the only column are returned. *)
Definition LabelFrame_loc (f : LabelFrame) (key : string) : result (list Z) :=
  match filter (fun kv => String.eqb (fst kv) key) (lf_rows f) with
  | [] => Raise KeyError
  | kvs => Ok (map snd kvs)
  end.

End Pandas.

(* ===================================================================== *)
(** ** Arrays and tensors *)
(* ===================================================================== *)

(** A decoded frame: a [uint8] array of shape (H, W, C), stored row-major. *)
Record ndarray : Type := mk_ndarray {
  nd_h : nat;
  nd_w : nat;
  nd_c : nat;
  nd_data : list byte
}.

Module Torch.

Inductive dtype : Type := float32 | int64.

Inductive scalar : Type :=
| F32 (f : spec_float)
| I64 (z : Z).

Record Tensor : Type := mkTensor {
  t_dtype : dtype;
  t_shape : list nat;
  t_elems : list scalar
}.

(** binary32 arithmetic *)
Definition prec32 : Z := 24.
Definition emax32 : Z := 128.
Definition f32_of_Z (z : Z) : spec_float := binary_normalize prec32 emax32 z 0 false.
Definition f32_div : spec_float -> spec_float -> spec_float := SFdiv prec32 emax32.

Definition byte_to_Z (b : byte) : Z := Z.of_N (Byte.to_N b).

(** [img.float().div(255)] on one [uint8] element. *)
Definition normalize (b : byte) : spec_float :=
  f32_div (f32_of_Z (byte_to_Z b)) (f32_of_Z 255).

(** [torchvision.transforms.functional.to_tensor] on a [uint8] array of
    shape (H, W, C): transpose to (C, H, W), convert to [float32] and
    divide by 255. *)
Definition to_tensor (pic : ndarray) : Tensor :=
  let H := nd_h pic in
  let W := nd_w pic in
  let C := nd_c pic in
  {| t_dtype := float32;
     t_shape := [C; H; W];
     t_elems :=
       flat_map (fun c =>
         flat_map (fun h =>
           map (fun w => F32 (normalize (nth ((h * W + w) * C + c)%nat (nd_data pic) x00)))
               (seq 0 W))
           (seq 0 H))
         (seq 0 C) |}.

Definition shape_eqb (s1 s2 : list nat) : bool :=
  if list_eq_dec Nat.eq_dec s1 s2 then true else false.

(** [torch.stack(tensors, dim=0)]: [RuntimeError] on an empty list and on
    tensors of different sizes; otherwise a tensor with one more leading
    dimension.  All tensors stacked here have one dtype; promotion between
    dtypes is not modelled. *)
Definition stack (ts : list Tensor) : result Tensor :=
  match ts with
  | [] => Raise RuntimeError
  | t0 :: rest =>
      if forallb (fun t => shape_eqb (t_shape t) (t_shape t0)) rest
      then Ok {| t_dtype := t_dtype t0;
                 t_shape := List.length ts :: t_shape t0;
                 t_elems := List.concat (map t_elems ts) |}
      else Raise RuntimeError
  end.

(** A [float32] element between 0 and 1. *)
Definition in_unit_interval (x : scalar) : bool :=
  match x with
  | F32 f => SFleb (S754_zero false) f && SFleb f (f32_of_Z 1)
  | I64 _ => false
  end.

Definition int64_min : Z := - 2 ^ 63.
Definition int64_max : Z := 2 ^ 63 - 1.
Definition fits_int64 (z : Z) : bool := (int64_min <=? z) && (z <=? int64_max).

(** What depends on the release of torch: the class of the exception
    that [torch.tensor] raises for a Python int beyond 64 bits.  It is
    [RuntimeError] up to torch 2.0 and [ValueError] in later releases;
    the code pins no release. *)
Class Release : Type := { int64_overflow : exn }.

(** [torch.tensor(ints, dtype=torch.int64)] on a flat list of Python
    ints: the exception of the release when one does not fit 64 bits. *)
Definition tensor_int64 {release : Release} (l : list Z) : result Tensor :=
  if forallb fits_int64 l
  then Ok {| t_dtype := int64; t_shape := [List.length l]; t_elems := map I64 l |}
  else Raise int64_overflow.

End Torch.

(* ===================================================================== *)
(** ** Augmenters *)
(* ===================================================================== *)

Module ImgAug.

Inductive Position : Type := Uniform | Center.

(** The augmenters that [_compose_aug_seq] builds, with the arguments
    given there; [position] defaults to ['uniform']. *)
Inductive AugOp : Type :=
| PadToFixedSize (width height : Z) (position : Position)
| CropToFixedSize (width height : Z) (position : Position)
| Fliplr (p : PyFloat.float)
| Flipud (p : PyFloat.float)
| Add (lo hi : Z)
| AddToHueAndSaturation (lo hi : Z).

(** The sampled parameters of one application of an augmenter. *)
Inductive Params : Type :=
| Offset (x y : PyFloat.float)
| Flip (b : bool)
| Amount (v : Z).

(** An augmenter object.  [aug_random_state = None]: the augmenter draws
    from the global random state. *)
Record Augmenter (RS : Type) : Type := mkAugmenter {
  aug_op : AugOp;
  aug_random_state : option RS;
  aug_deterministic : bool
}.

Record Sequential (RS : Type) : Type := mkSequential {
  seq_children : list (Augmenter RS);
  seq_random_state : option RS;
  seq_deterministic : bool
}.

End ImgAug.

Arguments ImgAug.mkAugmenter {RS}.
Arguments ImgAug.aug_op {RS}.
Arguments ImgAug.aug_random_state {RS}.
Arguments ImgAug.aug_deterministic {RS}.
Arguments ImgAug.mkSequential {RS}.
Arguments ImgAug.seq_children {RS}.
Arguments ImgAug.seq_random_state {RS}.
Arguments ImgAug.seq_deterministic {RS}.

(* ===================================================================== *)
(** ** Collaborators outside [dataset.py] *)
(* ===================================================================== *)

(** What [dataset.py] calls and does not define: the random number
    generator, the image operations of the augmenters, the reader of the
    metadata file and the [Video] class, which samples and decodes the
    frames of a clip. *)
Class Collaborators : Type := {
  RandomState : Type;
  (* advance a state by one step *)
  forward_random_state : RandomState -> RandomState;
  (* a fresh state seeded from the global one, and the global one after *)
  new_random_state : RandomState -> RandomState * RandomState;
  sample_uniform : RandomState -> PyFloat.float * RandomState;
  sample_binomial : PyFloat.float -> RandomState -> bool * RandomState;
  sample_integer : Z -> Z -> RandomState -> Z * RandomState;
  (* the image operation of an augmenter, for given sampled parameters *)
  apply_params : ImgAug.AugOp -> ImgAug.Params -> ndarray -> ndarray;
  (* helpers.read_meta: the table read from the metadata file *)
  read_meta : string -> Pandas.DataFrame;
  (* Video.__init__: the decoded frames of the sampled indices, or the
     exception that the sampling or the decoding raises *)
  load_frames : VideoMeta.t -> string -> bool -> PyFloat.float -> string -> Z ->
                RandomState -> result (list ndarray) * RandomState
}.

Module Augment.
Section WithCollaborators.
Context {ext : Collaborators}.
Import ImgAug.

(** The parameters an augmenter samples for one image from (a copy of)
    a random state. *)
Definition draw_params (op : AugOp) (rs : RandomState) : Params :=
  match op with
  | PadToFixedSize _ _ Uniform | CropToFixedSize _ _ Uniform =>
      let (x, rs1) := sample_uniform rs in
      let (y, _) := sample_uniform rs1 in
      Offset x y
  | PadToFixedSize _ _ Center | CropToFixedSize _ _ Center =>
      Offset PyFloat.half PyFloat.half
  | Fliplr p | Flipud p => Flip (fst (sample_binomial p rs))
  | Add lo hi | AddToHueAndSaturation lo hi => Amount (fst (sample_integer lo hi rs))
  end.

(** The parameters [a] uses when the global random state is [g]. *)
Definition params_of (a : Augmenter RandomState) (g : RandomState) : Params :=
  match aug_random_state a with
  | Some rs => draw_params (aug_op a) rs
  | None => draw_params (aug_op a) g
  end.

(** The image operations of [ops] with the parameters [ps], in order. *)
Fixpoint apply_all (ops : list AugOp) (ps : list Params) (img : ndarray) : ndarray :=
  match ops, ps with
  | op :: ops', p :: ps' => apply_all ops' ps' (apply_params op p img)
  | _, _ => img
  end.

(** A deterministic augmenter with a random state of its own. *)
Definition frozen (a : Augmenter RandomState) : bool :=
  aug_deterministic a &&
  match aug_random_state a with Some _ => true | None => false end.

(** [Augmenter.augment_image]: the parameters are sampled from a copy of
    the augmenter's random state (the global one when it has none), and
    that state is then moved forward, unless the augmenter is
    deterministic, in which case the state is restored.  Returns the
    image, the parameters used, the augmenter and the global state. *)
Definition augment_image1 (a : Augmenter RandomState) (img : ndarray) (g : RandomState)
  : ndarray * Params * Augmenter RandomState * RandomState :=
  match aug_random_state a with
  | Some rs =>
      let ps := draw_params (aug_op a) rs in
      let a' := if aug_deterministic a then a
                else mkAugmenter (aug_op a) (Some (forward_random_state rs)) false in
      (apply_params (aug_op a) ps img, ps, a', g)
  | None =>
      let ps := draw_params (aug_op a) g in
      (apply_params (aug_op a) ps img, ps, a,
       if aug_deterministic a then g else forward_random_state g)
  end.

Fixpoint augment_children (cs : list (Augmenter RandomState)) (img : ndarray) (g : RandomState)
  : ndarray * list Params * list (Augmenter RandomState) * RandomState :=
  match cs with
  | [] => (img, [], [], g)
  | a :: cs' =>
      let '(img1, ps, a', g1) := augment_image1 a img g in
      let '(img2, pss, cs'', g2) := augment_children cs' img1 g1 in
      (img2, ps :: pss, a' :: cs'', g2)
  end.

(** [Sequential.augment_image] (no random order): the children in turn. *)
Definition augment_image (s : Sequential RandomState) (img : ndarray) (g : RandomState)
  : ndarray * list Params * Sequential RandomState * RandomState :=
  let '(img', pss, cs', g1) := augment_children (seq_children s) img g in
  match seq_random_state s with
  | Some rs =>
      (img', pss,
       mkSequential cs' (if seq_deterministic s then Some rs else Some (forward_random_state rs))
                    (seq_deterministic s),
       g1)
  | None =>
      (img', pss, mkSequential cs' None (seq_deterministic s),
       if seq_deterministic s then g1 else forward_random_state g1)
  end.

(** [to_deterministic] on the children: each gets a fresh random state
    seeded from the global one and becomes deterministic. *)
Fixpoint children_to_deterministic (cs : list (Augmenter RandomState)) (g : RandomState)
  : list (Augmenter RandomState) * RandomState :=
  match cs with
  | [] => ([], g)
  | a :: cs' =>
      let (rs, g1) := new_random_state g in
      let (cs'', g2) := children_to_deterministic cs' g1 in
      (mkAugmenter (aug_op a) (Some rs) true :: cs'', g2)
  end.

(** [Sequential.to_deterministic()] *)
Definition to_deterministic (s : Sequential RandomState) (g : RandomState)
  : Sequential RandomState * RandomState :=
  let (cs, g1) := children_to_deterministic (seq_children s) g in
  let (rs, g2) := new_random_state g1 in
  (mkSequential cs (Some rs) true, g2).

(** A deterministic sequence of deterministic augmenters, each with a
    random state of its own. *)
Definition frozen_seq (s : Sequential RandomState) : Prop :=
  forallb frozen (seq_children s) = true /\
  seq_deterministic s = true /\
  exists rs, seq_random_state s = Some rs.

End WithCollaborators.
End Augment.

(* ===================================================================== *)
(** ** Labels and videos *)
(* ===================================================================== *)

Module Label.
Record t : Type := mk { meta : VideoMeta.t; data : Z }.

(** [Label.__init__]: the target is the class id of the clip. *)
Definition __init__ (m : VideoMeta.t) : t := {| meta := m; data := VideoMeta.lid m |}.
End Label.

Module Video.
(** A [Video] object; [data] holds the decoded frames ([D := ndarray])
    and, once augmented, their tensors ([D := Torch.Tensor]). *)
Record t (D : Type) : Type := mk {
  meta : VideoMeta.t;
  root_path : string;
  read_jpeg : bool;
  cut : PyFloat.float;
  setting : string;
  num_segments : Z;
  data : list D
}.
Arguments mk {D}.
Arguments meta {D}.
Arguments root_path {D}.
Arguments read_jpeg {D}.
Arguments cut {D}.
Arguments setting {D}.
Arguments num_segments {D}.
Arguments data {D}.

(** [video.data = new_data] *)
Definition set_data {D E : Type} (v : t D) (new_data : list E) : t E :=
  mk (meta v) (root_path v) (read_jpeg v) (cut v) (setting v) (num_segments v) new_data.
End Video.

(* ===================================================================== *)
(** ** Options *)
(* ===================================================================== *)

(** A Python number: [keep] is given as an [int] or as a [float]. *)
Inductive number : Type :=
| PyInt (z : Z)
| PyFloatV (f : PyFloat.float).

Definition valid_number (k : number) : bool :=
  match k with
  | PyInt _ => true
  | PyFloatV f => PyFloat.valid f
  end.

Record DataSetOptions : Type := mkDataSetOptions {
  do_root_path : string;
  do_meta_path : string;
  do_read_jpeg : bool;
  do_setting : string;
  do_keep : option number
}.

Definition set_keep (o : DataSetOptions) (keep : option number) : DataSetOptions :=
  mkDataSetOptions (do_root_path o) (do_meta_path o) (do_read_jpeg o) (do_setting o) keep.

Record SamplingOptions : Type := mkSamplingOptions {
  so_num_segments : Z;
  so_segment_size : Z
}.

(* ===================================================================== *)
(** ** collate *)
(* ===================================================================== *)

Module Collate.

(** An element of a sample tuple. *)
Inductive item : Type :=
| ItemVideo (v : Video.t Torch.Tensor)
| ItemLabel (l : Label.t).

Definition sample : Type := (Video.t Torch.Tensor * Label.t)%type.

Definition as_tuple (s : sample) : list item := [ItemVideo (fst s); ItemLabel (snd s)].

(** The first element of every row, when every row has one. *)
Fixpoint heads {A : Type} (rows : list (list A)) : option (list A) :=
  match rows with
  | [] => Some []
  | [] :: _ => None
  | (x :: _) :: rows' =>
      match heads rows' with
      | Some xs => Some (x :: xs)
      | None => None
      end
  end.

Fixpoint zip_upto {A : Type} (fuel : nat) (rows : list (list A)) : list (list A) :=
  match fuel with
  | O => []
  | S fuel' =>
      match heads rows with
      | Some hs => hs :: zip_upto fuel' (map (@tl A) rows)
      | None => []
      end
  end.

(** [zip] applied to the unpacked rows: one tuple per position, up to the
    shortest row; nothing when there is no row. *)
Definition zip_star {A : Type} (rows : list (list A)) : list (list A) :=
  match rows with
  | [] => []
  | row :: _ => zip_upto (List.length row) rows
  end.

(** [a, b = iterable]: [ValueError] unless there are exactly two values. *)
Definition unpack2 {A : Type} (l : list A) : result (A * A) :=
  match l with
  | [a; b] => Ok (a, b)
  | _ => Raise ValueError
  end.

(** [video.data] and [label.data]; an object of the other class makes
    the tensor construction fail with [TypeError]. *)
Definition video_data (i : item) : result (list Torch.Tensor) :=
  match i with
  | ItemVideo v => Ok (Video.data v)
  | ItemLabel _ => Raise TypeError
  end.

Definition label_data (i : item) : result Z :=
  match i with
  | ItemLabel l => Ok (Label.data l)
  | ItemVideo _ => Raise TypeError
  end.

Definition collate {release : Torch.Release} (batch : list sample)
  : result (Torch.Tensor * Torch.Tensor * list item * list item) :=
  '(videos, labels) <- unpack2 (zip_star (map as_tuple batch)) ;;
  per_video <- mapM (fun video => d <- video_data video ;; Torch.stack d) videos ;;
  videos_data <- Torch.stack per_video ;;
  ids <- mapM label_data labels ;;
  labels_data <- Torch.tensor_int64 ids ;;
  Ok (videos_data, labels_data, videos, labels).

End Collate.

(* ===================================================================== *)
(** ** VideoDataset *)
(* ===================================================================== *)

Module VideoDataset.
Section WithCollaborators.
Context {ext : Collaborators}.
Import ImgAug.

Record t : Type := mk {
  cut : PyFloat.float;
  frame_size : Z;
  do : DataSetOptions;
  so : SamplingOptions;
  meta : Pandas.DataFrame;
  lids : list Z;
  lid2labels : Pandas.Series;
  labels2lid : Pandas.LabelFrame;
  aug_seq : Sequential RandomState
}.

(** An augmenter as its constructor leaves it: no random state of its
    own, not deterministic. *)
Definition fresh (op : AugOp) : Augmenter RandomState := mkAugmenter op None false.

Definition _compose_aug_seq (setting : string) : Sequential RandomState :=
  if String.eqb setting "train" then
    mkSequential
      [ fresh (PadToFixedSize 224 224 Uniform);
        fresh (CropToFixedSize 224 224 Uniform);
        fresh (Fliplr PyFloat.half);
        fresh (Flipud PyFloat.half);
        fresh (Add (-25) 25);
        fresh (AddToHueAndSaturation (-25) 25) ]
      None false
  else
    mkSequential
      [ fresh (PadToFixedSize 224 224 Center);
        fresh (CropToFixedSize 224 224 Center) ]
      None false.

(** [round(len(class_meta) * keep)]: an [int] product is its own
    rounding; a [float] product is rounded half to even. *)
Definition cut_off (n : nat) (keep : number) : result Z :=
  match keep with
  | PyInt k => Ok (Z.of_nat n * k)
  | PyFloatV f =>
      x <- PyFloat.of_int (Z.of_nat n) ;;
      PyFloat.round (PyFloat.mul x f)
  end.

(** The new value of [self.meta]. *)
Definition _stratified_sample_meta (meta : Pandas.DataFrame) (keep : number)
  : result Pandas.DataFrame :=
  samples <- mapM (fun lid =>
                     let class_meta := Pandas.where_lid meta lid in
                     c <- cut_off (List.length class_meta) keep ;;
                     Ok (Pandas.iloc_to class_meta c))
                  (Pandas.unique (Pandas.col_lid meta)) ;;
  Pandas.concat samples.

(** [0 <= keep < 1] *)
Definition is_fraction (keep : number) : bool :=
  match keep with
  | PyInt k => (0 <=? k) && (k <? 1)
  | PyFloatV f => PyFloat.leb PyFloat.zero f && PyFloat.ltb f PyFloat.one
  end.

(** [self.meta.iloc[0:keep]]: a [float] bound is a [TypeError]. *)
Definition head_rows (meta : Pandas.DataFrame) (keep : number) : result Pandas.DataFrame :=
  match keep with
  | PyInt k => Ok (Pandas.iloc_to meta k)
  | PyFloatV _ => Raise TypeError
  end.

(** The exceptions that the subsetting can raise. *)
Definition subset_error (e : exn) : Prop :=
  e = ValueError \/ e = TypeError \/ e = OverflowError.

(** Lines 47 to 51 of [__init__]. *)
Definition subset (meta : Pandas.DataFrame) (keep : option number) : result Pandas.DataFrame :=
  match keep with
  | None => Ok meta
  | Some k => if is_fraction k then _stratified_sample_meta meta k else head_rows meta k
  end.

Definition cut_in_range (cut : PyFloat.float) : bool :=
  PyFloat.leb PyFloat.zero cut && PyFloat.leb cut PyFloat.one.

Definition known_setting (setting : string) : bool :=
  String.eqb setting "train" || String.eqb setting "eval".

Definition __init__ (cut : PyFloat.float) (frame_size : Z)
           (data_opts : DataSetOptions) (sampling_opts : SamplingOptions) : result t :=
  if negb (cut_in_range cut) then Raise AssertionError
  else if negb (known_setting (do_setting data_opts)) then Raise AssertionError
  else
    let meta0 := read_meta (do_meta_path data_opts) in
    let lids := Pandas.unique (Pandas.col_lid meta0) in
    let lid2labels := Pandas.groupby_lid_label_head 1 meta0 in
    let labels2lid := Pandas.reset_index_set_index_label lid2labels in
    meta1 <- subset meta0 (do_keep data_opts) ;;
    Ok {| cut := cut; frame_size := frame_size; do := data_opts; so := sampling_opts;
          meta := meta1; lids := lids; lid2labels := lid2labels;
          labels2lid := labels2lid;
          aug_seq := _compose_aug_seq (do_setting data_opts) |}.

(** The augmenters of the dataset's sequence, in order. *)
Definition ops (self : t) : list AugOp := map aug_op (seq_children (aug_seq self)).

Definition __len__ (self : t) : nat := List.length (meta self).

(** The frames of one video through one deterministic pipeline, in
    order; the parameters used for each frame are recorded. *)
Fixpoint augment_frames (det : Sequential RandomState) (video_data : list ndarray)
         (g : RandomState)
  : list Torch.Tensor * list (list Params) * RandomState :=
  match video_data with
  | [] => ([], [], g)
  | frame_data :: rest =>
      let '(img, ps, det', g1) := Augment.augment_image det frame_data g in
      let '(ts, pss, g2) := augment_frames det' rest g1 in
      (Torch.to_tensor img :: ts, ps :: pss, g2)
  end.

(** [aug]: the tensors, the parameters each frame was augmented with,
    and the global random state after. *)
Definition aug (self : t) (video_data : list ndarray) (g : RandomState)
  : list Torch.Tensor * list (list Params) * RandomState :=
  let (det_aug_seq, g1) := Augment.to_deterministic (aug_seq self) g in
  augment_frames det_aug_seq video_data g1.

(** [self.meta.iloc[item]] for an integer position. *)
Definition iloc (df : Pandas.DataFrame) (item : Z) : result Pandas.Row :=
  let n := Z.of_nat (List.length df) in
  let i := if item <? 0 then item + n else item in
  if (i <? 0) || (n <=? i) then Raise IndexError
  else match nth_error df (Z.to_nat i) with
       | Some r => Ok r
       | None => Raise IndexError
       end.

Definition __getitem__ (self : t) (item : Z) (g : RandomState)
  : result (Video.t Torch.Tensor * Label.t * list (list Params) * RandomState) :=
  row <- iloc (meta self) item ;;
  let video_meta := Pandas.row_meta row in
  let (loaded, g1) := load_frames video_meta (do_root_path (do self)) (do_read_jpeg (do self))
                                  (cut self) (do_setting (do self))
                                  (so_num_segments (so self)) g in
  frames <- loaded ;;
  let video := Video.mk video_meta (do_root_path (do self)) (do_read_jpeg (do self))
                        (cut self) (do_setting (do self)) (so_num_segments (so self))
                        frames in
  let label := Label.__init__ video_meta in
  let '(tensors, params, g2) := aug self (Video.data video) g1 in
  Ok (Video.set_data video tensors, label, params, g2).

End WithCollaborators.
End VideoDataset.

(* ===================================================================== *)
(** ** A concrete environment *)
(* ===================================================================== *)

(** Concrete collaborators and inputs, on which the definitions above are
    evaluated: a linear congruential generator, simple image operations,
    a metadata file of four clips in two classes and a clip of two
    frames. *)
Module Demo.

Local Open Scope string_scope.

Definition lcg (s : Z) : Z := (s * 1103515245 + 12345) mod 2147483648.

Definition clamp_byte (z : Z) : byte :=
  match Byte.of_N (Z.to_N (Z.max 0 (Z.min 255 z))) with
  | Some b => b
  | None => x00
  end.

Definition image_op (op : ImgAug.AugOp) (ps : ImgAug.Params) (img : ndarray) : ndarray :=
  match ps with
  | ImgAug.Offset _ _ => img
  | ImgAug.Flip b =>
      if b then mk_ndarray (nd_h img) (nd_w img) (nd_c img) (rev (nd_data img)) else img
  | ImgAug.Amount v =>
      mk_ndarray (nd_h img) (nd_w img) (nd_c img)
                 (map (fun b => clamp_byte (Torch.byte_to_Z b + v)) (nd_data img))
  end.

Definition clip (i : Z) (name : string) (class_id : Z) : VideoMeta.t :=
  VideoMeta.mk i name class_id "clips" 40 100 160 12.

(** Two classes: class 7 in rows 0, 1 and 3, class 9 in row 2. *)
Definition table : Pandas.DataFrame :=
  [ Pandas.mkRow 0 (clip 100 "push" 7);
    Pandas.mkRow 1 (clip 101 "push" 7);
    Pandas.mkRow 2 (clip 102 "pull" 9);
    Pandas.mkRow 3 (clip 103 "push" 7) ].

(** Two classes whose ids are the index labels of each other's first
    row. *)
Definition crossed : Pandas.DataFrame :=
  [ Pandas.mkRow 0 (clip 100 "push" 1);
    Pandas.mkRow 1 (clip 101 "pull" 0) ].

Definition meta_file (path : string) : Pandas.DataFrame :=
  if String.eqb path "crossed.json" then crossed
  else if String.eqb path "empty.json" then []
  else table.

Definition frame0 : ndarray := mk_ndarray 1 2 3 [x00; x40; x80; xff; x10; x20].
Definition frame1 : ndarray := mk_ndarray 1 2 3 [x01; x02; x03; x04; x05; x06].

#[export] Instance collaborators : Collaborators := {|
  RandomState := Z;
  forward_random_state := lcg;
  new_random_state := fun g => (lcg g mod 1000000, lcg g);
  sample_uniform := fun s => (if Z.even (s / 65536) then PyFloat.zero else PyFloat.half, lcg s);
  sample_binomial := fun _ s => (Z.odd (s / 65536), lcg s);
  sample_integer := fun lo hi s => (lo + (s / 65536) mod (hi - lo + 1), lcg s);
  apply_params := image_op;
  read_meta := meta_file;
  load_frames := fun _ _ _ _ _ _ g => (Ok [frame0; frame1], lcg g)
|}.

(** The two kinds of release of torch. *)
Definition torch_2_0 : Torch.Release := {| Torch.int64_overflow := RuntimeError |}.
Definition torch_later : Torch.Release := {| Torch.int64_overflow := ValueError |}.

Definition two : PyFloat.float :=
  Eval vm_compute in binary_normalize PyFloat.prec PyFloat.emax 2 0 false.

(** The float [0.1]: [0x1.999999999999ap-4]. *)
Definition tenth : PyFloat.float := S754_finite false 7205759403792794 (-56).

Definition options (setting : string) (keep : option number) : DataSetOptions :=
  mkDataSetOptions "data" "meta.json" false setting keep.

Definition sampling : SamplingOptions := mkSamplingOptions 4 4.

(** The dataset that [__init__] builds from [table] for training. *)
Definition dataset : VideoDataset.t :=
  VideoDataset.mk PyFloat.one 224 (options "train" None) sampling table [7; 9]
                  [(0, "push"); (2, "pull")]
                  (Pandas.mkLabelFrame "index" [("push", 0); ("pull", 2)])
                  (VideoDataset._compose_aug_seq "train").

Definition video (frames : list ndarray) : Video.t Torch.Tensor :=
  Video.mk (clip 100 "push" 7) "data" false PyFloat.one "train" 4 (map Torch.to_tensor frames).

Definition sample2 : Collate.sample := (video [frame0; frame1], Label.__init__ (clip 100 "push" 7)).
Definition sample2' : Collate.sample := (video [frame1; frame0], Label.__init__ (clip 102 "pull" 9)).
Definition sample1 : Collate.sample := (video [frame0], Label.__init__ (clip 101 "push" 7)).

End Demo.

(* ===================================================================== *)
(** ** get_batch and __str__ *)
(* ===================================================================== *)

(** What [get_batch] and [__str__] call beyond the collaborators above:
    numpy's [permutation], through which [DataFrame.sample] draws rows
    without replacement; the text of a [Video] inside a tuple; and what
    indexing the dataset does with the slice or mask that [get_loc]
    returns for an index label that occurs more than once. *)
Class Inspection {ext : Collaborators} : Type := {
  permutation : nat -> RandomState -> list nat * RandomState;
  video_repr : Video.t Torch.Tensor -> string;
  getitem_many : VideoDataset.t -> list nat -> RandomState ->
                 result (Video.t Torch.Tensor * Label.t * RandomState)
}.

Module Sampling.
Section WithCollaborators.
Context {ext : Collaborators} {insp : Inspection}.

(** [df.take(positions)] *)
Definition take (df : Pandas.DataFrame) (positions : list nat) : result Pandas.DataFrame :=
  mapM (fun p => match nth_error df p with
                 | Some r => Ok r
                 | None => Raise IndexError
                 end) positions.

(** [df.sample(n=n)]: [n] rows drawn without replacement, the first [n]
    positions of a random permutation; [ValueError] for a negative [n]
    and for more rows than the table has. *)
Definition sample (df : Pandas.DataFrame) (n : Z) (g : RandomState)
  : result (Pandas.DataFrame * RandomState) :=
  if n <? 0 then Raise ValueError
  else if Z.of_nat (List.length df) <? n then Raise ValueError
  else
    let (perm, g1) := permutation (List.length df) g in
    rows <- take df (firstn (Z.to_nat n) perm) ;;
    Ok (rows, g1).

(** The positions at which an index holds a label. *)
Fixpoint positions_from (start : nat) (index : list Z) (label : Z) : list nat :=
  match index with
  | [] => []
  | i :: index' =>
      if i =? label then start :: positions_from (S start) index' label
      else positions_from (S start) index' label
  end.

(** What [Index.get_loc] returns: a position for a label that occurs
    once, a slice or a mask for a label that occurs more often. *)
Inductive Location : Type :=
| At (position : nat)
| Several (positions : list nat).

(** [index.get_loc(label)]; [KeyError] for a label that does not occur. *)
Definition get_loc (index : list Z) (label : Z) : result Location :=
  match positions_from 0 index label with
  | [] => Raise KeyError
  | [p] => Ok (At p)
  | ps => Ok (Several ps)
  end.

(** [self[iloc]] for what [get_loc] returned. *)
Definition getitem_at (self : VideoDataset.t) (loc : Location) (g : RandomState)
  : result (Video.t Torch.Tensor * Label.t * RandomState) :=
  match loc with
  | At p =>
      '(video, label, _, g1) <- VideoDataset.__getitem__ self (Z.of_nat p) g ;;
      Ok (video, label, g1)
  | Several ps => getitem_many self ps g
  end.

(** The loop of [get_batch] over the sampled rows. *)
Fixpoint get_batch_rows (self : VideoDataset.t) (rows : list Pandas.Row) (g : RandomState)
  : result (list (Video.t Torch.Tensor) * list Label.t * RandomState) :=
  match rows with
  | [] => Ok ([], [], g)
  | row :: rest =>
      iloc <- get_loc (map Pandas.row_index (VideoDataset.meta self)) (Pandas.row_index row) ;;
      '(video, label, g1) <- getitem_at self iloc g ;;
      '(videos, labels, g2) <- get_batch_rows self rest g1 ;;
      Ok (video :: videos, label :: labels, g2)
  end.

Definition get_batch (self : VideoDataset.t) (n : Z) (g : RandomState)
  : result (list (Video.t Torch.Tensor) * list Label.t * RandomState) :=
  '(rows, g1) <- sample (VideoDataset.meta self) n g ;;
  get_batch_rows self rows g1.

(** [str(n)] for an [int]. *)
Definition str_int (n : Z) : string := NilZero.string_of_int (Z.to_int n).

(** [Label.__str__] of [pipeline/label.py], which [__repr__] returns
    too: the target and the label text (the column that file calls
    [template]). *)
Definition label_str (l : Label.t) : string :=
  ("(" ++ str_int (Label.data l) ++ " " ++ VideoMeta.label (Label.meta l) ++ ")")%string.

(** The text of the pair that [self[0]] returns. *)
Definition pair_str (video : Video.t Torch.Tensor) (label : Label.t) : string :=
  ("(" ++ video_repr video ++ ", " ++ label_str label ++ ")")%string.

(** [__str__]: the length, then the first sample, which is decoded and
    augmented for the purpose. *)
Definition __str__ (self : VideoDataset.t) (g : RandomState) : result (string * RandomState) :=
  let n := VideoDataset.__len__ self in
  '(video, label, _, g1) <- VideoDataset.__getitem__ self 0 g ;;
  Ok (("Something-Something Dataset: " ++ str_int (Z.of_nat n) ++ " x "
       ++ pair_str video label)%string, g1).

(** The clips of a dataset all load, from every random state. *)
Definition all_load (self : VideoDataset.t) : Prop :=
  forall row g, In row (VideoDataset.meta self) ->
    exists frames g1,
      load_frames (Pandas.row_meta row) (do_root_path (VideoDataset.do self))
                  (do_read_jpeg (VideoDataset.do self)) (VideoDataset.cut self)
                  (do_setting (VideoDataset.do self))
                  (so_num_segments (VideoDataset.so self)) g = (Ok frames, g1).

End WithCollaborators.
End Sampling.

(* ===================================================================== *)
(** ** ExperimentLogger: printing the options *)
(* ===================================================================== *)

(** [print_options] and [log] of [logger.py].  The terminal is the list of
    the messages written to it so far. *)
Module Logger.

Local Open Scope string_scope.

(** [dataclasses.asdict(self.opts)]: nested dictionaries in field order;
    a value that is not a dictionary is kept as the text that [str]
    gives for it. *)
#[warnings="-register-all"] Inductive value : Type :=
| Leaf (text : string)
| Dict (items : list (string * value)).

Record t : Type := mk {
  opts : list (string * value);
  main_proc : bool
}.

(** [_Decorator.main_proc_only]: off the main process the method is not
    called, and nothing changes. *)
Definition main_proc_only {S : Type} (self : t) (method : S -> S) (s : S) : S :=
  if main_proc self then method s else s.

(** [log]: [tqdm.tqdm.write(msg)] on the main process. *)
Definition log (self : t) (msg : string) (terminal : list string) : list string :=
  main_proc_only self (fun written => (written ++ [msg])%list) terminal.

Definition spaces (n : nat) : string := string_of_list_ascii (repeat " "%char n).

(** A Python [str] is held as its UTF-8 bytes.  A byte [10xxxxxx]
    continues a character; every other byte starts one. *)
Definition continues (c : ascii) : bool :=
  match c with
  | Ascii _ _ _ _ _ _ b6 b7 => b7 && negb b6
  end.

(** [len(s)]: the number of characters, not of bytes. *)
Fixpoint len (s : string) : nat :=
  match s with
  | EmptyString => 0
  | String c s' => if continues c then len s' else S (len s')
  end.

(** [f'{s:<50s}'] and [f'{s:>50s}'] for a given width: the text is
    padded with spaces to that number of characters, never cut. *)
Definition ljust (width : nat) (s : string) : string := s ++ spaces (width - len s).
Definition rjust (width : nat) (s : string) : string := spaces (width - len s) ++ s.

(** [f'{p:<50s}{str(value):>50s}'] *)
Definition field_line (p text : string) : string := ljust 50 p ++ rjust 50 text.

(** [prefix + f'.{name}' if prefix else f'{name}'] *)
Definition extend (prefix name : string) : string :=
  if String.eqb prefix "" then name else prefix ++ "." ++ name.

(** One turn of the loop of [inner], for the item [name, v]. *)
Fixpoint inner_item (self : t) (prefix name : string) (v : value) (terminal : list string)
         {struct v} : list string :=
  let p := extend prefix name in
  match v with
  | Dict items =>
      fold_left (fun written item => inner_item self p (fst item) (snd item) written)
                items terminal
  | Leaf text => log self (field_line p text) terminal
  end.

(** [inner(opts, prefix)] *)
Definition inner (self : t) (items : list (string * value)) (prefix : string)
           (terminal : list string) : list string :=
  fold_left (fun written item => inner_item self prefix (fst item) (snd item) written)
            items terminal.

(** ["=" * 49] *)
Definition rule : string := string_of_list_ascii (repeat "="%char 49).

Definition print_options (self : t) (terminal : list string) : list string :=
  let t1 := log self (field_line "Field" "Value") terminal in
  let t2 := log self (field_line rule rule) t1 in
  inner self (opts self) "" t2.

(** The leaves below an item, each with the field names that lead to
    it, in the order of the fields. *)
Fixpoint leaves_of (path : list string) (name : string) (v : value)
  : list (list string * string) :=
  match v with
  | Leaf text => [((path ++ [name])%list, text)]
  | Dict items =>
      flat_map (fun item => leaves_of (path ++ [name])%list (fst item) (snd item)) items
  end.

Definition leaves (items : list (string * value)) : list (list string * string) :=
  flat_map (fun item => leaves_of [] (fst item) (snd item)) items.

(** No field below, nor the item itself, has the empty name. *)
Fixpoint named (name : string) (v : value) : bool :=
  negb (String.eqb name "") &&
  match v with
  | Leaf _ => true
  | Dict items => forallb (fun item => named (fst item) (snd item)) items
  end.

(** The dotted name of a path of field names, and the line of a leaf. *)
Definition dotted (path : list string) : string := String.concat "." path.

Definition line_of (leaf : list string * string) : string :=
  field_line (dotted (fst leaf)) (snd leaf).

(** The text [cafe] with an acute accent on the last letter: four
    characters in five bytes. *)
Definition cafe : string :=
  "caf" ++ String (ascii_of_nat 195) (String (ascii_of_nat 169) EmptyString).

(** Options of two groups, as [asdict] gives them. *)
Definition sample_opts : list (string * value) :=
  [ ("name", Leaf "dev");
    ("trainer", Dict [("epochs", Leaf "3"); ("optimizer", Dict [("lr", Leaf "0.001")])]);
    ("debug", Leaf "False") ].

End Logger.

(* ===================================================================== *)
(** ** Building blocks of the I3D models *)
(* ===================================================================== *)

(** [MaxPool3dTFPadding] and [Unit3D] of [models/i3d/common/blocks.py].
    The layers of [torch.nn] are kept as the constructor calls that make
    them; what a layer computes, and the two helpers that compute the
    padding, are parameters. *)
Module Blocks.

Local Open Scope string_scope.

(** [mo.Unit3DOptions], the fields that [Unit3D] reads. *)
Record Unit3DOptions : Type := mkUnit3DOptions {
  in_channels : Z;
  out_channels : Z;
  kernel_size : list Z;
  stride : list Z;
  padding : string;
  use_bias : bool;
  use_bn : bool;
  activation : string
}.

(** [nn.ConstantPad3d(padding, value)] *)
Record ConstantPad3d : Type := mkConstantPad3d {
  pad_shape : list Z;
  pad_value : Z
}.

(** [nn.Conv3d(in_channels, out_channels, kernel_size, stride=, padding=,
    bias=)]; [padding] is 0 when it is not given. *)
Record Conv3d : Type := mkConv3d {
  conv_in_channels : Z;
  conv_out_channels : Z;
  conv_kernel_size : list Z;
  conv_stride : list Z;
  conv_padding : Z;
  conv_bias : bool
}.

(** [nn.MaxPool3d(kernel_size, stride, ceil_mode=)] *)
Record MaxPool3d : Type := mkMaxPool3d {
  pool_kernel_size : list Z;
  pool_stride : option (list Z);
  pool_ceil_mode : bool
}.

Inductive Layer : Type :=
| LPad (l : ConstantPad3d)
| LConv (l : Conv3d)
| LPool (l : MaxPool3d)
| LBatchNorm3d (num_features : Z)
| LReLU.

(** A call returns, raises one of the exceptions above, or raises
    [AttributeError]. *)
Inductive outcome (A : Type) : Type :=
| Returns (a : A)
| Raises (e : exn)
| RaisesAttributeError.

Arguments Returns {A} a.
Arguments Raises {A} e.
Arguments RaisesAttributeError {A}.

Definition and_then {A B : Type} (o : outcome A) (k : A -> outcome B) : outcome B :=
  match o with
  | Returns a => k a
  | Raises e => Raises e
  | RaisesAttributeError => RaisesAttributeError
  end.

Section WithTorch.
(** [hp.get_padding_shape(kernel_size, stride)]; [stride] may be [None]. *)
Variable get_padding_shape : list Z -> option (list Z) -> outcome (list Z).
(** [hp.simplify_padding(padding_shape)] *)
Variable simplify_padding : list Z -> outcome (bool * Z).
(** Calling a layer on a tensor. *)
Variable call : Layer -> Torch.Tensor -> outcome Torch.Tensor.

(** A [MaxPool3dTFPadding] object: the attributes [padding_shape] and
    [pad] exist only when [__init__] has assigned them. *)
Record MaxPool3dTFPadding : Type := mkMaxPool3dTFPadding {
  mp_padding_shape : option (list Z);
  mp_pad : option ConstantPad3d;
  mp_pool : MaxPool3d
}.

(** [MaxPool3dTFPadding.__init__]: the padding layer is made for
    ['SAME'] only; the pooling always. *)
Definition MaxPool3dTFPadding__init__ (kernel_size : list Z) (stride : option (list Z))
           (padding : string) : outcome MaxPool3dTFPadding :=
  let pool := mkMaxPool3d kernel_size stride true in
  if String.eqb padding "SAME" then
    and_then (get_padding_shape kernel_size stride) (fun padding_shape =>
    Returns (mkMaxPool3dTFPadding (Some padding_shape)
                                  (Some (mkConstantPad3d padding_shape 0)) pool))
  else Returns (mkMaxPool3dTFPadding None None pool).

(** [forward]: reading an attribute that was never assigned raises
    [AttributeError]. *)
Definition MaxPool3dTFPadding_forward (self : MaxPool3dTFPadding) (_in : Torch.Tensor)
  : outcome Torch.Tensor :=
  match mp_pad self with
  | None => RaisesAttributeError
  | Some pad =>
      and_then (call (LPad pad) _in) (fun _out => call (LPool (mp_pool self)) _out)
  end.

(** A [Unit3D] object: the convolution, the padding layer if there is
    one, the number of features of the batch normalisation if there is
    one, and whether there is a [ReLU]. *)
Record Unit3D : Type := mkUnit3D {
  conv3d : Conv3d;
  pad : option ConstantPad3d;
  batch3d : option Z;
  relu : bool
}.

(** [Unit3D.__init__]: the padding is tested twice, before and after
    the padding shape is computed. *)
Definition Unit3D__init__ (opts : Unit3DOptions) : outcome Unit3D :=
  if negb (existsb (String.eqb (padding opts)) ["SAME"; "VALID"; "TEMPORAL_VALID"])
  then Raises ValueError
  else
    and_then (get_padding_shape (kernel_size opts) (Some (stride opts))) (fun padding_shape =>
    and_then
      (if String.eqb (padding opts) "SAME" then
         and_then (simplify_padding padding_shape) (fun '(simplify_pad, pad_size) =>
         if (simplify_pad : bool) then
           Returns (None,
                    mkConv3d (in_channels opts) (out_channels opts) (kernel_size opts)
                             (stride opts) pad_size (use_bias opts))
         else
           Returns (Some (mkConstantPad3d padding_shape 0),
                    mkConv3d (in_channels opts) (out_channels opts) (kernel_size opts)
                             (stride opts) 0 (use_bias opts)))
       else if String.eqb (padding opts) "VALID" then
         Returns (None,
                  mkConv3d (in_channels opts) (out_channels opts) (kernel_size opts)
                           (stride opts) 0 (use_bias opts))
       else Raises ValueError)
      (fun '(pad, conv3d) =>
         Returns (mkUnit3D conv3d pad
                           (if use_bn opts then Some (out_channels opts) else None)
                           (String.eqb (activation opts) "relu")))).

End WithTorch.

End Blocks.

(* ===================================================================== *)
(** ** Grouping by class *)
(* ===================================================================== *)

(** [head(1)] keeps a row when no row of its class was seen before it. *)
Definition unseen (seen : list Z) (l : Z) : bool := (count_occ Z.eq_dec seen l <? 1)%nat.

(* ===================================================================== *)
(** ** Further concrete inputs *)
(* ===================================================================== *)

(** Inputs on which the properties below are evaluated. *)
Module Fixtures.
#[local] Existing Instance Demo.collaborators.
Local Open Scope string_scope.

(** The float [0.75]. *)
Definition three_quarters : PyFloat.float :=
  Eval vm_compute in
    SFdiv PyFloat.prec PyFloat.emax
          (binary_normalize PyFloat.prec PyFloat.emax 3 0 false)
          (binary_normalize PyFloat.prec PyFloat.emax 4 0 false).

(** Two classes whose rows alternate. *)
Definition alternating : Pandas.DataFrame :=
  [ Pandas.mkRow 10 (Demo.clip 100 "push" 7);
    Pandas.mkRow 11 (Demo.clip 101 "pull" 9);
    Pandas.mkRow 12 (Demo.clip 102 "push" 7);
    Pandas.mkRow 13 (Demo.clip 103 "pull" 9) ].

(** The dataset that [__init__] builds from [Demo.table] for evaluation. *)
Definition eval_dataset : VideoDataset.t :=
  VideoDataset.mk PyFloat.one 224 (Demo.options "eval" None) Demo.sampling Demo.table [7; 9]
                  [(0, "push"); (2, "pull")]
                  (Pandas.mkLabelFrame "index" [("push", 0); ("pull", 2)])
                  (VideoDataset._compose_aug_seq "eval").

(** A sampler that draws the rows from the last one backwards, and a
    short text for a video. *)
#[export] Instance inspection : Inspection := {|
  permutation := fun len g => (rev (seq 0 len), Demo.lcg g);
  video_repr := fun v => "Video " ++ VideoMeta.label (Video.meta v);
  getitem_many := fun _ _ _ => Raise TypeError
|}.

(** The dataset that [__init__] builds from [Demo.table] with
    [keep = 0]: its table has no rows. *)
Definition empty_dataset : VideoDataset.t :=
  VideoDataset.mk PyFloat.one 224 (Demo.options "train" (Some (PyInt 0))) Demo.sampling []
                  [7; 9] [(0, "push"); (2, "pull")]
                  (Pandas.mkLabelFrame "index" [("push", 0); ("pull", 2)])
                  (VideoDataset._compose_aug_seq "train").

(** An image brought to [h] by [w]: the pixels inside both sizes stay
    where they are, the others are black. *)
Definition resized (img : ndarray) (h w : nat) : ndarray :=
  mk_ndarray h w (nd_c img)
    (flat_map (fun y =>
       flat_map (fun x =>
         map (fun c => if Nat.ltb y (nd_h img) && Nat.ltb x (nd_w img)
                       then nth ((y * nd_w img + x) * nd_c img + c)%nat (nd_data img) x00
                       else x00)
             (seq 0 (nd_c img)))
         (seq 0 w))
       (seq 0 h)).

(** Image operations that resize: a pad brings a smaller image up to
    the size of its augmenter, a crop brings a larger one down to it;
    the other operations are those of [Demo]. *)
Definition resizing_op (op : ImgAug.AugOp) (p : ImgAug.Params) (img : ndarray) : ndarray :=
  match op with
  | ImgAug.PadToFixedSize width height _ =>
      resized img (Nat.max (nd_h img) (Z.to_nat height)) (Nat.max (nd_w img) (Z.to_nat width))
  | ImgAug.CropToFixedSize width height _ =>
      resized img (Nat.min (nd_h img) (Z.to_nat height)) (Nat.min (nd_w img) (Z.to_nat width))
  | _ => Demo.image_op op p img
  end.

Definition resizing : Collaborators := {|
  RandomState := Z;
  forward_random_state := Demo.lcg;
  new_random_state := fun g => (Demo.lcg g mod 1000000, Demo.lcg g);
  sample_uniform := fun s => (if Z.even (s / 65536) then PyFloat.zero else PyFloat.half,
                              Demo.lcg s);
  sample_binomial := fun _ s => (Z.odd (s / 65536), Demo.lcg s);
  sample_integer := fun lo hi s => (lo + (s / 65536) mod (hi - lo + 1), Demo.lcg s);
  apply_params := resizing_op;
  read_meta := Demo.meta_file;
  load_frames := fun _ _ _ _ _ _ g => (Ok [Demo.frame0; Demo.frame1], Demo.lcg g)
|}.

(** The dataset that [__init__] builds from [Demo.table] for training,
    with the image operations that resize. *)
Definition resizing_dataset : @VideoDataset.t resizing :=
  @VideoDataset.mk resizing PyFloat.one 224 (Demo.options "train" None) Demo.sampling
                   Demo.table [7; 9] [(0, "push"); (2, "pull")]
                   (Pandas.mkLabelFrame "index" [("push", 0); ("pull", 2)])
                   (@VideoDataset._compose_aug_seq resizing "train").

(** Helpers that pad by one on every side. *)
Definition padding_by_one (kernel_size : list Z) (stride : option (list Z))
  : Blocks.outcome (list Z) :=
  Blocks.Returns [1; 1; 1; 1; 1; 1].

Definition same_on_all_sides (padding_shape : list Z) : Blocks.outcome (bool * Z) :=
  Blocks.Returns (true, hd 0 padding_shape).

Definition identity_call (l : Blocks.Layer) (x : Torch.Tensor) : Blocks.outcome Torch.Tensor :=
  Blocks.Returns x.

Definition unit_options (padding : string) : Blocks.Unit3DOptions :=
  Blocks.mkUnit3DOptions 3 64 [7; 7; 7] [2; 2; 2] padding false true "relu".

End Fixtures.

(* ===================================================================== *)
(** * Properties *)
(* ===================================================================== *)

(** ** Facts on binary64 rounding *)

Module FloatFacts.

(** The number of binary digits of a positive number. *)
Lemma digits2_bounds (p : positive) :
  2 ^ (Zpos (digits2_pos p) - 1) <= Zpos p < 2 ^ Zpos (digits2_pos p).
Proof.
  induction p as [p IH | p IH | ]; simpl digits2_pos.
  - rewrite Pos2Z.inj_succ.
    replace (Z.succ (Zpos (digits2_pos p)) - 1) with (Z.succ (Zpos (digits2_pos p) - 1)) by lia.
    rewrite !Z.pow_succ_r by lia. lia.
  - rewrite Pos2Z.inj_succ.
    replace (Z.succ (Zpos (digits2_pos p)) - 1) with (Z.succ (Zpos (digits2_pos p) - 1)) by lia.
    rewrite !Z.pow_succ_r by lia. lia.
  - simpl. lia.
Qed.

Lemma iter_xO_value (d m : positive) : Zpos (Pos.iter xO m d) = Zpos m * 2 ^ Zpos d.
Proof.
  induction d as [ | d IH] using Pos.peano_ind.
  - simpl. lia.
  - rewrite Pos.iter_succ, Pos2Z.inj_succ, Z.pow_succ_r by lia.
    rewrite Pos2Z.inj_xO, IH. ring.
Qed.

Lemma iter_xO_digits (d m : positive) :
  Zpos (digits2_pos (Pos.iter xO m d)) = Zpos (digits2_pos m) + Zpos d.
Proof.
  induction d as [ | d IH] using Pos.peano_ind.
  - simpl. lia.
  - rewrite Pos.iter_succ. simpl digits2_pos. rewrite !Pos2Z.inj_succ, IH. lia.
Qed.

Lemma shr_1_m (mrs : shr_record) :
  0 <= shr_m mrs -> shr_m (shr_1 mrs) = shr_m mrs / 2.
Proof.
  destruct mrs as [m r s]; simpl. intros Hm.
  destruct m as [ | [p | p | ] | p]; cbn [shr_m]; try lia; try reflexivity.
  - apply Z.div_unique with (r := 1); lia.
  - apply Z.div_unique with (r := 0); lia.
Qed.

Lemma iter_shr_1_m (k : positive) : forall mrs,
  0 <= shr_m mrs ->
  shr_m (iter_pos shr_1 k mrs) = shr_m mrs / 2 ^ Zpos k.
Proof.
  induction k as [k IH | k IH | ]; intros mrs Hm; simpl iter_pos.
  - assert (H1 : 0 <= shr_m (shr_1 mrs)).
    { rewrite shr_1_m by assumption. apply Z.div_pos; lia. }
    assert (H2 : 0 <= shr_m (iter_pos shr_1 k (shr_1 mrs))).
    { rewrite IH by assumption. apply Z.div_pos; [assumption | apply Z.pow_pos_nonneg; lia]. }
    rewrite IH, IH, shr_1_m by assumption.
    rewrite !Z.div_div by (try apply Z.pow_pos_nonneg; lia).
    f_equal. rewrite <- Z.pow_add_r, <- Z.pow_succ_r by lia. f_equal. lia.
  - assert (H2 : 0 <= shr_m (iter_pos shr_1 k mrs)).
    { rewrite IH by assumption. apply Z.div_pos; [assumption | apply Z.pow_pos_nonneg; lia]. }
    rewrite IH, IH by assumption.
    rewrite !Z.div_div by (try apply Z.pow_pos_nonneg; lia).
    f_equal. rewrite <- Z.pow_add_r by lia. f_equal. lia.
  - rewrite shr_1_m by assumption. reflexivity.
Qed.

Lemma round_nearest_even_bounds (m : Z) (l : location) :
  m <= round_nearest_even m l <= m + 1.
Proof.
  destruct l as [ | [ | | ]]; simpl; try lia.
  destruct (Z.even m); lia.
Qed.

Lemma Zdigits2_le (m t : Z) : 0 < m -> m < 2 ^ t -> Zdigits2 m <= t.
Proof.
  intros Hm Ht. destruct m as [ | p | p]; try lia. simpl.
  destruct (digits2_bounds p) as [Hlo _].
  destruct (Z.le_gt_cases (Zpos (digits2_pos p)) t) as [ | Hgt]; [assumption | exfalso].
  assert (2 ^ t <= 2 ^ (Zpos (digits2_pos p) - 1)) by (apply Z.pow_le_mono_r; lia).
  lia.
Qed.

Lemma pow2_split (a b : Z) : 0 <= a <= b -> 2 ^ b = 2 ^ (b - a) * 2 ^ a.
Proof. intros H. rewrite <- Z.pow_add_r by lia. f_equal. lia. Qed.

Lemma pow2_pos (a : Z) : 0 <= a -> 0 < 2 ^ a.
Proof. intros. apply Z.pow_pos_nonneg; lia. Qed.

(** One truncation step of the rounding: either the mantissa is kept, or
    it is divided by the power of two that the exponent gains. *)
Lemma shr_fexp_cases (m e : Z) (l : location) :
  0 <= m ->
  let E := fexp PyFloat.prec PyFloat.emax (Zdigits2 m + e) in
  (E <= e /\ shr_fexp PyFloat.prec PyFloat.emax m e l = (shr_record_of_loc m l, e)) \/
  (e < E /\ exists mrs, shr_fexp PyFloat.prec PyFloat.emax m e l = (mrs, E) /\
                       shr_m mrs = m / 2 ^ (E - e)).
Proof.
  intros Hm E. unfold shr_fexp. fold E.
  destruct (E - e) as [ | k | k] eqn:Hk.
  - left. split; [lia | reflexivity].
  - right. split; [lia | ]. cbn [shr].
    exists (iter_pos shr_1 k (shr_record_of_loc m l)). split.
    + f_equal. lia.
    + rewrite iter_shr_1_m.
      * destruct l as [ | [ | | ]]; reflexivity.
      * destruct l as [ | [ | | ]]; assumption.
  - left. split; [lia | reflexivity].
Qed.

Lemma shr_record_of_loc_m (m : Z) (l : location) : shr_m (shr_record_of_loc m l) = m.
Proof. destruct l as [ | [ | | ]]; reflexivity. Qed.

Lemma loc_of_shr_record_of_loc (m : Z) (l : location) :
  loc_of_shr_record (shr_record_of_loc m l) = l.
Proof. destruct l as [ | [ | | ]]; reflexivity. Qed.

(** The exponent chosen for a positive mantissa whose value is below
    [2 ^ 53] is not positive. *)
Lemma fexp_nonpos (m e n : Z) :
  0 <= m -> e <= 0 -> 0 < n < 2 ^ 53 -> m <= n * 2 ^ (- e) ->
  fexp PyFloat.prec PyFloat.emax (Zdigits2 m + e) <= 0.
Proof.
  intros Hm He Hn Hle. unfold fexp, emin, PyFloat.prec, PyFloat.emax.
  apply Z.max_lub; [ | lia].
  destruct (Z.eq_dec m 0) as [-> | Hnz]; [simpl; lia | ].
  assert (Zdigits2 m <= 53 - e); [ | lia].
  apply Zdigits2_le; [lia | ].
  replace (53 - e) with (53 + - e) by lia. rewrite Z.pow_add_r by lia.
  assert (0 < 2 ^ (- e)) by (apply pow2_pos; lia). nia.
Qed.

Lemma div_pow2_le (m n a b : Z) :
  b <= a <= 0 -> m <= n * 2 ^ (- b) -> m / 2 ^ (a - b) <= n * 2 ^ (- a).
Proof.
  intros Hab Hm.
  assert (Hp : 0 < 2 ^ (a - b)) by (apply pow2_pos; lia).
  apply Z.div_le_upper_bound; [assumption | ].
  rewrite (pow2_split (- a) (- b)) in Hm by lia.
  replace (- b - - a) with (a - b) in Hm by lia. lia.
Qed.

Lemma div_pow2_lt (m n a b : Z) :
  b <= a <= 0 -> m < n * 2 ^ (- b) -> m / 2 ^ (a - b) < n * 2 ^ (- a).
Proof.
  intros Hab Hm.
  assert (Hp : 0 < 2 ^ (a - b)) by (apply pow2_pos; lia).
  apply Z.div_lt_upper_bound; [assumption | ].
  rewrite (pow2_split (- a) (- b)) in Hm by lia.
  replace (- b - - a) with (a - b) in Hm by lia. lia.
Qed.

(** Rounding a positive value that is below the integer [n < 2 ^ 53]
    gives a float that is at most [n]. *)
Lemma binary_round_aux_below (p : positive) (e n : Z) :
  e <= 0 -> 0 < n < 2 ^ 53 -> Zpos p < n * 2 ^ (- e) ->
  PyFloat.below (binary_round_aux PyFloat.prec PyFloat.emax false (Zpos p) e loc_Exact) n.
Proof.
  intros He Hn Hlt. unfold binary_round_aux.
  assert (HE : fexp PyFloat.prec PyFloat.emax (Zdigits2 (Zpos p) + e) <= 0)
    by (apply fexp_nonpos with (n := n); lia).
(* first truncation, then rounding to nearest *)
assert (H1 : exists mrs1 e1,
           shr_fexp PyFloat.prec PyFloat.emax (Zpos p) e loc_Exact = (mrs1, e1) /\
           e1 <= 0 /\
           0 <= round_nearest_even (shr_m mrs1) (loc_of_shr_record mrs1) <= n * 2 ^ (- e1)).
{ destruct (shr_fexp_cases (Zpos p) e loc_Exact) as [[_ Heq] | [Hsh [mrs [Heq Hm]]]]; [lia | | ].
  - exists (shr_record_of_loc (Zpos p) loc_Exact), e. repeat split; try assumption.
    + simpl. lia.
    + simpl. lia.
  - exists mrs, (fexp PyFloat.prec PyFloat.emax (Zdigits2 (Zpos p) + e)).
    split; [assumption | split; [assumption | ]].
    pose proof (round_nearest_even_bounds (shr_m mrs) (loc_of_shr_record mrs)) as Hr.
    assert (0 <= shr_m mrs) by (rewrite Hm; apply Z.div_pos; [lia | apply pow2_pos; lia]).
    assert (shr_m mrs < n * 2 ^ (- fexp PyFloat.prec PyFloat.emax (Zdigits2 (Zpos p) + e))).
    { rewrite Hm. apply div_pow2_lt; lia. }
    lia. }
destruct H1 as [mrs1 [e1 [-> [He1 Hm1]]]].
set (m1 := round_nearest_even (shr_m mrs1) (loc_of_shr_record mrs1)) in *.
assert (HE2 : fexp PyFloat.prec PyFloat.emax (Zdigits2 m1 + e1) <= 0)
  by (apply fexp_nonpos with (n := n); lia).
(* second truncation *)
destruct (shr_fexp_cases m1 e1 loc_Exact) as [[_ ->] | [Hsh [mrs2 [-> Hm2]]]]; [lia | | ].
- cbn [shr_record_of_loc shr_m].
  destruct m1 as [ | q | q] eqn:Hq; [exact I | | lia].
  assert (Hfit : (e1 <=? PyFloat.emax - PyFloat.prec) = true)
    by (apply Z.leb_le; unfold PyFloat.emax, PyFloat.prec; lia).
  rewrite Hfit. simpl. split; lia.
- assert (Hb : 0 <= shr_m mrs2 <= n * 2 ^ (- fexp PyFloat.prec PyFloat.emax (Zdigits2 m1 + e1))).
  { rewrite Hm2. split.
    - apply Z.div_pos; [lia | apply pow2_pos; lia].
    - apply div_pow2_le; lia. }
  destruct (shr_m mrs2) as [ | q | q]; [exact I | | lia].
  assert (Hfit : (fexp PyFloat.prec PyFloat.emax (Zdigits2 m1 + e1)
                    <=? PyFloat.emax - PyFloat.prec) = true)
    by (apply Z.leb_le; unfold PyFloat.emax at 2, PyFloat.prec at 2; lia).
  rewrite Hfit. simpl. split; lia.
Qed.

Lemma binary_round_aux_canonical (m : positive) (e : Z) :
  Zpos (digits2_pos m) = 53 -> -1074 <= e <= 971 ->
  binary_round_aux PyFloat.prec PyFloat.emax false (Zpos m) e loc_Exact = S754_finite false m e.
Proof.
  intros Hd He. unfold binary_round_aux.
  assert (HE : fexp PyFloat.prec PyFloat.emax (Zdigits2 (Zpos m) + e) = e).
  { unfold fexp, emin, PyFloat.prec, PyFloat.emax. simpl Zdigits2. lia. }
  destruct (shr_fexp_cases (Zpos m) e loc_Exact) as [[_ ->] | [Hsh _]]; [lia | | lia].
  cbn [shr_record_of_loc shr_m loc_of_shr_record round_nearest_even].
  destruct (shr_fexp_cases (Zpos m) e loc_Exact) as [[_ ->] | [Hsh _]]; [lia | | lia].
  cbn [shr_record_of_loc shr_m].
  assert (Hfit : (e <=? PyFloat.emax - PyFloat.prec) = true)
    by (apply Z.leb_le; unfold PyFloat.emax, PyFloat.prec; lia).
  rewrite Hfit. reflexivity.
Qed.

(** The conversion of an integer below [2 ^ 53] is exact. *)
Lemma binary_normalize_exact (n : Z) :
  0 < n < 2 ^ 53 ->
  exists m e, binary_normalize PyFloat.prec PyFloat.emax n 0 false = S754_finite false m e /\
              e <= 0 /\ Zpos m = n * 2 ^ (- e).
Proof.
  intros Hn. destruct n as [ | p | p]; try lia.
  unfold binary_normalize, binary_round.
  pose proof (digits2_bounds p) as [Hlo Hhi].
  assert (Hd : Zpos (digits2_pos p) <= 53) by (apply (Zdigits2_le (Zpos p)); lia).
  assert (HE : fexp PyFloat.prec PyFloat.emax (Zpos (digits2_pos p) + 0)
               = Zpos (digits2_pos p) - 53).
  { unfold fexp, emin, PyFloat.prec, PyFloat.emax. lia. }
  rewrite HE. unfold shl_align.
  destruct (Zpos (digits2_pos p) - 53 - 0) as [ | d | d] eqn:Hsub; try lia.
  - exists p, 0. split; [ | split; [lia | simpl; lia]].
    apply binary_round_aux_canonical; lia.
  - exists (Pos.iter xO p d), (Zpos (digits2_pos p) - 53).
    split; [ | split; [lia | ]].
    + apply binary_round_aux_canonical; [ | lia].
      rewrite iter_xO_digits. lia.
    + rewrite iter_xO_value. f_equal. f_equal. lia.
Qed.

Lemma canonical_exponent (s : bool) (m : positive) (e : Z) :
  PyFloat.valid (S754_finite s m e) = true ->
  Z.max (Zpos (digits2_pos m) + e - 53) (-1074) = e.
Proof.
  intros Hv. unfold PyFloat.valid, valid_binary, bounded, canonical_mantissa in Hv.
  apply andb_true_iff in Hv. destruct Hv as [Hc _]. apply Z.eqb_eq in Hc.
  exact Hc.
Qed.

Lemma compare_finite_lt (m1 m2 : positive) (e1 e2 : Z) :
  SFcompare (S754_finite false m1 e1) (S754_finite false m2 e2) = Some Lt ->
  e1 < e2 \/ (e1 = e2 /\ Zpos m1 < Zpos m2).
Proof.
  cbn [SFcompare].
  destruct (Z.compare_spec e1 e2) as [He | He | He]; intros Hlt; try discriminate.
  - right. split; [assumption | ].
    rewrite Pos.compare_cont_spec in Hlt. unfold Pos.switch_Eq in Hlt.
    destruct (Pos.compare_spec m1 m2) as [Hm | Hm | Hm]; try discriminate.
    apply Pos2Z.pos_lt_pos. exact Hm.
  - left. assumption.
Qed.

Lemma ltb_one_cases (m : positive) (e : Z) :
  PyFloat.ltb (S754_finite false m e) PyFloat.one = true ->
  e < -52 \/ (e = -52 /\ Zpos m < 4503599627370496).
Proof.
  unfold PyFloat.ltb, SFltb, PyFloat.one. intros H.
  apply compare_finite_lt.
  destruct (SFcompare (S754_finite false m e) (S754_finite false 4503599627370496 (-52)))
    as [[ | | ] | ]; try discriminate. reflexivity.
Qed.

(** A canonical binary64 value that compares below one has its exponent
    at most [-53] and fewer than 54 digits. *)
Lemma below_one_canonical (m : positive) (e : Z) :
  PyFloat.valid (S754_finite false m e) = true ->
  PyFloat.ltb (S754_finite false m e) PyFloat.one = true ->
  e <= -53 /\ Zpos m < 2 ^ 53.
Proof.
  intros Hv Hlt. apply canonical_exponent in Hv. apply ltb_one_cases in Hlt.
  pose proof (digits2_bounds m) as [Hlo Hhi].
  destruct Hlt as [He | [He Hm]].
  - split; [lia | ].
    assert (Hd : Zpos (digits2_pos m) <= 53) by lia.
    assert (2 ^ Zpos (digits2_pos m) <= 2 ^ 53) by (apply Z.pow_le_mono_r; lia).
    lia.
  - exfalso. assert (Hd : Zpos (digits2_pos m) - 1 = 52) by lia.
    rewrite Hd in Hlo. change (2 ^ 52) with 4503599627370496 in Hlo. lia.
Qed.

Lemma round_half_even_bounds (m d n : Z) :
  0 < d -> 0 <= m <= n * d -> 0 <= PyFloat.round_half_even m d <= n.
Proof.
  intros Hd Hm. unfold PyFloat.round_half_even.
  pose proof (Z.div_mod m d ltac:(lia)) as Hdm.
  pose proof (Z.mod_pos_bound m d Hd) as Hr.
  assert (Hq : 0 <= m / d) by (apply Z.div_pos; lia).
  assert (Hqn : m / d <= n) by (apply Z.div_le_upper_bound; lia).
  assert (Hup : 0 < m mod d -> m / d + 1 <= n) by nia.
  destruct (2 * (m mod d) <? d) eqn:H1; [lia | ].
  apply Z.ltb_ge in H1.
  destruct (d <? 2 * (m mod d)) eqn:H2; [lia | ].
  destruct (Z.even (m / d)); lia.
Qed.

(** [round_half_even] is a nearest integer, and the even one on a tie. *)
Lemma round_half_even_nearest (m d : Z) :
  0 < d ->
  let q := PyFloat.round_half_even m d in
  2 * Z.abs (q * d - m) <= d /\ (2 * Z.abs (q * d - m) = d -> Z.even q = true).
Proof.
  intros Hd. unfold PyFloat.round_half_even.
  pose proof (Z.div_mod m d ltac:(lia)) as Hdm.
  pose proof (Z.mod_pos_bound m d Hd) as Hr.
  destruct (2 * (m mod d) <? d) eqn:H1.
  - apply Z.ltb_lt in H1. split; nia.
  - apply Z.ltb_ge in H1. destruct (d <? 2 * (m mod d)) eqn:H2.
    + apply Z.ltb_lt in H2. split; nia.
    + apply Z.ltb_ge in H2. destruct (Z.even (m / d)) eqn:He.
      * split; [nia | auto].
      * split; [nia | ]. intros _. rewrite Z.even_add, He. reflexivity.
Qed.

Lemma round_below (f : spec_float) (n : Z) :
  0 <= n -> PyFloat.below f n -> exists c, PyFloat.round f = Ok c /\ 0 <= c <= n.
Proof.
  intros Hn Hb. destruct f as [s | s | | [ | ] m e]; simpl in Hb; try contradiction.
  - exists 0. split; [reflexivity | lia].
  - destruct Hb as [He Hm]. unfold PyFloat.round.
    destruct e as [ | e | e]; try lia.
    + exists (Zpos m * 2 ^ 0). split; [reflexivity | ]. simpl in Hm. lia.
    + exists (PyFloat.round_half_even (Zpos m) (Z.pow_pos 2 e)). split; [reflexivity | ].
      apply round_half_even_bounds.
      * change (Z.pow_pos 2 e) with (2 ^ Zpos e). apply pow2_pos. lia.
      * change (Z.pow_pos 2 e) with (2 ^ Zpos e).
        change (- Zneg e) with (Zpos e) in Hm. lia.
Qed.

(** The product of an integer [0 < n < 2 ^ 53], converted exactly, with
    a canonical float in [0, 1) is at most [n]. *)
Lemma mul_below (x y : spec_float) (n : Z) :
  0 < n < 2 ^ 53 ->
  binary_normalize PyFloat.prec PyFloat.emax n 0 false = x ->
  PyFloat.valid y = true ->
  PyFloat.leb PyFloat.zero y = true ->
  PyFloat.ltb y PyFloat.one = true ->
  PyFloat.below (PyFloat.mul x y) n.
Proof.
  intros Hn Hx Hv H0 H1.
  destruct (binary_normalize_exact n Hn) as [mx [ex [Hx' [Hex Hmx]]]].
  rewrite Hx' in Hx. subst x. clear Hx'.
  destruct y as [sy | [ | ] | | [ | ] my ey]; try discriminate.
  - exact I.
  -
    destruct (below_one_canonical my ey Hv H1) as [Hey Hmy].
    unfold PyFloat.mul, SFmul. cbn [xorb].
    apply binary_round_aux_below; [lia | assumption | ].
    rewrite Pos2Z.inj_mul, Hmx.
    replace (- (ex + ey)) with (- ex + - ey) by lia.
    rewrite Z.pow_add_r by lia.
    assert (2 ^ 53 <= 2 ^ (- ey)) by (apply Z.pow_le_mono_r; lia).
    assert (0 < 2 ^ (- ex)) by (apply pow2_pos; lia).
    assert (0 < n * 2 ^ (- ex)) by nia.
    nia.
Qed.

Lemma cut_off_fraction (n : nat) (keep : number) :
  Z.of_nat n < 2 ^ 53 ->
  valid_number keep = true ->
  VideoDataset.is_fraction keep = true ->
  exists c, VideoDataset.cut_off n keep = Ok c /\ 0 <= c <= Z.of_nat n.
Proof.
  intros Hn Hv Hf. destruct keep as [k | f]; simpl in *.
  - exists (Z.of_nat n * k). split; [reflexivity | ].
    apply andb_true_iff in Hf. destruct Hf as [H0 H1].
    apply Z.leb_le in H0. apply Z.ltb_lt in H1. nia.
  - apply andb_true_iff in Hf. destruct Hf as [H0 H1].
    unfold PyFloat.of_int.
    destruct n as [ | n'].
    + simpl. destruct f as [s | [ | ] | | [ | ] m e]; try discriminate.
      * exists 0. split; [reflexivity | lia].
      * exists 0. split; [reflexivity | lia].
    + assert (Hpos : 0 < Z.of_nat (S n') < 2 ^ 53) by lia.
      pose proof (mul_below _ f _ Hpos eq_refl Hv H0 H1) as Hb.
      destruct (binary_normalize_exact _ Hpos) as [mx [ex [Hx _]]].
      rewrite Hx in *. cbn [bind].
      apply round_below; [lia | assumption].
Qed.

End FloatFacts.

(** ** Facts on the table operations *)

Module PandasFacts.
Import Pandas.

Lemma unique_In (l : list Z) (x : Z) : In x (unique l) <-> In x l.
Proof.
  induction l as [ | a l IH]; simpl; [tauto | ].
  rewrite filter_In, IH. destruct (Z.eqb_spec x a) as [-> | Hne]; simpl.
  - tauto.
  - split; [intros [H | [H _]]; auto | intros [H | H]; auto].
Qed.

Lemma unique_NoDup (l : list Z) : NoDup (unique l).
Proof.
  induction l as [ | a l IH]; simpl; constructor.
  - rewrite filter_In. intros [_ H]. rewrite Z.eqb_refl in H. discriminate.
  - apply NoDup_filter. assumption.
Qed.

Lemma has_duplicates_false (l : list Z) : has_duplicates l = false <-> NoDup l.
Proof.
  induction l as [ | a l IH]; simpl.
  - split; [constructor | reflexivity].
  - rewrite orb_false_iff, IH. split.
    + intros [Hex Hnd]. constructor; [ | assumption].
      intros Hin. assert (existsb (Z.eqb a) l = true); [ | congruence].
      apply existsb_exists. exists a. split; [assumption | apply Z.eqb_refl].
    + intros Hnd. inversion Hnd as [ | ? ? Hnin Hnd']; subst. split; [ | assumption].
      destruct (existsb (Z.eqb a) l) eqn:Hex; [ | reflexivity].
      apply existsb_exists in Hex. destruct Hex as [y [Hy Heq]].
      apply Z.eqb_eq in Heq. subst y. contradiction.
Qed.

Lemma slice_to_firstn {A : Type} (s : list A) (stop : Z) :
  0 <= stop -> slice_to s stop = firstn (Z.to_nat stop) s.
Proof.
  intros Hs. unfold slice_to.
  destruct (stop <? 0) eqn:Hneg; [apply Z.ltb_lt in Hneg; lia | ].
  destruct (Z.le_gt_cases stop (Z.of_nat (List.length s))) as [Hle | Hgt].
  - rewrite Z.min_l by assumption. reflexivity.
  - rewrite Z.min_r by lia. rewrite Nat2Z.id.
    rewrite firstn_all. symmetry. apply firstn_all2. lia.
Qed.

Lemma where_lid_lid (df : DataFrame) (l : Z) (r : Row) :
  In r (where_lid df l) -> row_lid r = l.
Proof. unfold where_lid. rewrite filter_In. intros [_ H]. apply Z.eqb_eq. exact H. Qed.

Lemma where_lid_In (df : DataFrame) (l : Z) (r : Row) :
  In r (where_lid df l) -> In r df.
Proof. unfold where_lid. rewrite filter_In. tauto. Qed.

Lemma firstn_In {A : Type} (n : nat) (l : list A) (x : A) : In x (firstn n l) -> In x l.
Proof. intros H. rewrite <- (firstn_skipn n l). apply in_or_app. left. exact H. Qed.

Lemma NoDup_firstn {A : Type} (n : nat) (l : list A) : NoDup l -> NoDup (firstn n l).
Proof.
  intros H. rewrite <- (firstn_skipn n l) in H. apply NoDup_app_remove_r in H. exact H.
Qed.

(** The rows of one class keep distinct index labels. *)
Lemma where_lid_index_NoDup (df : DataFrame) (l : Z) :
  NoDup (map row_index df) -> NoDup (map row_index (where_lid df l)).
Proof.
  unfold where_lid. induction df as [ | r df IH]; simpl; intros Hnd; [constructor | ].
  inversion Hnd as [ | ? ? Hfresh Hrest]; subst.
  destruct (row_lid r =? l); simpl; [constructor | ]; auto.
  intros Hin. apply Hfresh. apply in_map_iff in Hin. destruct Hin as [r' [Hidx Hin]].
  apply in_map_iff. exists r'. split; [assumption | ]. apply filter_In in Hin. tauto.
Qed.

Lemma NoDup_map_eq {A B : Type} (f : A -> B) (l : list A) (x y : A) :
  NoDup (map f l) -> In x l -> In y l -> f x = f y -> x = y.
Proof.
  induction l as [ | a l IH]; simpl; intros Hnd Hx Hy Heq; [contradiction | ].
  inversion Hnd as [ | ? ? Hnin Hnd']; subst.
  destruct Hx as [-> | Hx], Hy as [-> | Hy]; auto.
  - exfalso. apply Hnin. rewrite Heq. apply in_map. assumption.
  - exfalso. apply Hnin. rewrite <- Heq. apply in_map. assumption.
Qed.

Lemma mapM_pure {A B : Type} (f : A -> result B) (g : A -> B) (l : list A) :
  (forall x, In x l -> f x = Ok (g x)) -> mapM f l = Ok (map g l).
Proof.
  induction l as [ | a l IH]; simpl; intros H; [reflexivity | ].
  rewrite (H a) by auto. simpl. rewrite IH by auto. reflexivity.
Qed.

Lemma filter_none {A : Type} (p : A -> bool) (l : list A) :
  (forall x, In x l -> p x = false) -> filter p l = [].
Proof.
  induction l as [ | a l IH]; simpl; intros H; [reflexivity | ].
  rewrite (H a) by auto. apply IH. auto.
Qed.

Lemma filter_all {A : Type} (p : A -> bool) (l : list A) :
  (forall x, In x l -> p x = true) -> filter p l = l.
Proof.
  induction l as [ | a l IH]; simpl; intros H; [reflexivity | ].
  rewrite (H a) by auto. f_equal. apply IH. auto.
Qed.

(** A family of per-class samples: [g l] holds rows of class [l] of the
    table, without repeated index labels. *)
Section PerClass.
Variable meta : DataFrame.
Variable g : Z -> DataFrame.
Hypothesis g_sub : forall l r, In r (g l) -> In r meta /\ row_lid r = l.
Hypothesis g_nodup : forall l, NoDup (map row_index (g l)).
Hypothesis meta_nodup : NoDup (map row_index meta).

Lemma where_lid_other (l a : Z) : a <> l -> where_lid (g a) l = [].
Proof.
  intros Hne. apply filter_none. intros r Hr.
  apply g_sub in Hr. destruct Hr as [_ Hr]. apply Z.eqb_neq. congruence.
Qed.

Lemma where_lid_same (l : Z) : where_lid (g l) l = g l.
Proof.
  apply filter_all. intros r Hr.
  apply g_sub in Hr. destruct Hr as [_ Hr]. apply Z.eqb_eq. assumption.
Qed.

Lemma where_lid_concat_absent (lids : list Z) (l : Z) :
  ~ In l lids -> where_lid (List.concat (map g lids)) l = [].
Proof.
  induction lids as [ | a lids IH]; simpl; intros Hnin; [reflexivity | ].
  unfold where_lid in *. rewrite filter_app.
  fold (where_lid (g a) l). rewrite where_lid_other by tauto.
  apply IH. tauto.
Qed.

Lemma where_lid_concat_present (lids : list Z) (l : Z) :
  NoDup lids -> In l lids -> where_lid (List.concat (map g lids)) l = g l.
Proof.
  induction lids as [ | a lids IH]; simpl; intros Hnd Hin; [contradiction | ].
  inversion Hnd as [ | ? ? Hnin Hnd']; subst.
  unfold where_lid. rewrite filter_app. fold (where_lid (g a) l).
  fold (where_lid (List.concat (map g lids)) l).
  destruct (Z.eq_dec a l) as [-> | Hne].
  - rewrite where_lid_same, where_lid_concat_absent by assumption. apply app_nil_r.
  - rewrite where_lid_other by assumption. simpl. apply IH; tauto.
Qed.

Lemma concat_index_NoDup (lids : list Z) :
  NoDup lids -> NoDup (map row_index (List.concat (map g lids))).
Proof.
  induction lids as [ | a lids IH]; simpl; intros Hnd; [constructor | ].
  inversion Hnd as [ | ? ? Hnin Hnd']; subst.
  rewrite map_app. apply NoDup_app; auto.
  intros i Hi1 Hi2.
  apply in_map_iff in Hi1. destruct Hi1 as [r1 [Hr1 Hin1]].
  apply in_map_iff in Hi2. destruct Hi2 as [r2 [Hr2 Hin2]].
  apply in_concat in Hin2. destruct Hin2 as [s [Hs Hin2]].
  apply in_map_iff in Hs. destruct Hs as [b [<- Hb]].
  apply g_sub in Hin1. apply g_sub in Hin2.
  assert (r1 = r2) by (apply (NoDup_map_eq row_index meta); try tauto; congruence).
  subst r2. assert (a = b) by (destruct Hin1, Hin2; congruence). subst b. contradiction.
Qed.

Lemma concat_In (lids : list Z) (r : Row) :
  In r (List.concat (map g lids)) -> In r meta.
Proof.
  intros Hin. apply in_concat in Hin. destruct Hin as [s [Hs Hin]].
  apply in_map_iff in Hs. destruct Hs as [b [<- Hb]].
  apply g_sub in Hin. tauto.
Qed.
End PerClass.

End PandasFacts.

Import Pandas PandasFacts FloatFacts.

(** ** The stratified sample *)

Lemma where_lid_length (df : DataFrame) (l : Z) :
  (List.length (where_lid df l) <= List.length df)%nat.
Proof.
  unfold where_lid. induction df as [ | r df IH]; simpl; [lia | ].
  destruct (row_lid r =? l); simpl; lia.
Qed.

Lemma concat_ok (frames : list DataFrame) :
  frames <> [] -> NoDup (map row_index (List.concat frames)) ->
  concat frames = Ok (List.concat frames).
Proof.
  intros Hne Hnd. unfold concat. destruct frames as [ | f fs]; [contradiction | ].
  apply has_duplicates_false in Hnd. rewrite Hnd. reflexivity.
Qed.

Lemma stratified_sample_meta_spec (meta : DataFrame) (keep : number) :
  VideoDataset.is_fraction keep = true ->
  valid_number keep = true ->
  meta <> [] ->
  NoDup (map row_index meta) ->
  Z.of_nat (List.length meta) < 2 ^ 53 ->
  exists meta',
    VideoDataset._stratified_sample_meta meta keep = Ok meta' /\
    (forall l, exists c,
        VideoDataset.cut_off (List.length (where_lid meta l)) keep = Ok c /\
        0 <= c <= Z.of_nat (List.length (where_lid meta l)) /\
        where_lid meta' l = firstn (Z.to_nat c) (where_lid meta l) /\
        List.length (where_lid meta' l) = Z.to_nat c) /\
    List.length meta' =
      list_sum (map (fun l => List.length (where_lid meta' l)) (unique (col_lid meta))) /\
    (forall r, In r meta' -> In r meta).
Proof.
  intros Hf Hv Hne Hnd Hsize.
  assert (Hcut : forall l, exists c,
             VideoDataset.cut_off (List.length (where_lid meta l)) keep = Ok c /\
             0 <= c <= Z.of_nat (List.length (where_lid meta l))).
  { intros l. apply cut_off_fraction; try assumption.
    pose proof (where_lid_length meta l). lia. }
  pose (c_of := fun l => match VideoDataset.cut_off (List.length (where_lid meta l)) keep with
                         | Ok c => c
                         | Raise _ => 0
                         end).
  pose (g := fun l => firstn (Z.to_nat (c_of l)) (where_lid meta l)).
  assert (Hc_of : forall l c,
             VideoDataset.cut_off (List.length (where_lid meta l)) keep = Ok c -> c_of l = c).
  { intros l c Hc. unfold c_of. rewrite Hc. reflexivity. }
  assert (g_sub : forall l r, In r (g l) -> In r meta /\ row_lid r = l).
  { intros l r Hr. apply firstn_In in Hr. split.
    - eapply where_lid_In; eassumption.
    - eapply where_lid_lid; eassumption. }
  assert (g_nodup : forall l, NoDup (map row_index (g l))).
  { intros l. unfold g. rewrite <- firstn_map. apply NoDup_firstn.
    apply where_lid_index_NoDup. assumption. }
  assert (Hsamples :
            mapM (fun lid =>
                    c <- VideoDataset.cut_off (List.length (where_lid meta lid)) keep ;;
                    Ok (iloc_to (where_lid meta lid) c))
                 (unique (col_lid meta)) = Ok (map g (unique (col_lid meta)))).
  { apply mapM_pure. intros l _.
    destruct (Hcut l) as [c [Hc Hrange]]. rewrite Hc. cbn [bind].
    unfold iloc_to. rewrite slice_to_firstn by lia.
    unfold g. rewrite (Hc_of l c Hc). reflexivity. }
  exists (List.concat (map g (unique (col_lid meta)))).
  split; [ | split; [ | split]].
  - unfold VideoDataset._stratified_sample_meta. rewrite Hsamples. cbn [bind].
    apply concat_ok.
    + destruct meta as [ | r0 meta0]; [contradiction | discriminate].
    + apply (concat_index_NoDup meta); try assumption. apply unique_NoDup.
  - intros l. destruct (Hcut l) as [c [Hc Hrange]]. exists c.
    split; [assumption | split; [assumption | ]].
    assert (Hw : where_lid (List.concat (map g (unique (col_lid meta)))) l
                 = firstn (Z.to_nat c) (where_lid meta l)).
    { destruct (in_dec Z.eq_dec l (unique (col_lid meta))) as [Hin | Hnin].
      - rewrite (where_lid_concat_present meta g g_sub) by (auto using unique_NoDup).
        unfold g. rewrite (Hc_of l c Hc). reflexivity.
      - rewrite (where_lid_concat_absent meta g g_sub) by assumption.
        assert (Hempty : where_lid meta l = []).
        { apply filter_none. intros r Hr. apply Z.eqb_neq. intros Heq. apply Hnin.
          apply unique_In. unfold col_lid. apply in_map_iff. exists r. tauto. }
        rewrite Hempty. rewrite firstn_nil. reflexivity. }
    split; [exact Hw | ].
    rewrite Hw. rewrite length_firstn. lia.
  - rewrite length_concat, map_map. f_equal. apply map_ext_in. intros l Hl.
    rewrite (where_lid_concat_present meta g g_sub) by (auto using unique_NoDup).
    reflexivity.
  - intros r. apply (concat_In meta g g_sub).
Qed.

(** ** Errors of the subsetting *)

Lemma mapM_raise {A B : Type} (P : exn -> Prop) (f : A -> result B) (l : list A) (e : exn) :
  (forall x e', f x = Raise e' -> P e') -> mapM f l = Raise e -> P e.
Proof.
  intros Hf. induction l as [ | a l IH]; simpl; [discriminate | ].
  destruct (f a) as [b | e'] eqn:Ha; simpl.
  - destruct (mapM f l) as [bs | e'']; simpl; [discriminate | ].
    intros H. apply IH. congruence.
  - intros H. injection H as <-. eapply Hf. eassumption.
Qed.

Lemma cut_off_raise (n : nat) (keep : number) (e : exn) :
  VideoDataset.cut_off n keep = Raise e -> VideoDataset.subset_error e.
Proof.
  unfold VideoDataset.cut_off, VideoDataset.subset_error. destruct keep as [k | f]; [discriminate | ].
  unfold PyFloat.of_int.
  destruct (binary_normalize PyFloat.prec PyFloat.emax (Z.of_nat n) 0 false) as [s | s | | s m ex];
    cbn [bind]; try (intros H; injection H as <-; tauto).
  all: destruct (PyFloat.mul _ f) as [s' | s' | | s' m' e']; simpl;
    intros H; try discriminate; injection H as <-; tauto.
Qed.

Lemma subset_raise (meta : DataFrame) (keep : option number) (e : exn) :
  VideoDataset.subset meta keep = Raise e -> VideoDataset.subset_error e.
Proof.
  unfold VideoDataset.subset. destruct keep as [k | ]; [ | discriminate].
  destruct (VideoDataset.is_fraction k).
  - unfold VideoDataset._stratified_sample_meta.
    destruct (mapM _ _) as [samples | e'] eqn:Hm; cbn [bind].
    + unfold concat. destruct samples; [intros H; injection H as <-; left; reflexivity | ].
      destruct (has_duplicates _); [intros H; injection H as <-; left; reflexivity | discriminate].
    + intros H. injection H as <-. revert Hm. apply mapM_raise.
      intros l e''. destruct (VideoDataset.cut_off _ k) as [c | e3] eqn:Hc; cbn [bind]; [discriminate | ].
      intros H. injection H as <-. eapply cut_off_raise. eassumption.
  - destruct k; simpl; [discriminate | ]. intros H. injection H as <-. right. left. reflexivity.
Qed.

(** ** Facts on collation *)

Module CollateFacts.
Import Collate Torch.
Section WithRelease.
Context {release : Release}.

Lemma heads_cons {A B : Type} (h : B -> A) (t : B -> list A) (l : list B) :
  heads (map (fun s => h s :: t s) l) = Some (map h l).
Proof.
  induction l as [ | b l IH]; simpl; [reflexivity | ].
  rewrite IH. reflexivity.
Qed.

Lemma heads_singletons {A B : Type} (h : B -> A) (l : list B) :
  heads (map (fun s => [h s]) l) = Some (map h l).
Proof. exact (heads_cons h (fun _ => []) l). Qed.

(** Unzipping a non-empty batch gives its column of videos and its
    column of labels. *)
Lemma zip_star_batch (batch : list sample) :
  batch <> [] ->
  zip_star (map as_tuple batch)
  = [map (fun s => ItemVideo (fst s)) batch; map (fun s => ItemLabel (snd s)) batch].
Proof.
  intros Hne. destruct batch as [ | s0 batch]; [contradiction | ].
  unfold zip_star. cbn [map as_tuple List.length].
  change (as_tuple s0 :: map as_tuple batch) with (map as_tuple (s0 :: batch)).
  unfold as_tuple. cbn [zip_upto].
  rewrite (heads_cons (fun s => ItemVideo (fst s)) (fun s => [ItemLabel (snd s)])).
  rewrite map_map. cbn [tl].
  rewrite (heads_singletons (fun s : sample => ItemLabel (snd s))).
  reflexivity.
Qed.

Lemma mapM_Ok {A B : Type} (f : A -> result B) (l : list A) (ys : list B) :
  mapM f l = Ok ys -> Forall2 (fun x y => f x = Ok y) l ys.
Proof.
  revert ys. induction l as [ | a l IH]; simpl; intros ys H.
  - injection H as <-. constructor.
  - destruct (f a) as [b | e] eqn:Ha; [ | discriminate]. cbn [bind] in H.
    destruct (mapM f l) as [bs | e]; [ | discriminate]. cbn [bind] in H.
    injection H as <-. constructor; auto.
Qed.

Lemma mapM_Forall2 {A B : Type} (f : A -> result B) (l : list A) (ys : list B) :
  Forall2 (fun x y => f x = Ok y) l ys -> mapM f l = Ok ys.
Proof.
  induction 1 as [ | a y l ys Ha _ IH]; simpl; [reflexivity | ].
  rewrite Ha, IH. reflexivity.
Qed.

Lemma mapM_raises_only {A B : Type} (f : A -> result B) (l : list A) (e0 : exn) :
  (forall x e, f x = Raise e -> e = e0) ->
  (exists ys, mapM f l = Ok ys) \/ mapM f l = Raise e0.
Proof.
  intros Hf. induction l as [ | a l IH]; simpl.
  - left. eexists. reflexivity.
  - destruct (f a) as [b | e] eqn:Ha; cbn [bind].
    + destruct IH as [[ys ->] | ->]; cbn [bind]; [left; eexists; reflexivity | right; reflexivity].
    + right. f_equal. eapply Hf. eassumption.
Qed.

Lemma shape_eqb_eq (s1 s2 : list nat) : shape_eqb s1 s2 = true <-> s1 = s2.
Proof. unfold shape_eqb. destruct (list_eq_dec Nat.eq_dec s1 s2); split; congruence. Qed.

Lemma stack_raises (ts : list Tensor) (e : exn) : stack ts = Raise e -> e = RuntimeError.
Proof.
  unfold stack. destruct ts as [ | t0 rest]; [congruence | ].
  destruct (forallb _ rest); congruence.
Qed.

Lemma stack_ok (ts : list Tensor) (shp : list nat) :
  ts <> [] -> (forall t, In t ts -> t_shape t = shp) ->
  exists r, stack ts = Ok r /\ t_shape r = List.length ts :: shp.
Proof.
  intros Hne Hall. destruct ts as [ | t0 rest]; [contradiction | ].
  unfold stack.
  assert (Hf : forallb (fun t => shape_eqb (t_shape t) (t_shape t0)) rest = true).
  { apply forallb_forall. intros t Ht. apply shape_eqb_eq.
    rewrite (Hall t), (Hall t0); simpl; auto. }
  rewrite Hf. eexists. split; [reflexivity | ]. simpl. rewrite (Hall t0) by (simpl; auto).
  reflexivity.
Qed.

Lemma stack_Ok_inv (ts : list Tensor) (r : Tensor) :
  stack ts = Ok r ->
  exists shp, (forall t, In t ts -> t_shape t = shp) /\ t_shape r = List.length ts :: shp.
Proof.
  unfold stack. destruct ts as [ | t0 rest]; [discriminate | ].
  destruct (forallb _ rest) eqn:Hf; [ | discriminate].
  intros H. injection H as <-. exists (t_shape t0). split; [ | reflexivity].
  intros t [<- | Ht]; [reflexivity | ].
  rewrite forallb_forall in Hf. apply shape_eqb_eq. auto.
Qed.

Lemma tensor_int64_ok (l : list Z) :
  (forall z, In z l -> fits_int64 z = true) ->
  tensor_int64 l = Ok {| t_dtype := int64; t_shape := [List.length l]; t_elems := map I64 l |}.
Proof.
  intros H. unfold tensor_int64.
  assert (Hf : forallb fits_int64 l = true) by (apply forallb_forall; assumption).
  rewrite Hf. reflexivity.
Qed.

(** [collate] on a non-empty batch, with the unpacking done. *)
Lemma collate_unzipped (batch : list sample) :
  batch <> [] ->
  collate batch =
    (per_video <- mapM (fun s => stack (Video.data (fst s))) batch ;;
     videos_data <- stack per_video ;;
     labels_data <- tensor_int64 (map (fun s => Label.data (snd s)) batch) ;;
     Ok (videos_data, labels_data,
         map (fun s => ItemVideo (fst s)) batch, map (fun s => ItemLabel (snd s)) batch)).
Proof.
  intros Hne. unfold collate. rewrite zip_star_batch by assumption. cbn [unpack2 bind].
  assert (Hv : forall l : list sample,
             mapM (fun video => d <- video_data video ;; stack d)
                  (map (fun s => ItemVideo (fst s)) l)
             = mapM (fun s => stack (Video.data (fst s))) l).
  { induction l as [ | s l IH]; simpl; [reflexivity | ]. rewrite IH. reflexivity. }
  assert (Hl : forall l : list sample,
             mapM label_data (map (fun s => ItemLabel (snd s)) l)
             = Ok (map (fun s => Label.data (snd s)) l)).
  { induction l as [ | s l IH]; simpl; [reflexivity | ]. rewrite IH. reflexivity. }
  rewrite Hv, Hl.
  destruct (mapM (fun s => stack (Video.data (fst s))) batch) as [pv | e];
    cbn [bind]; [ | reflexivity].
  destruct (stack pv) as [vd | e]; cbn [bind]; reflexivity.
Qed.

Lemma mapM_exists {A B : Type} (P : B -> Prop) (f : A -> result B) (l : list A) :
  (forall x, In x l -> exists y, f x = Ok y /\ P y) ->
  exists ys, mapM f l = Ok ys /\ Forall P ys /\ List.length ys = List.length l.
Proof.
  induction l as [ | a l IH]; simpl; intros H.
  - exists []. repeat split. constructor.
  - destruct (H a) as [y [Hy HP]]; [auto | ].
    destruct IH as [ys [Hys [HF Hlen]]]; [auto | ].
    exists (y :: ys). rewrite Hy, Hys. repeat split; [constructor; assumption | simpl; lia].
Qed.

Lemma Forall2_In_left {A B : Type} (R : A -> B -> Prop) (l : list A) (ys : list B) (x : A) :
  Forall2 R l ys -> In x l -> exists y, In y ys /\ R x y.
Proof.
  induction 1 as [ | a y l ys Ha _ IH]; simpl; [contradiction | ].
  intros [<- | Hin].
  - exists y. auto.
  - destruct (IH Hin) as [y' [Hy' HR]]. exists y'. auto.
Qed.

Lemma map_constant {A B : Type} (f : A -> B) (c : B) (l : list A) :
  (forall x, In x l -> f x = c) -> map f l = repeat c (List.length l).
Proof.
  induction l as [ | a l IH]; simpl; intros H; [reflexivity | ].
  rewrite (H a), IH by auto. reflexivity.
Qed.

(** The elements of a stack are those of its tensors, in order, and its
    dtype is that of the first. *)
Lemma stack_Ok_elems (ts : list Tensor) (r : Tensor) :
  stack ts = Ok r -> ts <> [] /\ t_elems r = List.concat (map t_elems ts).
Proof.
  unfold stack. destruct ts as [ | t0 rest]; [discriminate | ].
  destruct (forallb _ rest); [ | discriminate].
  intros H. injection H as <-. split; [discriminate | reflexivity].
Qed.

Lemma stack_Ok_dtype (ts : list Tensor) (r : Tensor) :
  stack ts = Ok r -> exists t0, hd_error ts = Some t0 /\ t_dtype r = t_dtype t0.
Proof.
  unfold stack. destruct ts as [ | t0 rest]; [discriminate | ].
  destruct (forallb _ rest); [ | discriminate].
  intros H. injection H as <-. exists t0. split; reflexivity.
Qed.

Lemma per_video_elems (batch : list sample) (per_video : list Tensor) :
  Forall2 (fun s y => stack (Video.data (fst s)) = Ok y) batch per_video ->
  List.concat (map t_elems per_video)
  = flat_map (fun s => flat_map t_elems (Video.data (fst s))) batch.
Proof.
  induction 1 as [ | s y batch per_video Hsy _ IH]; [reflexivity | ].
  simpl. rewrite IH. f_equal.
  apply stack_Ok_elems in Hsy. destruct Hsy as [_ ->].
  symmetry. apply flat_map_concat_map.
Qed.

(** A class id that stops [torch.tensor]. *)
Lemma some_id_overflows (ids : list Z) :
  forallb fits_int64 ids = false -> exists z, In z ids /\ fits_int64 z = false.
Proof.
  induction ids as [ | z ids IH]; [discriminate | ].
  cbn [forallb]. destruct (fits_int64 z) eqn:Hz; cbn [andb].
  - intros H. destruct (IH H) as [z' [Hin Hz']]. exists z'. split; [right | ]; assumption.
  - intros _. exists z. split; [left; reflexivity | assumption].
Qed.

(** The videos of a batch whose clips all have [T > 0] frames of one
    shape stack, frame after frame and video after video. *)
Lemma uniform_batch_stacks (batch : list sample) (T : nat) (shp : list nat) :
  batch <> [] ->
  (0 < T)%nat ->
  (forall s, In s batch ->
     List.length (Video.data (fst s)) = T /\
     forall t, In t (Video.data (fst s)) -> t_shape t = shp) ->
  exists per_video videos_data,
    mapM (fun s : Video.t Tensor * Label.t => stack (Video.data (fst s))) batch = Ok per_video /\
    stack per_video = Ok videos_data /\
    t_shape videos_data = List.length batch :: T :: shp /\
    t_elems videos_data = flat_map (fun s => flat_map t_elems (Video.data (fst s))) batch /\
    forall d, (forall s t, In s batch -> In t (Video.data (fst s)) -> t_dtype t = d) ->
              t_dtype videos_data = d.
Proof.
  intros Hne HT Hframes.
  destruct (mapM_exists (fun r => t_shape r = T :: shp)
                        (fun s : Video.t Tensor * Label.t => stack (Video.data (fst s))) batch)
    as [pv [Hpv [Hshapes Hlen]]].
  { intros s Hs. destruct (Hframes s Hs) as [HlenT Hshape].
    destruct (stack_ok (Video.data (fst s)) shp) as [r [Hr Hsh]].
    - intros Hnil. rewrite Hnil in HlenT. simpl in HlenT. lia.
    - assumption.
    - exists r. split; [assumption | ]. rewrite Hsh, HlenT. reflexivity. }
  destruct (stack_ok pv (T :: shp)) as [vd [Hvd Hsh]].
  { intros Hnil. rewrite Hnil in Hlen. destruct batch; [contradiction | discriminate]. }
  { rewrite Forall_forall in Hshapes. assumption. }
  exists pv, vd. split; [assumption | ]. split; [assumption | ].
  split; [rewrite Hsh, Hlen; reflexivity | ].
  pose proof (mapM_Ok _ _ _ Hpv) as Hall.
  split.
  - destruct (stack_Ok_elems _ _ Hvd) as [_ ->]. apply per_video_elems. assumption.
  - intros d Hd. destruct (stack_Ok_dtype _ _ Hvd) as [y0 [Hy0 ->]].
    destruct Hall as [ | s0 y batch0 pv0 Hs0 _]; [discriminate | ].
    injection Hy0 as ->.
    destruct (stack_Ok_dtype _ _ Hs0) as [t0 [Ht0 ->]].
    apply (Hd s0 t0); [left; reflexivity | ].
    destruct (Video.data (fst s0)); [discriminate | ].
    injection Ht0 as ->. left. reflexivity.
Qed.

(** What a batch whose videos stacked looks like. *)
Lemma stacked_batch_uniform (batch : list sample) (per_video : list Tensor)
      (videos_data : Tensor) :
  batch <> [] ->
  mapM (fun s : Video.t Tensor * Label.t => stack (Video.data (fst s))) batch = Ok per_video ->
  stack per_video = Ok videos_data ->
  exists (T : nat) (shp : list nat),
    (0 < T)%nat /\
    forall s, In s batch ->
      List.length (Video.data (fst s)) = T /\
      forall t, In t (Video.data (fst s)) -> t_shape t = shp.
Proof.
  intros Hne Hm Hs. apply mapM_Ok in Hm.
  destruct (stack_Ok_inv _ _ Hs) as [shp' [Hshp' _]].
  destruct batch as [ | s0 batch0]; [contradiction | ].
  inversion Hm as [ | ? y0 ? per0 Hs0 Hm0]; subst.
  destruct (stack_Ok_inv _ _ Hs0) as [shp [Hshp Hy0]].
  destruct (stack_Ok_elems _ _ Hs0) as [Hne0 _].
  exists (List.length (Video.data (fst s0))), shp.
  assert (Hshape : shp' = List.length (Video.data (fst s0)) :: shp).
  { rewrite <- Hy0. symmetry. apply Hshp'. left. reflexivity. }
  split; [destruct (Video.data (fst s0)); [contradiction | simpl; lia] | ].
  intros s Hin.
  destruct (Forall2_In_left _ _ _ s Hm Hin) as [y [Hy Hsy]].
  destruct (stack_Ok_inv _ _ Hsy) as [shp1 [Hshp1 Hy1]].
  rewrite (Hshp' y Hy), Hshape in Hy1. injection Hy1 as Hl1 Hs1.
  split; [congruence | ]. intros t Ht. rewrite Hs1. apply Hshp1. assumption.
Qed.

(** A batch of videos of [T] frames of one shape collates. *)
Lemma collate_uniform (batch : list sample) (T : nat) (shp : list nat) :
  batch <> [] ->
  (0 < T)%nat ->
  (forall s, In s batch ->
     List.length (Video.data (fst s)) = T /\
     forall t, In t (Video.data (fst s)) -> t_shape t = shp) ->
  (forall s, In s batch -> fits_int64 (Label.data (snd s)) = true) ->
  exists videos_data labels_data,
    collate batch = Ok (videos_data, labels_data,
                        map (fun s => ItemVideo (fst s)) batch,
                        map (fun s => ItemLabel (snd s)) batch) /\
    t_shape videos_data = List.length batch :: T :: shp /\
    t_elems videos_data = flat_map (fun s => flat_map t_elems (Video.data (fst s))) batch /\
    (forall d, (forall s t, In s batch -> In t (Video.data (fst s)) -> t_dtype t = d) ->
               t_dtype videos_data = d) /\
    labels_data = {| t_dtype := int64; t_shape := [List.length batch];
                     t_elems := map (fun s => I64 (Label.data (snd s))) batch |}.
Proof.
  intros Hne HT Hframes Hlabels. rewrite collate_unzipped by assumption.
  destruct (uniform_batch_stacks batch T shp Hne HT Hframes)
    as [pv [vd [Hpv [Hvd [Hshape [Helems Hdtype]]]]]].
  rewrite Hpv. cbn [bind]. rewrite Hvd. cbn [bind]. rewrite tensor_int64_ok.
  - cbn [bind]. exists vd. eexists. split; [reflexivity | ].
    split; [assumption | ]. split; [assumption | ]. split; [assumption | ].
    rewrite length_map, map_map. reflexivity.
  - intros z Hz. apply in_map_iff in Hz. destruct Hz as [s [<- Hs]]. auto.
Qed.

End WithRelease.
End CollateFacts.

(** ** Facts on augmentation *)

Module AugmentFacts.
Section WithCollaborators.
Context {ext : Collaborators}.
Import ImgAug Augment.

Lemma children_to_deterministic_spec (cs : list (Augmenter RandomState)) (g : RandomState) :
  map aug_op (fst (children_to_deterministic cs g)) = map aug_op cs /\
  forallb frozen (fst (children_to_deterministic cs g)) = true.
Proof.
  revert g. induction cs as [ | a cs IH]; intros g; simpl; [split; reflexivity | ].
  destruct (new_random_state g) as [rs g1].
  specialize (IH g1). destruct (children_to_deterministic cs g1) as [cs' g2].
  simpl in *. destruct IH as [IH1 IH2]. rewrite IH1, IH2. split; reflexivity.
Qed.

Lemma frozen_params (a : Augmenter RandomState) (g g' : RandomState) :
  frozen a = true -> params_of a g = params_of a g'.
Proof.
  unfold frozen, params_of. destruct (aug_random_state a); [reflexivity | ].
  rewrite andb_false_r. discriminate.
Qed.

(** Deterministic children sample the same parameters whatever the
    global state is, and leave it and themselves unchanged. *)
Lemma augment_children_frozen (cs : list (Augmenter RandomState)) (img : ndarray)
      (g : RandomState) :
  forallb frozen cs = true ->
  augment_children cs img g
  = (apply_all (map aug_op cs) (map (fun a => params_of a g) cs) img,
     map (fun a => params_of a g) cs, cs, g).
Proof.
  revert img. induction cs as [ | a cs IH]; intros img Hf; simpl; [reflexivity | ].
  simpl in Hf. apply andb_true_iff in Hf. destruct Hf as [Ha Hcs].
  unfold frozen in Ha. apply andb_true_iff in Ha. destruct Ha as [Hdet Hrs].
  destruct (aug_random_state a) as [rs | ] eqn:Hstate; [ | discriminate].
  assert (Hp : params_of a g = draw_params (aug_op a) rs)
    by (unfold params_of; rewrite Hstate; reflexivity).
  rewrite Hp. unfold augment_image1. rewrite Hstate, Hdet, IH by assumption.
  reflexivity.
Qed.

Lemma to_deterministic_frozen (s : Sequential RandomState) (g : RandomState) :
  frozen_seq (fst (to_deterministic s g)) /\
  map aug_op (seq_children (fst (to_deterministic s g))) = map aug_op (seq_children s).
Proof.
  unfold to_deterministic.
  pose proof (children_to_deterministic_spec (seq_children s) g) as [Hops Hfr].
  destruct (children_to_deterministic (seq_children s) g) as [cs g1].
  destruct (new_random_state g1) as [rs g2]. simpl in *.
  split; [ | assumption]. split; [assumption | split; [reflexivity | eexists; reflexivity]].
Qed.

Lemma augment_image_frozen (s : Sequential RandomState) (img : ndarray) (g : RandomState) :
  frozen_seq s ->
  augment_image s img g
  = (apply_all (map aug_op (seq_children s))
               (map (fun a => params_of a g) (seq_children s)) img,
     map (fun a => params_of a g) (seq_children s), s, g).
Proof.
  intros [Hcs [Hdet [rs Hrs]]]. unfold augment_image.
  rewrite augment_children_frozen by assumption.
  rewrite Hrs, Hdet. destruct s; simpl in *. subst. reflexivity.
Qed.

Lemma augment_frames_frozen (s : Sequential RandomState) (frames : list ndarray)
      (g : RandomState) :
  frozen_seq s ->
  let ps := map (fun a => params_of a g) (seq_children s) in
  VideoDataset.augment_frames s frames g
  = (map (fun f => Torch.to_tensor (apply_all (map aug_op (seq_children s)) ps f)) frames,
     repeat ps (List.length frames), g).
Proof.
  intros Hs ps. induction frames as [ | f frames IH]; simpl; [reflexivity | ].
  rewrite augment_image_frozen by assumption. rewrite IH. reflexivity.
Qed.

(** [aug] applies one list of sampled parameters to every frame. *)
Lemma aug_replays (self : VideoDataset.t) (video_data : list ndarray) (g : RandomState) :
  exists ps,
    fst (VideoDataset.aug self video_data g)
    = (map (fun f => Torch.to_tensor (apply_all (VideoDataset.ops self) ps f)) video_data,
       repeat ps (List.length video_data)).
Proof.
  unfold VideoDataset.aug.
  pose proof (to_deterministic_frozen (VideoDataset.aug_seq self) g) as [Hfr Hops].
  destruct (to_deterministic (VideoDataset.aug_seq self) g) as [det g1]. simpl in *.
  rewrite augment_frames_frozen by assumption. simpl.
  eexists. unfold VideoDataset.ops. rewrite <- Hops. reflexivity.
Qed.

(** [apply_all] on as many parameters as operations: every operation
    is applied, each with its own parameter, the first one first. *)
Lemma apply_all_in_turn (ops : list AugOp) : forall (ps : list Params) (img : ndarray),
  apply_all ops ps img
  = fold_left (fun im op_p => apply_params (fst op_p) (snd op_p) im) (combine ops ps) img.
Proof.
  induction ops as [ | op ops IH]; intros ps img; [reflexivity | ].
  destruct ps as [ | p ps]; [reflexivity | ]. cbn [apply_all combine fold_left fst snd].
  apply IH.
Qed.

(** A deterministic child with a random state of its own uses a
    parameter drawn for its operation from that state. *)
Lemma frozen_children_draw (cs : list (Augmenter RandomState)) (g : RandomState) :
  forallb frozen cs = true ->
  Forall2 (fun op p => exists rs : RandomState, p = draw_params op rs)
          (map aug_op cs) (map (fun a => params_of a g) cs).
Proof.
  induction cs as [ | a cs IH]; intros Hf; cbn [map]; [constructor | ].
  cbn [forallb] in Hf. apply andb_true_iff in Hf. destruct Hf as [Ha Hcs].
  constructor; [ | apply IH; assumption].
  unfold frozen in Ha. apply andb_true_iff in Ha. destruct Ha as [_ Hrs].
  unfold params_of. destruct (aug_random_state a) as [rs | ]; [ | discriminate].
  exists rs. reflexivity.
Qed.

(** The parameters that [aug] replays: one for each augmenter of the
    dataset, drawn for its operation. *)
Lemma aug_parameters_drawn (self : VideoDataset.t) (g : RandomState) :
  let det := fst (to_deterministic (VideoDataset.aug_seq self) g) in
  let g1 := snd (to_deterministic (VideoDataset.aug_seq self) g) in
  Forall2 (fun op p => exists rs : RandomState, p = draw_params op rs)
          (VideoDataset.ops self) (map (fun a => params_of a g1) (seq_children det)).
Proof.
  intros det g1.
  pose proof (to_deterministic_frozen (VideoDataset.aug_seq self) g) as [[Hfr _] Hops].
  fold det in Hfr, Hops. unfold VideoDataset.ops. rewrite <- Hops.
  apply frozen_children_draw. assumption.
Qed.

End WithCollaborators.
End AugmentFacts.

(** ** Facts on tensors *)

Module TensorFacts.
Import Torch.

Lemma normalize_in_unit_interval (b : byte) : in_unit_interval (F32 (normalize b)) = true.
Proof. destruct b; vm_compute; reflexivity. Qed.

Lemma to_tensor_spec (pic : ndarray) :
  t_dtype (to_tensor pic) = float32 /\
  t_shape (to_tensor pic) = [nd_c pic; nd_h pic; nd_w pic] /\
  forallb in_unit_interval (t_elems (to_tensor pic)) = true.
Proof.
  split; [reflexivity | split; [reflexivity | ]].
  apply forallb_forall. intros x Hx. unfold to_tensor in Hx. cbn [t_elems] in Hx.
  apply in_flat_map in Hx. destruct Hx as [c [_ Hx]].
  apply in_flat_map in Hx. destruct Hx as [h [_ Hx]].
  apply in_map_iff in Hx. destruct Hx as [w [<- _]].
  apply normalize_in_unit_interval.
Qed.

Lemma nth_error_flat_map_seq {A : Type} (F : nat -> list A) (n : nat) :
  (forall i, List.length (F i) = n) ->
  forall m s i j, (i < m)%nat -> (j < n)%nat ->
    nth_error (flat_map F (seq s m)) (i * n + j) = nth_error (F (s + i)%nat) j.
Proof.
  intros Hlen. induction m as [ | m IH]; intros s i j Hi Hj; [lia | ].
  cbn [seq flat_map]. destruct i as [ | i].
  - rewrite nth_error_app1 by (rewrite Hlen; lia). rewrite Nat.add_0_r. reflexivity.
  - rewrite nth_error_app2 by (rewrite Hlen; lia). rewrite Hlen.
    replace (S i * n + j - n)%nat with (i * n + j)%nat by lia.
    rewrite IH by lia. f_equal. f_equal. lia.
Qed.

Lemma length_flat_map_seq {A : Type} (F : nat -> list A) (n : nat) :
  (forall i, List.length (F i) = n) ->
  forall m s, List.length (flat_map F (seq s m)) = (m * n)%nat.
Proof.
  intros Hlen. induction m as [ | m IH]; intros s; [reflexivity | ].
  cbn [seq flat_map]. rewrite length_app, Hlen, IH. lia.
Qed.

(** The element at channel [c], row [h], column [w] of the tensor is the
    normalized element at row [h], column [w], channel [c] of the array. *)
Lemma to_tensor_channel_first (pic : ndarray) (c h w : nat) :
  (c < nd_c pic)%nat -> (h < nd_h pic)%nat -> (w < nd_w pic)%nat ->
  nth_error (t_elems (to_tensor pic)) ((c * nd_h pic + h) * nd_w pic + w)
  = Some (F32 (normalize (nth ((h * nd_w pic + w) * nd_c pic + c) (nd_data pic) x00))).
Proof.
  intros Hc Hh Hw. unfold to_tensor. cbn [t_elems].
  set (G := fun c h => map (fun w => F32 (normalize (nth ((h * nd_w pic + w) * nd_c pic + c)
                                                          (nd_data pic) x00)))
                           (seq 0 (nd_w pic))).
  assert (HG : forall c h, List.length (G c h) = nd_w pic)
    by (intros; unfold G; rewrite length_map, length_seq; reflexivity).
  change (nth_error (flat_map (fun c => flat_map (G c) (seq 0 (nd_h pic))) (seq 0 (nd_c pic)))
                    ((c * nd_h pic + h) * nd_w pic + w)
          = Some (F32 (normalize (nth ((h * nd_w pic + w) * nd_c pic + c) (nd_data pic) x00)))).
  replace ((c * nd_h pic + h) * nd_w pic + w)%nat
    with (c * (nd_h pic * nd_w pic) + (h * nd_w pic + w))%nat by lia.
  rewrite (nth_error_flat_map_seq _ (nd_h pic * nd_w pic)); try assumption.
  - rewrite (nth_error_flat_map_seq _ (nd_w pic)) by auto.
    unfold G. rewrite nth_error_map, nth_error_seq.
    destruct (Nat.ltb_spec w (nd_w pic)); [reflexivity | lia].
  - intros i. apply length_flat_map_seq. auto.
  - nia.
Qed.

End TensorFacts.

(** ** Facts on the lookups *)

Lemma head_from_has_class (n : nat) (df : DataFrame) : forall (seen : list Z) (l : Z),
  (count_occ Z.eq_dec seen l < n)%nat ->
  In l (col_lid df) ->
  exists r, In r df /\ row_lid r = l /\ In r (groupby_lid_head_from seen n df).
Proof.
  induction df as [ | r df IH]; intros seen l Hcount Hin; simpl in *; [contradiction | ].
  destruct (Z.eq_dec (row_lid r) l) as [Heq | Hne].
  - exists r. split; [auto | split; [assumption | ]].
    rewrite Heq. apply Nat.ltb_lt in Hcount. rewrite Hcount. simpl. auto.
  - destruct Hin as [Heq | Hin]; [contradiction | ].
    destruct (IH (row_lid r :: seen) l) as [r' [Hr' [Hl' Hin']]].
    + simpl. destruct (Z.eq_dec (row_lid r) l); [contradiction | assumption].
    + assumption.
    + exists r'. split; [auto | split; [assumption | ]].
      destruct (count_occ Z.eq_dec seen (row_lid r) <? n)%nat; simpl; auto.
Qed.

Lemma head_from_In (n : nat) (df : DataFrame) : forall (seen : list Z) (r : Row),
  In r (groupby_lid_head_from seen n df) -> In r df.
Proof.
  induction df as [ | a df IH]; intros seen r; simpl; [tauto | ].
  destruct (count_occ Z.eq_dec seen (row_lid a) <? n)%nat; simpl.
  - intros [H | H]; [auto | right; eapply IH; eassumption].
  - intros H. right. eapply IH. eassumption.
Qed.

(** Every entry of [lid2labels] is keyed by the index label of a row of
    the table, and holds the label string of that row. *)
Lemma lid2labels_keys_are_index_labels (n : nat) (df : DataFrame) (k : Z) (v : string) :
  In (k, v) (groupby_lid_label_head n df) ->
  exists r, In r df /\ k = row_index r /\ v = row_label r.
Proof.
  unfold groupby_lid_label_head, groupby_lid_head. intros Hin.
  apply in_map_iff in Hin. destruct Hin as [r [Heq Hr]].
  injection Heq as <- <-. exists r. split; [ | split; reflexivity].
  eapply head_from_In. eassumption.
Qed.

(** The lookups have an entry for every class of the table: the index
    label and the label string of a row of that class. *)
Lemma lookups_cover_classes (df : DataFrame) (l : Z) :
  In l (col_lid df) ->
  exists r, In r df /\ row_lid r = l /\
            In (row_index r, row_label r) (groupby_lid_label_head 1 df) /\
            In (row_label r, row_index r)
               (lf_rows (reset_index_set_index_label (groupby_lid_label_head 1 df))).
Proof.
  intros Hin.
  destruct (head_from_has_class 1 df [] l) as [r [Hr [Hl Hhead]]]; [simpl; lia | assumption | ].
  exists r. split; [assumption | split; [assumption | ]].
  assert (H1 : In (row_index r, row_label r) (groupby_lid_label_head 1 df)).
  { unfold groupby_lid_label_head. apply in_map_iff. exists r. auto. }
  split; [assumption | ].
  unfold reset_index_set_index_label. cbn [lf_rows]. apply in_map_iff.
  exists (row_index r, row_label r). auto.
Qed.

(* ===================================================================== *)
(** * The dataset's subsetting *)
(* ===================================================================== *)

(** C1, as stated, fails on the empty table: there is no class, so
    [pd.concat] receives an empty list of samples and raises
    [ValueError]. *)
Lemma subset_empty_table_raises :
  VideoDataset.is_fraction (PyFloatV PyFloat.half) = true /\
  VideoDataset.subset [] (Some (PyFloatV PyFloat.half)) = Raise ValueError.
Proof. split; reflexivity. Qed.

(** The guard [verify_integrity=True]: when the heads of two classes share
    an index label, the subsetting raises [ValueError] too. *)
Example subset_shared_index_label_raises :
  VideoDataset.subset
    [ mkRow 0 (Demo.clip 100 "push" 7); mkRow 1 (Demo.clip 101 "push" 7);
      mkRow 0 (Demo.clip 102 "pull" 9); mkRow 1 (Demo.clip 103 "pull" 9) ]
    (Some (PyFloatV PyFloat.half)) = Raise ValueError.
Proof. reflexivity. Qed.

(** C1, amended.  On a non-empty table with distinct index labels (and
    fewer than [2 ^ 53] rows), a [keep] that passes the test
    [0 <= keep < 1] keeps, for each class id [l], exactly the first
    [round(class_size * keep)] rows of that class in table order: the rows
    of class [l] in the result are that head and nothing else, their
    number is the rounded product, the result has as many rows as the
    classes' heads together, and all are rows of the table.  On every
    table, an integer [keep >= 1] fails that test and keeps the first
    [keep] rows of the whole table. *)
Theorem subset_keeps_class_heads (meta : DataFrame) :
  (forall keep : number,
      VideoDataset.is_fraction keep = true ->
      valid_number keep = true ->
      meta <> [] ->
      NoDup (map row_index meta) ->
      Z.of_nat (List.length meta) < 2 ^ 53 ->
      exists meta',
        VideoDataset.subset meta (Some keep) = Ok meta' /\
        (forall l, exists c,
            VideoDataset.cut_off (List.length (where_lid meta l)) keep = Ok c /\
            0 <= c <= Z.of_nat (List.length (where_lid meta l)) /\
            where_lid meta' l = firstn (Z.to_nat c) (where_lid meta l) /\
            List.length (where_lid meta' l) = Z.to_nat c) /\
        List.length meta' =
          list_sum (map (fun l => List.length (where_lid meta' l)) (unique (col_lid meta))) /\
        (forall r, In r meta' -> In r meta)) /\
  (forall k : Z,
      1 <= k ->
      VideoDataset.is_fraction (PyInt k) = false /\
      VideoDataset.subset meta (Some (PyInt k)) = Ok (firstn (Z.to_nat k) meta)).
Proof.
  split.
  - intros keep Hf Hv Hne Hnd Hsize. unfold VideoDataset.subset. rewrite Hf.
    apply stratified_sample_meta_spec; assumption.
  - intros k Hk.
    assert (Hf : VideoDataset.is_fraction (PyInt k) = false).
    { simpl. apply andb_false_iff. right. apply Z.ltb_ge. lia. }
    split; [assumption | ].
    unfold VideoDataset.subset. rewrite Hf. simpl. unfold iloc_to.
    rewrite slice_to_firstn by lia. reflexivity.
Qed.

(** C1 on the table of four clips with [keep = 0.5]. *)
Lemma subset_keeps_class_heads_witness :
  exists meta',
    VideoDataset.subset Demo.table (Some (PyFloatV PyFloat.half)) = Ok meta' /\
    (forall l, exists c,
        VideoDataset.cut_off (List.length (where_lid Demo.table l)) (PyFloatV PyFloat.half) = Ok c /\
        0 <= c <= Z.of_nat (List.length (where_lid Demo.table l)) /\
        where_lid meta' l = firstn (Z.to_nat c) (where_lid Demo.table l) /\
        List.length (where_lid meta' l) = Z.to_nat c) /\
    List.length meta' =
      list_sum (map (fun l => List.length (where_lid meta' l)) (unique (col_lid Demo.table))) /\
    (forall r, In r meta' -> In r Demo.table).
Proof.
  apply (proj1 (subset_keeps_class_heads Demo.table)).
  - reflexivity.
  - reflexivity.
  - discriminate.
  - apply has_duplicates_false. reflexivity.
  - reflexivity.
Defined.

Example subset_half_of_table :
  option_map (map row_index)
             (match VideoDataset.subset Demo.table (Some (PyFloatV PyFloat.half)) with
              | Ok m => Some m
              | Raise _ => None
              end) = Some [0; 1].
Proof. reflexivity. Qed.

(** The cut-off is the rounding of the float product: [5 * 0.1] is the
    float [0.5], which rounds to the even 0 (the exact product of 5 and the
    value of the float [0.1] is above one half), and [15 * 0.1], [25 * 0.1],
    [35 * 0.1] round to 2, 2 and 4. *)
Example cut_off_tenths :
  PyFloat.valid Demo.tenth = true /\
  map (fun n => VideoDataset.cut_off n (PyFloatV Demo.tenth)) [5; 15; 25; 35; 1005]%nat
  = [Ok 0; Ok 2; Ok 2; Ok 4; Ok 100].
Proof. split; reflexivity. Qed.

Example subset_first_three :
  VideoDataset.subset Demo.table (Some (PyInt 3)) = Ok (firstn 3 Demo.table).
Proof. reflexivity. Qed.

Example subset_float_bound_raises :
  VideoDataset.subset Demo.table (Some (PyFloatV Demo.two)) = Raise TypeError.
Proof. reflexivity. Qed.

(* ===================================================================== *)
(** * Construction *)
(* ===================================================================== *)

Section Construction.
Context {ext : Collaborators}.

(** Construction succeeds exactly when both assertions pass and the
    subsetting succeeds; [frame_size] plays no part. *)
Lemma init_ok_iff (cut : PyFloat.float) (frame_size : Z) (data_opts : DataSetOptions)
      (sampling_opts : SamplingOptions) :
  is_ok (VideoDataset.__init__ cut frame_size data_opts sampling_opts)
  = VideoDataset.cut_in_range cut
    && VideoDataset.known_setting (do_setting data_opts)
    && is_ok (VideoDataset.subset (read_meta (do_meta_path data_opts)) (do_keep data_opts)).
Proof.
  unfold VideoDataset.__init__.
  destruct (VideoDataset.cut_in_range cut); [ | reflexivity].
  destruct (VideoDataset.known_setting (do_setting data_opts)); [ | reflexivity].
  cbn [negb andb].
  destruct (VideoDataset.subset _ _); reflexivity.
Qed.

(** What a successful construction stores. *)
Lemma init_Ok_inv (cut : PyFloat.float) (frame_size : Z) (data_opts : DataSetOptions)
      (sampling_opts : SamplingOptions) (ds : VideoDataset.t) :
  VideoDataset.__init__ cut frame_size data_opts sampling_opts = Ok ds ->
  let full := read_meta (do_meta_path data_opts) in
  VideoDataset.known_setting (do_setting data_opts) = true /\
  VideoDataset.subset full (do_keep data_opts) = Ok (VideoDataset.meta ds) /\
  VideoDataset.lids ds = unique (col_lid full) /\
  VideoDataset.lid2labels ds = groupby_lid_label_head 1 full /\
  VideoDataset.labels2lid ds = reset_index_set_index_label (groupby_lid_label_head 1 full) /\
  VideoDataset.aug_seq ds = VideoDataset._compose_aug_seq (do_setting data_opts) /\
  VideoDataset.frame_size ds = frame_size.
Proof.
  unfold VideoDataset.__init__.
  destruct (VideoDataset.cut_in_range cut); cbn [negb]; [ | discriminate].
  destruct (VideoDataset.known_setting (do_setting data_opts)); cbn [negb]; [ | discriminate].
  destruct (VideoDataset.subset _ _) as [meta1 | e]; cbn [bind]; [ | discriminate].
  intros H. injection H as <-. cbn. repeat split.
Qed.

(** C5, amended.  Construction fails with [AssertionError] when [cut]
    fails the test [0.0 <= cut <= 1.0] or the setting is neither ['train']
    nor ['eval']; it never fails with [ConfigurationError]; [frame_size]
    is not checked: when both tests pass, construction succeeds with any
    [frame_size] whenever the subsetting succeeds, as it does when no
    [keep] is given. *)
Theorem init_fails_with_AssertionError (cut : PyFloat.float) (frame_size : Z)
        (data_opts : DataSetOptions) (sampling_opts : SamplingOptions) :
  (VideoDataset.cut_in_range cut = false \/
   VideoDataset.known_setting (do_setting data_opts) = false ->
   VideoDataset.__init__ cut frame_size data_opts sampling_opts = Raise AssertionError) /\
  (VideoDataset.cut_in_range cut = true ->
   VideoDataset.known_setting (do_setting data_opts) = true ->
   forall meta1,
     VideoDataset.subset (read_meta (do_meta_path data_opts)) (do_keep data_opts) = Ok meta1 ->
     exists ds,
       VideoDataset.__init__ cut frame_size data_opts sampling_opts = Ok ds /\
       VideoDataset.frame_size ds = frame_size /\ VideoDataset.meta ds = meta1) /\
  (VideoDataset.cut_in_range cut = true ->
   VideoDataset.known_setting (do_setting data_opts) = true ->
   do_keep data_opts = None ->
   exists ds, VideoDataset.__init__ cut frame_size data_opts sampling_opts = Ok ds) /\
  VideoDataset.__init__ cut frame_size data_opts sampling_opts <> Raise ConfigurationError.
Proof.
  unfold VideoDataset.__init__. repeat split.
  - intros [Hc | Hs].
    + rewrite Hc. reflexivity.
    + rewrite Hs. destruct (VideoDataset.cut_in_range cut); reflexivity.
  - intros Hc Hs meta1 Hm. rewrite Hc, Hs, Hm. cbn. eexists. repeat split.
  - intros Hc Hs Hk. rewrite Hc, Hs, Hk. cbn. eexists. reflexivity.
  - destruct (VideoDataset.cut_in_range cut); cbn [negb]; [ | discriminate].
    destruct (VideoDataset.known_setting _); cbn [negb]; [ | discriminate].
    destruct (VideoDataset.subset _ _) as [m | e] eqn:Hsub; cbn [bind]; [discriminate | ].
    apply subset_raise in Hsub. intros H. injection H as ->.
    destruct Hsub as [H | [H | H]]; discriminate.
Qed.

(** The class ids and both lookups are computed from the full table
    before the subsetting: they are the same whatever [keep] is, and
    every class id of the full table is in [lids]. *)
Lemma lids_and_lookups_ignore_keep (cut : PyFloat.float) (frame_size : Z)
      (data_opts : DataSetOptions) (sampling_opts : SamplingOptions) (ds : VideoDataset.t) :
  VideoDataset.__init__ cut frame_size data_opts sampling_opts = Ok ds ->
  let full := read_meta (do_meta_path data_opts) in
  (forall keep' ds',
      VideoDataset.__init__ cut frame_size (set_keep data_opts keep') sampling_opts = Ok ds' ->
      VideoDataset.lids ds' = VideoDataset.lids ds /\
      VideoDataset.lid2labels ds' = VideoDataset.lid2labels ds /\
      VideoDataset.labels2lid ds' = VideoDataset.labels2lid ds) /\
  (forall l, In l (col_lid full) -> In l (VideoDataset.lids ds)).
Proof.
  intros Hinit full. apply init_Ok_inv in Hinit.
  destruct Hinit as [_ [_ [Hlids [Hl2l [Hlab _]]]]]. fold full in Hlids, Hl2l, Hlab.
  split.
  - intros keep' ds' Hinit'. apply init_Ok_inv in Hinit'.
    destruct Hinit' as [_ [_ [Hlids' [Hl2l' [Hlab' _]]]]]. cbn [set_keep do_meta_path] in *.
    fold full in Hlids', Hl2l', Hlab'. repeat split; congruence.
  - intros l Hl. rewrite Hlids. apply unique_In. assumption.
Qed.

End Construction.

(** ** Construction on the concrete tables *)

Section ConcreteConstruction.
#[local] Existing Instance Demo.collaborators.
Local Open Scope string_scope.

Example init_builds_dataset :
  VideoDataset.__init__ PyFloat.one 224 (Demo.options "train" None) Demo.sampling
  = Ok Demo.dataset.
Proof. reflexivity. Qed.

(** C5, as stated, fails: a [frame_size] of 0 is accepted, and a [cut] of
    2.0 raises [AssertionError], not [ConfigurationError]. *)
Lemma init_accepts_any_frame_size :
  (exists ds,
      VideoDataset.__init__ PyFloat.one 0 (Demo.options "train" None) Demo.sampling = Ok ds /\
      VideoDataset.frame_size ds = 0) /\
  VideoDataset.__init__ Demo.two 224 (Demo.options "train" None) Demo.sampling
  = Raise AssertionError /\
  VideoDataset.__init__ PyFloat.one 224 (Demo.options "test" None) Demo.sampling
  = Raise AssertionError.
Proof.
  split; [ | split; reflexivity].
  eexists. split; reflexivity.
Qed.

(** C5 on the table of four clips: a setting of ['valid'] is refused, and
    with ['eval'] a frame size of -1 is accepted. *)
Lemma init_fails_with_AssertionError_witness :
  VideoDataset.__init__ PyFloat.one 224 (Demo.options "valid" None) Demo.sampling
  = Raise AssertionError /\
  exists ds,
    VideoDataset.__init__ PyFloat.one (-1) (Demo.options "eval" None) Demo.sampling = Ok ds.
Proof.
  split.
  - apply (proj1 (init_fails_with_AssertionError
                    PyFloat.one 224 (Demo.options "valid" None) Demo.sampling)).
    right. reflexivity.
  - apply (proj1 (proj2 (proj2 (init_fails_with_AssertionError
                                  PyFloat.one (-1) (Demo.options "eval" None) Demo.sampling))));
      reflexivity.
Defined.

(** C4 fails on a table of two clips whose class ids are 1 and 0, in this
    order: for the first row, of class 1 and label ["push"], [lid2labels]
    at 1 is the label of the other class, and [labels2lid] has no column
    ["push"] and holds, in the row labelled ["push"], the index label 0 of
    the row, not its class id. *)
Theorem lookups_keyed_by_row_index :
  exists ds,
    VideoDataset.__init__ PyFloat.one 224
      (mkDataSetOptions "data" "crossed.json" false "train" None) Demo.sampling = Ok ds /\
    nth_error (VideoDataset.meta ds) 0 = Some (mkRow 0 (Demo.clip 100 "push" 1)) /\
    Series_getitem (VideoDataset.lid2labels ds) 1 = Ok (Scalar "pull") /\
    LabelFrame_getitem (VideoDataset.labels2lid ds) "push" = Raise KeyError /\
    LabelFrame_loc (VideoDataset.labels2lid ds) "push" = Ok [0].
Proof. eexists. repeat split. Qed.

(** On the table of four clips, where the class ids are not index labels,
    [lid2labels] has no entry at a class id. *)
Example lid2labels_at_class_id :
  Series_getitem (VideoDataset.lid2labels Demo.dataset) 7 = Raise KeyError.
Proof. reflexivity. Qed.

(** C10.  The class ids and the lookups are computed before the
    subsetting, and the code misses the claim all the same.  On the table
    of four clips with [keep = 0.5] the only row of class 9 is dropped;
    [lids] and both lookups are those of the dataset built without
    [keep], and 9 stays in [lids]; but the class id 9 is in neither
    lookup: [lid2labels] at 9 raises [KeyError], 9 is no index label of
    [lid2labels] and no value of [labels2lid], because the entry of the
    class is filed under 2, the index label of its first row. *)
Theorem removed_class_not_in_lookups :
  exists ds,
    VideoDataset.__init__ PyFloat.one 224
      (Demo.options "train" (Some (PyFloatV PyFloat.half))) Demo.sampling = Ok ds /\
    where_lid (VideoDataset.meta ds) 9 = [] /\
    VideoDataset.lids ds = VideoDataset.lids Demo.dataset /\
    VideoDataset.lid2labels ds = VideoDataset.lid2labels Demo.dataset /\
    VideoDataset.labels2lid ds = VideoDataset.labels2lid Demo.dataset /\
    In 9 (VideoDataset.lids ds) /\
    Series_getitem (VideoDataset.lid2labels ds) 9 = Raise KeyError /\
    ~ In 9 (map fst (VideoDataset.lid2labels ds)) /\
    ~ In 9 (map snd (lf_rows (VideoDataset.labels2lid ds))) /\
    In (2, "pull") (VideoDataset.lid2labels ds) /\
    In ("pull", 2) (lf_rows (VideoDataset.labels2lid ds)).
Proof.
  eexists. split; [reflexivity | ]. cbn.
  repeat split; try tauto; intros H; repeat (destruct H as [H | H]; try discriminate); assumption.
Qed.

(** The same through the general lemma: whatever [keep] is, the class
    ids and the lookups are those of the dataset built without it. *)
Example lids_and_lookups_ignore_keep_on_table :
  forall ds,
    VideoDataset.__init__ PyFloat.one 224
      (Demo.options "train" (Some (PyFloatV PyFloat.half))) Demo.sampling = Ok ds ->
    VideoDataset.lids ds = VideoDataset.lids Demo.dataset /\
    VideoDataset.lid2labels ds = VideoDataset.lid2labels Demo.dataset /\
    VideoDataset.labels2lid ds = VideoDataset.labels2lid Demo.dataset.
Proof.
  intros ds Hds.
  apply (proj1 (lids_and_lookups_ignore_keep PyFloat.one 224 (Demo.options "train" None)
                  Demo.sampling Demo.dataset eq_refl)
               (Some (PyFloatV PyFloat.half)) ds).
  exact Hds.
Qed.

End ConcreteConstruction.

(* ===================================================================== *)
(** * Collation *)
(* ===================================================================== *)

Import Collate Torch CollateFacts.

Section Collation.
Context {release : Release}.

(** C6, amended.  For every non-empty batch of [B] samples whose videos
    all have [T >= 1] frame tensors of one size [C x H x W] and whose
    class ids fit a 64-bit integer, [collate] returns a stacked video
    tensor, an [int64] label tensor of shape [B] holding the class ids in
    order, and the videos and labels it was given, in order.  Stacked
    means: the shape is [B, T, C, H, W], the elements are those of the
    frames, frame after frame and video after video, and the dtype is
    that of the frames. *)
Theorem collate_stacks_batch (batch : list sample) (T C H W : nat) :
  batch <> [] ->
  (0 < T)%nat ->
  (forall s, In s batch ->
     List.length (Video.data (fst s)) = T /\
     forall t, In t (Video.data (fst s)) -> t_shape t = [C; H; W]) ->
  (forall s, In s batch -> fits_int64 (Label.data (snd s)) = true) ->
  exists videos_data labels_data,
    collate batch = Ok (videos_data, labels_data,
                        map (fun s => ItemVideo (fst s)) batch,
                        map (fun s => ItemLabel (snd s)) batch) /\
    t_shape videos_data = [List.length batch; T; C; H; W] /\
    t_elems videos_data = flat_map (fun s => flat_map t_elems (Video.data (fst s))) batch /\
    (forall d, (forall s t, In s batch -> In t (Video.data (fst s)) -> t_dtype t = d) ->
               t_dtype videos_data = d) /\
    t_dtype labels_data = int64 /\
    t_shape labels_data = [List.length batch] /\
    t_elems labels_data = map (fun s => I64 (Label.data (snd s))) batch.
Proof.
  intros Hne HT Hframes Hlabels.
  destruct (collate_uniform batch T [C; H; W] Hne HT Hframes Hlabels)
    as [vd [ld [Hc [Hshape [Helems [Hdtype Hld]]]]]].
  exists vd, ld. rewrite Hld.
  split; [rewrite <- Hld; assumption | ]. repeat split; assumption.
Qed.

(** C7, amended.  When two samples of the batch disagree on the number
    of frames or on the size of a frame, [collate] fails with the
    [RuntimeError] of [torch.stack]: nothing is padded or truncated. *)
Theorem collate_mismatch_raises (batch : list sample) (s1 s2 : sample) :
  In s1 batch -> In s2 batch ->
  map t_shape (Video.data (fst s1)) <> map t_shape (Video.data (fst s2)) ->
  collate batch = Raise RuntimeError.
Proof.
  intros H1 H2 Hdiff.
  rewrite collate_unzipped by (intros Hnil; rewrite Hnil in H1; contradiction).
  destruct (mapM_raises_only (fun s : Video.t Tensor * Label.t => stack (Video.data (fst s)))
                             batch RuntimeError)
    as [[pv Hpv] | Hpv].
  - intros x e. apply stack_raises.
  - rewrite Hpv. cbn [bind].
    destruct (stack pv) as [vd | e] eqn:Hvd; cbn [bind].
    + exfalso. apply Hdiff.
      apply mapM_Ok in Hpv.
      destruct (stack_Ok_inv pv vd Hvd) as [shp [Hall _]].
      destruct (Forall2_In_left _ _ _ s1 Hpv H1) as [y1 [Hy1 Hs1]].
      destruct (Forall2_In_left _ _ _ s2 Hpv H2) as [y2 [Hy2 Hs2]].
      destruct (stack_Ok_inv _ _ Hs1) as [shp1 [Hf1 Hsh1]].
      destruct (stack_Ok_inv _ _ Hs2) as [shp2 [Hf2 Hsh2]].
      rewrite (Hall y1 Hy1) in Hsh1. rewrite (Hall y2 Hy2) in Hsh2.
      rewrite Hsh1 in Hsh2. injection Hsh2 as Hlen Hshp.
      rewrite (map_constant t_shape shp1), (map_constant t_shape shp2) by assumption.
      congruence.
    + f_equal. eapply stack_raises. eassumption.
  - rewrite Hpv. reflexivity.
Qed.

(** C9.  On the empty batch the unpacking of the zipped batch raises
    [ValueError], and so does [collate]; on every non-empty batch the
    unpacking gives two sequences as long as the batch. *)
Theorem collate_unpacks_nonempty_only :
  unpack2 (zip_star (map as_tuple [])) = Raise ValueError /\
  collate [] = Raise ValueError /\
  forall batch : list sample,
    batch <> [] ->
    exists videos labels,
      unpack2 (zip_star (map as_tuple batch)) = Ok (videos, labels) /\
      List.length videos = List.length batch /\
      List.length labels = List.length batch.
Proof.
  split; [reflexivity | split; [reflexivity | ]].
  intros batch Hne. rewrite zip_star_batch by assumption.
  eexists. eexists. split; [reflexivity | ]. rewrite !length_map. split; reflexivity.
Qed.

End Collation.

(** ** Collation on concrete batches *)

Section ConcreteCollation.
#[local] Existing Instance Demo.torch_later.

(** C6, as stated, fails.  A batch of one video without frames is not
    empty and its frames, there being none, all have one size, yet
    [collate] raises the [RuntimeError] of [torch.stack], whatever the
    release of torch; and on a batch of one video of one frame whose
    class id is [2 ^ 63], [collate] raises what [torch.tensor] raises for
    an integer beyond 64 bits. *)
Lemma collate_needs_frames_and_int64_ids :
  [(Demo.video [], Label.__init__ (Demo.clip 100 "push" 7))] <> [] /\
  (forall s, In s [(Demo.video [], Label.__init__ (Demo.clip 100 "push" 7))] ->
     List.length (Video.data (fst s)) = 0%nat /\
     forall t, In t (Video.data (fst s)) -> t_shape t = [3; 1; 2]%nat) /\
  collate (release := Demo.torch_2_0)
    [(Demo.video [], Label.__init__ (Demo.clip 100 "push" 7))] = Raise RuntimeError /\
  collate (release := Demo.torch_later)
    [(Demo.video [], Label.__init__ (Demo.clip 100 "push" 7))] = Raise RuntimeError /\
  t_shape (to_tensor Demo.frame0) = [3; 1; 2]%nat /\
  collate (release := Demo.torch_2_0)
    [(Demo.video [Demo.frame0], Label.__init__ (Demo.clip 100 "push" (2 ^ 63)))]
  = Raise RuntimeError /\
  collate (release := Demo.torch_later)
    [(Demo.video [Demo.frame0], Label.__init__ (Demo.clip 100 "push" (2 ^ 63)))]
  = Raise ValueError.
Proof.
  split; [discriminate | ]. split.
  - intros s [<- | []]. split; [reflexivity | ]. intros t [].
  - repeat split; reflexivity.
Qed.

(** C6 on two samples of two frames of size 3 x 1 x 2: the video tensor
    holds the twelve elements of each of the four frames, in order, and
    is [float32] as they are. *)
Lemma collate_stacks_batch_witness :
  exists videos_data labels_data,
    collate [Demo.sample2; Demo.sample2']
    = Ok (videos_data, labels_data,
          map (fun s => ItemVideo (fst s)) [Demo.sample2; Demo.sample2'],
          map (fun s => ItemLabel (snd s)) [Demo.sample2; Demo.sample2']) /\
    t_shape videos_data = [2; 2; 3; 1; 2]%nat /\
    t_elems videos_data
    = flat_map (fun s => flat_map t_elems (Video.data (fst s))) [Demo.sample2; Demo.sample2'] /\
    t_dtype videos_data = float32 /\
    t_dtype labels_data = int64 /\
    t_shape labels_data = [2%nat] /\
    t_elems labels_data = map (fun s => I64 (Label.data (snd s))) [Demo.sample2; Demo.sample2'].
Proof.
  destruct (collate_stacks_batch [Demo.sample2; Demo.sample2'] 2 3 1 2)
    as [vd [ld [Hc [Hshape [Helems [Hdtype Hlabels]]]]]].
  - discriminate.
  - apply Nat.lt_0_succ.
  - intros s [<- | [<- | []]]; (split; [reflexivity | ]);
      intros t [<- | [<- | []]]; reflexivity.
  - intros s [<- | [<- | []]]; reflexivity.
  - exists vd, ld. split; [exact Hc | ]. split; [exact Hshape | ]. split; [exact Helems | ].
    split; [ | exact Hlabels].
    apply Hdtype. intros s t [<- | [<- | []]] [<- | [<- | []]]; reflexivity.
Defined.

(** C7, as stated, fails: a batch of a video of two frames and a video of
    one frame raises [RuntimeError], not [ShapeMismatchError]. *)
Lemma collate_mismatch_is_RuntimeError :
  List.length (Video.data (fst Demo.sample2)) <> List.length (Video.data (fst Demo.sample1)) /\
  collate [Demo.sample2; Demo.sample1] = Raise RuntimeError /\
  collate [Demo.sample2; Demo.sample1] <> Raise ShapeMismatchError.
Proof. split; [discriminate | split; [reflexivity | discriminate]]. Qed.

(** C7 on that batch. *)
Lemma collate_mismatch_raises_witness :
  collate [Demo.sample2; Demo.sample1] = Raise RuntimeError.
Proof.
  apply (collate_mismatch_raises [Demo.sample2; Demo.sample1] Demo.sample2 Demo.sample1).
  - left. reflexivity.
  - right. left. reflexivity.
  - discriminate.
Defined.

(** C9 on a batch of one sample. *)
Lemma collate_unpacks_nonempty_only_witness :
  exists videos labels,
    unpack2 (zip_star (map as_tuple [Demo.sample1])) = Ok (videos, labels) /\
    List.length videos = 1%nat /\
    List.length labels = 1%nat.
Proof.
  apply (proj2 (proj2 collate_unpacks_nonempty_only) [Demo.sample1]).
  discriminate.
Defined.

End ConcreteCollation.

(* ===================================================================== *)
(** * Augmentation *)
(* ===================================================================== *)

Section Augmentation.
Context {ext : Collaborators}.
Import ImgAug Augment AugmentFacts TensorFacts.

(** Every tensor that [aug] returns is [to_tensor] of an image. *)
Lemma augment_frames_tensors (det : Sequential RandomState) (frames : list ndarray)
      (g : RandomState) :
  Forall (fun t => exists img, t = to_tensor img)
         (fst (fst (VideoDataset.augment_frames det frames g))).
Proof.
  revert det g. induction frames as [ | f frames IH]; intros det g; simpl; [constructor | ].
  destruct (augment_image det f g) as [[[img ps] det'] g1].
  specialize (IH det' g1).
  destruct (VideoDataset.augment_frames det' frames g1) as [[ts pss] g2]. simpl in *.
  constructor; [ | assumption]. exists img. reflexivity.
Qed.

(** C2.  For every call of [__getitem__] that returns a sample, one list
    of sampled parameters (the offsets of the pad and of the crop, the two
    flip decisions, the brightness amount and the hue and saturation
    amount) is used for every frame of the video: the parameters recorded
    for any two frames are equal, and every frame tensor is [to_tensor] of
    the image operations run with those parameters on the decoded frame. *)
Theorem getitem_frames_share_parameters
        (self : VideoDataset.t) (item : Z) (g g' : RandomState)
        (video : Video.t Torch.Tensor) (label : Label.t) (params : list (list Params)) :
  VideoDataset.__getitem__ self item g = Ok (video, label, params, g') ->
  exists (row : Row) (frames : list ndarray) (g1 : RandomState) (ps : list Params),
    VideoDataset.iloc (VideoDataset.meta self) item = Ok row /\
    load_frames (row_meta row) (do_root_path (VideoDataset.do self))
                (do_read_jpeg (VideoDataset.do self)) (VideoDataset.cut self)
                (do_setting (VideoDataset.do self))
                (so_num_segments (VideoDataset.so self)) g = (Ok frames, g1) /\
    params = repeat ps (List.length frames) /\
    Video.data video
    = map (fun f => Torch.to_tensor (apply_all (VideoDataset.ops self) ps f)) frames /\
    (forall i j p q, nth_error params i = Some p -> nth_error params j = Some q -> p = q).
Proof.
  unfold VideoDataset.__getitem__. intros H.
  destruct (VideoDataset.iloc (VideoDataset.meta self) item) as [row | e]; [ | discriminate].
  cbn [bind] in H.
  destruct (load_frames _ _ _ _ _ _ g) as [[frames | e] g1] eqn:Hload; [ | discriminate].
  cbn [bind Video.data] in H.
  destruct (aug_replays self frames g1) as [ps Hps].
  destruct (VideoDataset.aug self frames g1) as [[tensors pss] g2]. simpl in Hps.
  injection Hps as Ht Hp. injection H as <- _ <- _.
  exists row, frames, g1, ps.
  split; [reflexivity | split; [assumption | split; [assumption | split; [simpl; assumption | ]]]].
  intros i j p q Hp' Hq'. rewrite Hp in Hp', Hq'.
  apply nth_error_In, repeat_spec in Hp'. apply nth_error_In, repeat_spec in Hq'. congruence.
Qed.

(** [__getitem__] returns a sample whenever the position is in range and
    the frames are decoded. *)
Lemma getitem_returns (self : VideoDataset.t) (item : Z) (g g1 : RandomState)
      (row : Row) (frames : list ndarray) :
  VideoDataset.iloc (VideoDataset.meta self) item = Ok row ->
  load_frames (row_meta row) (do_root_path (VideoDataset.do self))
              (do_read_jpeg (VideoDataset.do self)) (VideoDataset.cut self)
              (do_setting (VideoDataset.do self))
              (so_num_segments (VideoDataset.so self)) g = (Ok frames, g1) ->
  exists video params g',
    VideoDataset.__getitem__ self item g = Ok (video, Label.__init__ (row_meta row), params, g') /\
    List.length (Video.data video) = List.length frames.
Proof.
  intros Hrow Hload. unfold VideoDataset.__getitem__. rewrite Hrow. cbn [bind].
  rewrite Hload. cbn [bind Video.data].
  destruct (aug_replays self frames g1) as [ps Hps].
  destruct (VideoDataset.aug self frames g1) as [[tensors pss] g2]. simpl in Hps.
  injection Hps as Ht Hp.
  eexists. eexists. eexists. split; [reflexivity | ].
  cbn. rewrite Ht, length_map. reflexivity.
Qed.

(** C8, amended.  The augmentation sequence of a dataset depends only on
    the setting, not on [frame_size]: for ['train'] it pads then crops to
    224 x 224 at a random offset, flips horizontally and vertically with
    probability 0.5 each, and adds a brightness amount and a hue and
    saturation amount between -25 and 25; for ['eval'] it only pads and
    crops to 224 x 224 at the center, and samples nothing.  Every tensor
    that [aug] returns is a [float32] tensor of shape [C, H, W] made from an
    image of shape (H, W, C), with all elements between 0 and 1. *)
Theorem aug_seq_depends_on_setting_only (cut : PyFloat.float) (frame_size : Z)
        (data_opts : DataSetOptions) (sampling_opts : SamplingOptions) (ds : VideoDataset.t) :
  VideoDataset.__init__ cut frame_size data_opts sampling_opts = Ok ds ->
  VideoDataset.aug_seq ds = VideoDataset._compose_aug_seq (do_setting data_opts) /\
  (do_setting data_opts = "train"%string ->
   VideoDataset.ops ds
   = [PadToFixedSize 224 224 Uniform; CropToFixedSize 224 224 Uniform;
      Fliplr PyFloat.half; Flipud PyFloat.half;
      Add (-25) 25; AddToHueAndSaturation (-25) 25]) /\
  (do_setting data_opts = "eval"%string ->
   VideoDataset.ops ds = [PadToFixedSize 224 224 Center; CropToFixedSize 224 224 Center] /\
   forall op rs rs', In op (VideoDataset.ops ds) -> draw_params op rs = draw_params op rs') /\
  (forall video_data g,
      Forall (fun t => t_dtype t = float32 /\
                       (exists img, t = to_tensor img /\
                                    t_shape t = [nd_c img; nd_h img; nd_w img]) /\
                       forallb in_unit_interval (t_elems t) = true)
             (fst (fst (VideoDataset.aug ds video_data g)))).
Proof.
  intros Hinit. apply init_Ok_inv in Hinit.
  destruct Hinit as [_ [_ [_ [_ [_ [Hseq _]]]]]].
  assert (Htrain : do_setting data_opts = "train"%string ->
                   VideoDataset.ops ds
                   = [PadToFixedSize 224 224 Uniform; CropToFixedSize 224 224 Uniform;
                      Fliplr PyFloat.half; Flipud PyFloat.half;
                      Add (-25) 25; AddToHueAndSaturation (-25) 25]).
  { intros Hs. unfold VideoDataset.ops. rewrite Hseq, Hs. reflexivity. }
  assert (Heval : do_setting data_opts = "eval"%string ->
                  VideoDataset.ops ds
                  = [PadToFixedSize 224 224 Center; CropToFixedSize 224 224 Center]).
  { intros Hs. unfold VideoDataset.ops. rewrite Hseq, Hs. reflexivity. }
  split; [assumption | split; [assumption | split]].
  - intros Hs. split; [auto | ]. rewrite (Heval Hs).
    intros op rs rs' [<- | [<- | []]]; reflexivity.
  - intros video_data g. unfold VideoDataset.aug.
    destruct (to_deterministic (VideoDataset.aug_seq ds) g) as [det g1].
    pose proof (augment_frames_tensors det video_data g1) as Hts.
    eapply Forall_impl; [ | exact Hts].
    intros t [img ->]. destruct (to_tensor_spec img) as [Hd [Hsh Hr]].
    split; [assumption | split; [ | assumption]].
    exists img. split; [reflexivity | assumption].
Qed.

End Augmentation.

(** ** Augmentation on the concrete dataset *)

Section ConcreteAugmentation.
#[local] Existing Instance Demo.collaborators.
Local Open Scope string_scope.
Import ImgAug Augment.

(** C2 on the second clip of the table of four clips. *)
Lemma getitem_frames_share_parameters_witness :
  exists video label params g',
    VideoDataset.__getitem__ Demo.dataset 1 42 = Ok (video, label, params, g') /\
    List.length params = 2%nat /\
    forall i j p q, nth_error params i = Some p -> nth_error params j = Some q -> p = q.
Proof.
  eexists. eexists. eexists. eexists. split; [vm_compute; reflexivity | ].
  split; [reflexivity | ].
  destruct (getitem_frames_share_parameters Demo.dataset 1 42 _ _ _ _ eq_refl)
    as [row [frames [g1 [ps [_ [_ [_ [_ Hsame]]]]]]]].
  exact Hsame.
Defined.

(** Without [to_deterministic] the two frames would get different
    parameters: the sequence as built samples from the global state, which
    moves forward after every augmenter. *)
Example not_deterministic_frames_differ :
  match snd (fst (VideoDataset.augment_frames (VideoDataset.aug_seq Demo.dataset)
                                              [Demo.frame0; Demo.frame1] 42)) with
  | [ps0; ps1] => nth_error ps0 4 = Some (Amount (-13)) /\ nth_error ps1 4 = Some (Amount (-20))
  | _ => False
  end.
Proof. split; reflexivity. Qed.

(** C8, as stated, fails: a dataset built with [frame_size = 112] pads and
    crops to 224 x 224. *)
Lemma aug_seq_ignores_frame_size :
  exists ds,
    VideoDataset.__init__ PyFloat.one 112 (Demo.options "train" None) Demo.sampling = Ok ds /\
    VideoDataset.frame_size ds = 112 /\
    firstn 2 (VideoDataset.ops ds)
    = [PadToFixedSize 224 224 Uniform; CropToFixedSize 224 224 Uniform] /\
    firstn 2 (VideoDataset.ops ds)
    <> [PadToFixedSize 112 112 Uniform; CropToFixedSize 112 112 Uniform].
Proof. eexists. repeat split. discriminate. Qed.

(** C8 on a dataset built for evaluation with [frame_size = 112]. *)
Lemma aug_seq_depends_on_setting_only_witness :
  exists ds,
    VideoDataset.__init__ PyFloat.one 112 (Demo.options "eval" None) Demo.sampling = Ok ds /\
    VideoDataset.ops ds = [PadToFixedSize 224 224 Center; CropToFixedSize 224 224 Center].
Proof.
  eexists. split; [reflexivity | ].
  apply (aug_seq_depends_on_setting_only
           PyFloat.one 112 (Demo.options "eval" None) Demo.sampling _ eq_refl).
  reflexivity.
Defined.

End ConcreteAugmentation.

(* ===================================================================== *)
(** * Further properties of the subsetting *)
(* ===================================================================== *)

Module SubsetFacts.

(** A slice from the start keeps the first rows. *)
Lemma slice_to_keeps_first {A : Type} (s : list A) (stop : Z) :
  exists m, slice_to s stop = firstn m s.
Proof. unfold slice_to. eexists. reflexivity. Qed.

(** The rows of one class among the first [k] rows are the first rows of
    that class. *)
Lemma where_lid_firstn (df : DataFrame) (l : Z) : forall k : nat,
  exists m, where_lid (firstn k df) l = firstn m (where_lid df l).
Proof.
  induction df as [ | r df IH]; intros k.
  - exists 0%nat. rewrite firstn_nil. reflexivity.
  - destruct k as [ | k]; [exists 0%nat; reflexivity | ].
    destruct (IH k) as [m Hm]. unfold where_lid in *. simpl.
    destruct (row_lid r =? l).
    + exists (S m). simpl. rewrite Hm. reflexivity.
    + exists m. exact Hm.
Qed.

(** The per-class samples that [mapM] collects are determined by the
    class. *)
Lemma samples_by_class {A B : Type} (f : A -> result B) (h : A -> B) (l : list A)
      (ys : list B) :
  (forall x y, f x = Ok y -> y = h x) -> mapM f l = Ok ys -> ys = map h l.
Proof.
  intros Hh Hm. apply mapM_Ok in Hm.
  induction Hm as [ | x y l ys Hxy _ IH]; [reflexivity | ].
  simpl. rewrite IH. f_equal. apply Hh. assumption.
Qed.

(** What [_stratified_sample_meta] leaves in [self.meta], whatever the
    cut-offs are: the first rows of every class, class after class. *)
Lemma stratified_blocks (meta : DataFrame) (keep : number) (meta' : DataFrame) :
  VideoDataset._stratified_sample_meta meta keep = Ok meta' ->
  exists size : Z -> nat,
    meta' = List.concat (map (fun l => firstn (size l) (where_lid meta l))
                             (unique (col_lid meta))) /\
    NoDup (map row_index meta') /\
    meta <> [].
Proof.
  unfold VideoDataset._stratified_sample_meta.
  destruct (mapM _ _) as [samples | e] eqn:Hm; cbn [bind]; [ | discriminate].
  intros Hc.
  pose (size := fun l =>
          match VideoDataset.cut_off (List.length (where_lid meta l)) keep with
          | Ok c =>
              let n := Z.of_nat (List.length (where_lid meta l)) in
              Z.to_nat (if c <? 0 then Z.max 0 (n + c) else Z.min c n)
          | Raise _ => 0%nat
          end).
  exists size.
  apply (samples_by_class _ (fun l => firstn (size l) (where_lid meta l))) in Hm.
  - subst samples. unfold concat in Hc.
    destruct (map _ (unique (col_lid meta))) as [ | s0 ss] eqn:Hs.
    + discriminate.
    + destruct (has_duplicates _) eqn:Hd; [discriminate | ].
      injection Hc as <-. split; [reflexivity | split].
      * apply has_duplicates_false. assumption.
      * intros ->. discriminate.
  - intros l y. unfold size.
    destruct (VideoDataset.cut_off _ keep) as [c | e]; cbn [bind]; [ | discriminate].
    intros H. injection H as <-. reflexivity.
Qed.

(** Summing over the distinct values of a list, one value apart. *)
Lemma list_sum_split_class (f : Z -> nat) (x : Z) (U : list Z) :
  NoDup U -> (~ In x U -> f x = 0%nat) ->
  list_sum (map f U) = (f x + list_sum (map f (filter (fun y => negb (y =? x)%Z) U)))%nat.
Proof.
  induction U as [ | a U IH]; intros Hnd Hx.
  - simpl. rewrite Hx by tauto. reflexivity.
  - inversion Hnd as [ | ? ? Hnin Hnd']; subst. simpl.
    destruct (Z.eqb_spec a x) as [-> | Hne]; simpl.
    + rewrite filter_all; [reflexivity | ].
      intros y Hy. apply negb_true_iff, Z.eqb_neq. intros ->. contradiction.
    + rewrite IH; [lia | assumption | ].
      intros Hn. apply Hx. simpl. intros [Ha | Ha]; [congruence | contradiction].
Qed.

(** Every row of a table is in exactly one of its classes. *)
Lemma class_sizes_sum (df : DataFrame) :
  list_sum (map (fun l => List.length (where_lid df l)) (unique (col_lid df)))
  = List.length df.
Proof.
  induction df as [ | r df IH]; [reflexivity | ].
  cbn [col_lid map unique list_sum fold_right List.length]. fold (col_lid df).
  rewrite <- IH.
  rewrite (list_sum_split_class (fun l => List.length (where_lid df l)) (row_lid r)
                                (unique (col_lid df))).
  - unfold where_lid at 1. simpl. rewrite Z.eqb_refl. simpl. fold (where_lid df (row_lid r)).
    f_equal. f_equal. unfold list_sum. f_equal.
    apply map_ext_in. intros l Hl.
    apply filter_In in Hl. destruct Hl as [_ Hl].
    apply negb_true_iff, Z.eqb_neq in Hl.
    destruct (Z.eqb_spec (row_lid r) l); [congruence | reflexivity].
  - apply unique_NoDup.
  - intros Hn. unfold where_lid. rewrite filter_none; [reflexivity | ].
    intros r' Hr'. apply Z.eqb_neq. intros Heq. apply Hn. apply unique_In.
    unfold col_lid. apply in_map_iff. exists r'. tauto.
Qed.

Lemma list_sum_le (f h : Z -> nat) (U : list Z) :
  (forall l, (f l <= h l)%nat) -> (list_sum (map f U) <= list_sum (map h U))%nat.
Proof.
  intros Hle. induction U as [ | a U IH]; simpl; [lia | ]. specialize (Hle a). lia.
Qed.

(** The class samples of a stratified subsetting, seen from the result. *)
Lemma stratified_class (meta : DataFrame) (size : Z -> nat) (l : Z) :
  where_lid (List.concat (map (fun l => firstn (size l) (where_lid meta l))
                              (unique (col_lid meta)))) l
  = firstn (size l) (where_lid meta l).
Proof.
  set (g := fun l => firstn (size l) (where_lid meta l)).
  assert (g_sub : forall l r, In r (g l) -> In r meta /\ row_lid r = l).
  { intros l0 r Hr. apply firstn_In in Hr. split.
    - eapply where_lid_In; eassumption.
    - eapply where_lid_lid; eassumption. }
  destruct (in_dec Z.eq_dec l (unique (col_lid meta))) as [Hin | Hnin].
  - apply (where_lid_concat_present meta g g_sub); auto using unique_NoDup.
  - rewrite (where_lid_concat_absent meta g g_sub) by assumption.
    assert (Hempty : where_lid meta l = []).
    { apply filter_none. intros r Hr. apply Z.eqb_neq. intros Heq. apply Hnin.
      apply unique_In. unfold col_lid. apply in_map_iff. exists r. tauto. }
    rewrite Hempty, firstn_nil. reflexivity.
Qed.

(** Whatever [keep] is, a subsetting that succeeds keeps of every class
    its first rows. *)
Lemma subset_class_prefix (meta : DataFrame) (keep : option number) (meta' : DataFrame) :
  VideoDataset.subset meta keep = Ok meta' ->
  forall l, exists m, where_lid meta' l = firstn m (where_lid meta l).
Proof.
  unfold VideoDataset.subset. destruct keep as [k | ].
  - destruct (VideoDataset.is_fraction k).
    + intros H l. apply stratified_blocks in H. destruct H as [size [-> _]].
      exists (size l). apply stratified_class.
    + destruct k as [k | f]; simpl; [ | discriminate].
      intros H l. injection H as <-. unfold iloc_to.
      destruct (slice_to_keeps_first meta k) as [m ->]. apply where_lid_firstn.
  - intros H l. injection H as <-. exists (List.length (where_lid meta l)).
    rewrite firstn_all. reflexivity.
Qed.

(** The table does not grow. *)
Lemma subset_length_le (meta : DataFrame) (keep : option number) (meta' : DataFrame) :
  VideoDataset.subset meta keep = Ok meta' -> (List.length meta' <= List.length meta)%nat.
Proof.
  unfold VideoDataset.subset. destruct keep as [k | ].
  - destruct (VideoDataset.is_fraction k).
    + intros H. apply stratified_blocks in H. destruct H as [size [-> _]].
      rewrite length_concat, map_map. rewrite <- (class_sizes_sum meta).
      apply list_sum_le. intros l. rewrite length_firstn. lia.
    + destruct k as [k | f]; simpl; [ | discriminate].
      intros H. injection H as <-. unfold iloc_to.
      destruct (slice_to_keeps_first meta k) as [m ->]. rewrite length_firstn. lia.
  - intros H. injection H as <-. lia.
Qed.

End SubsetFacts.

Import SubsetFacts.

(** X1.  Subsetting only ever removes rows.  Whatever [keep] is, when lines
    47 to 51 of [__init__] succeed the new table holds, of every class,
    the first rows of that class in their order in the table read from the
    file (possibly none): every row kept is a row of that table with the
    index label it had, and the table has not grown. *)
Theorem subset_keeps_first_rows_of_each_class
        (meta : DataFrame) (keep : option number) (meta' : DataFrame) :
  VideoDataset.subset meta keep = Ok meta' ->
  (forall l, exists m, where_lid meta' l = firstn m (where_lid meta l)) /\
  (forall r, In r meta' -> In r meta) /\
  (List.length meta' <= List.length meta)%nat.
Proof.
  intros H. pose proof (subset_class_prefix meta keep meta' H) as Hp.
  split; [exact Hp | split].
  - intros r Hr.
    destruct (Hp (row_lid r)) as [m Hm].
    assert (Hin : In r (where_lid meta' (row_lid r))).
    { apply filter_In. split; [assumption | apply Z.eqb_refl]. }
    rewrite Hm in Hin. apply firstn_In in Hin. eapply where_lid_In. eassumption.
  - apply subset_length_le with (keep := keep). assumption.
Qed.


(** X2.  A stratified subsetting regroups the table.  When [keep] passes the
    test [0 <= keep < 1] and the subsetting succeeds, the new table lists
    its rows class after class, the classes in the order in which they
    first appear in the table read from the file, and no two of its rows
    share an index label; the table read from the file was not empty. *)
Theorem stratified_sample_grouped_by_class
        (meta : DataFrame) (keep : number) (meta' : DataFrame) :
  VideoDataset.is_fraction keep = true ->
  VideoDataset.subset meta (Some keep) = Ok meta' ->
  meta' = flat_map (where_lid meta') (unique (col_lid meta)) /\
  NoDup (map row_index meta') /\
  meta <> [].
Proof.
  intros Hf H. unfold VideoDataset.subset in H. rewrite Hf in H.
  apply stratified_blocks in H. destruct H as [size [Hm [Hnd Hne]]].
  split; [ | tauto].
  rewrite flat_map_concat_map. rewrite Hm at 1. f_equal.
  apply map_ext. intros l. rewrite Hm. symmetry. apply stratified_class.
Qed.

(** X2 on concrete inputs. *)
Lemma stratified_sample_grouped_by_class_witness :
  exists meta',
    VideoDataset.subset Fixtures.alternating (Some (PyFloatV Fixtures.three_quarters)) = Ok meta' /\
    map row_index meta' = [10; 12; 11; 13] /\
    meta' = flat_map (where_lid meta') (unique (col_lid Fixtures.alternating)) /\
    NoDup (map row_index meta').
Proof.
  eexists. split; [vm_compute; reflexivity | ].
  split; [reflexivity | ].
  pose proof (stratified_sample_grouped_by_class
                Fixtures.alternating (PyFloatV Fixtures.three_quarters) _
                ltac:(vm_compute; reflexivity) ltac:(vm_compute; reflexivity)) as H.
  split; [apply H | apply H].
Defined.

(** X1 on concrete inputs. *)
Lemma subset_keeps_first_rows_of_each_class_witness :
  exists meta',
    VideoDataset.subset Demo.table (Some (PyInt (-1))) = Ok meta' /\
    (forall l, exists m, where_lid meta' l = firstn m (where_lid Demo.table l)) /\
    (forall r, In r meta' -> In r Demo.table) /\
    (List.length meta' <= List.length Demo.table)%nat.
Proof.
  eexists. split; [vm_compute; reflexivity | ].
  apply (subset_keeps_first_rows_of_each_class Demo.table (Some (PyInt (-1)))).
  vm_compute. reflexivity.
Defined.

(** X3.  A negative integer [keep] is not rejected.  It fails the test
    [0 <= keep < 1], so the table is sliced with [iloc[0:keep]], which
    drops the last [-keep] rows, and all rows when there are no more than
    that. *)
Theorem subset_negative_keep_drops_last_rows (meta : DataFrame) (k : Z) :
  k < 0 ->
  VideoDataset.subset meta (Some (PyInt k))
  = Ok (firstn (List.length meta - Z.to_nat (- k)) meta).
Proof.
  intros Hk. unfold VideoDataset.subset, VideoDataset.is_fraction.
  replace (0 <=? k) with false by (symmetry; apply Z.leb_gt; lia).
  cbn [andb VideoDataset.head_rows]. unfold iloc_to, slice_to.
  replace (k <? 0) with true by (symmetry; apply Z.ltb_lt; lia).
  do 2 f_equal. lia.
Qed.

(** X3 on concrete inputs. *)
Lemma subset_negative_keep_drops_last_rows_witness :
  VideoDataset.subset Demo.table (Some (PyInt (-3))) = Ok (firstn 1 Demo.table) /\
  VideoDataset.subset Demo.table (Some (PyInt (-9))) = Ok [].
Proof.
  split.
  - apply (subset_negative_keep_drops_last_rows Demo.table (-3)). lia.
  - apply (subset_negative_keep_drops_last_rows Demo.table (-9)). lia.
Defined.

(** The cut-off of every class is 0 when [keep] is zero. *)
Lemma cut_off_zero (n : nat) (keep : number) :
  Z.of_nat n < 2 ^ 53 ->
  (keep = PyInt 0 \/ exists s, keep = PyFloatV (S754_zero s)) ->
  VideoDataset.cut_off n keep = Ok 0.
Proof.
  intros Hn [-> | [s ->]]; unfold VideoDataset.cut_off.
  - f_equal. lia.
  - unfold PyFloat.of_int.
    destruct (Z.eq_dec (Z.of_nat n) 0) as [-> | Hpos].
    + destruct s; reflexivity.
    + destruct (binary_normalize_exact (Z.of_nat n)) as [m [e [-> _]]]; [lia | ].
      cbn [bind]. destruct s; reflexivity.
Qed.

(** X4.  [keep = 0] empties the dataset.  The integer 0 and the floats 0.0
    and -0.0 pass the test [0 <= keep < 1], so the table is sampled class
    by class with a cut-off of 0 rows: construction goes on with a table
    without rows, whatever the index labels are, as long as the table
    read from the file has a row (and fewer than 2^53). *)
Theorem subset_keep_zero_empties_table (meta : DataFrame) (keep : number) :
  meta <> [] ->
  Z.of_nat (List.length meta) < 2 ^ 53 ->
  (keep = PyInt 0 \/ exists s, keep = PyFloatV (S754_zero s)) ->
  VideoDataset.is_fraction keep = true /\
  VideoDataset.subset meta (Some keep) = Ok [].
Proof.
  intros Hne Hlen Hk.
  assert (Hf : VideoDataset.is_fraction keep = true).
  { destruct Hk as [-> | [s ->]]; [reflexivity | destruct s; reflexivity]. }
  split; [assumption | ].
  unfold VideoDataset.subset. rewrite Hf. unfold VideoDataset._stratified_sample_meta.
  rewrite (mapM_pure _ (fun _ : Z => @nil Row)).
  - cbn [bind]. unfold concat.
    assert (Hnil : forall (l : list Z), List.concat (map (fun _ : Z => @nil Row) l) = []).
    { induction l as [ | a l IH]; [reflexivity | exact IH]. }
    destruct (unique (col_lid meta)) as [ | l0 lids] eqn:Hu.
    + destruct meta; [contradiction | discriminate].
    + cbn [map]. change (List.concat ([] :: map (fun _ : Z => @nil Row) lids))
        with (List.concat (map (fun _ : Z => @nil Row) lids)).
      rewrite Hnil. reflexivity.
  - intros l _. rewrite cut_off_zero; [ | | assumption].
    + cbn [bind]. unfold iloc_to, slice_to. cbn. rewrite Z.min_l by lia. reflexivity.
    + pose proof (where_lid_length meta l). lia.
Qed.

(** X4 on concrete inputs. *)
Lemma subset_keep_zero_empties_table_witness :
  VideoDataset.subset Demo.table (Some (PyInt 0)) = Ok [] /\
  VideoDataset.subset Demo.table (Some (PyFloatV (S754_zero true))) = Ok [].
Proof.
  split.
  - apply (subset_keep_zero_empties_table Demo.table (PyInt 0)).
    + discriminate.
    + vm_compute. reflexivity.
    + left. reflexivity.
  - apply (subset_keep_zero_empties_table Demo.table (PyFloatV (S754_zero true))).
    + discriminate.
    + vm_compute. reflexivity.
    + right. exists true. reflexivity.
Defined.

(** The exceptions of the stratified subsetting: those of [round] and of
    [pd.concat]. *)
Lemma stratified_raise (meta : DataFrame) (keep : number) (e : exn) :
  VideoDataset._stratified_sample_meta meta keep = Raise e ->
  e = ValueError \/ e = OverflowError.
Proof.
  unfold VideoDataset._stratified_sample_meta.
  destruct (mapM _ _) as [samples | e'] eqn:Hm; cbn [bind].
  - unfold concat. destruct samples; [intros H; injection H as <-; tauto | ].
    destruct (has_duplicates _); [intros H; injection H as <-; tauto | discriminate].
  - intros H. injection H as <-. revert Hm.
    apply (mapM_raise (fun e => e = ValueError \/ e = OverflowError)).
    intros l e''.
    destruct (VideoDataset.cut_off _ keep) as [c | e3] eqn:Hc; cbn [bind]; [discriminate | ].
    intros H. injection H as <-.
    unfold VideoDataset.cut_off in Hc. destruct keep as [k | f]; [discriminate | ].
    unfold PyFloat.of_int in Hc.
    destruct (binary_normalize PyFloat.prec PyFloat.emax _ 0 false) as [s | s | | s m ex];
      cbn [bind] in Hc; try (injection Hc as <-; tauto).
    all: destruct (PyFloat.mul _ f) as [s' | s' | | s' m' ex']; simpl in Hc;
      try discriminate; injection Hc as <-; tauto.
Qed.

Section ConstructionErrors.
Context {ext : Collaborators}.

(** X5.  How construction fails once both assertions pass.  It raises
    [TypeError] exactly when [keep] is a float that fails the test
    [0 <= keep < 1] (so for 1.0, for a negative float and for NaN), since
    such a float becomes a slice bound; it raises nothing else than
    [ValueError] and [OverflowError], and these only when [keep] passes
    that test; without [keep], and with an integer [keep] outside the
    test, it always succeeds. *)
Theorem init_subsetting_errors (cut : PyFloat.float) (frame_size : Z)
        (data_opts : DataSetOptions) (sampling_opts : SamplingOptions) :
  VideoDataset.cut_in_range cut = true ->
  VideoDataset.known_setting (do_setting data_opts) = true ->
  (VideoDataset.__init__ cut frame_size data_opts sampling_opts = Raise TypeError <->
   exists f, do_keep data_opts = Some (PyFloatV f) /\
             VideoDataset.is_fraction (PyFloatV f) = false) /\
  (forall e, VideoDataset.__init__ cut frame_size data_opts sampling_opts = Raise e ->
             e <> TypeError ->
             (e = ValueError \/ e = OverflowError) /\
             exists k, do_keep data_opts = Some k /\ VideoDataset.is_fraction k = true) /\
  (do_keep data_opts = None \/
   (exists k, do_keep data_opts = Some (PyInt k) /\ (k < 0 \/ 1 <= k)) ->
   exists ds, VideoDataset.__init__ cut frame_size data_opts sampling_opts = Ok ds).
Proof.
  intros Hcut Hset. unfold VideoDataset.__init__. rewrite Hcut, Hset. cbn [negb].
  unfold VideoDataset.subset.
  destruct (do_keep data_opts) as [k | ] eqn:Hk.
  - destruct (VideoDataset.is_fraction k) eqn:Hf.
    + destruct (VideoDataset._stratified_sample_meta _ k) as [m | e0] eqn:Hs; cbn [bind].
      * split; [split; [discriminate | ] | split; [discriminate | ]].
        -- intros [f [Hkf Hff]]. injection Hkf as ->. congruence.
        -- intros [Hn | [k' [Hk' Hr]]]; [discriminate | ].
           injection Hk' as ->. simpl in Hf. lia.
      * apply stratified_raise in Hs.
        split; [split | split].
        -- intros H. injection H as ->. destruct Hs; discriminate.
        -- intros [f [Hkf Hff]]. injection Hkf as ->. congruence.
        -- intros e H _. injection H as <-. split; [assumption | ]. exists k. tauto.
        -- intros [Hn | [k' [Hk' Hr]]]; [discriminate | ].
           injection Hk' as ->. simpl in Hf. lia.
    + destruct k as [k | f]; cbn [VideoDataset.head_rows bind].
      * split; [split; [discriminate | ] | split; [discriminate | ]].
        -- intros [f [Hkf _]]. discriminate.
        -- intros _. eexists. reflexivity.
      * split; [split | split].
        -- intros _. exists f. tauto.
        -- reflexivity.
        -- intros e H Hne. injection H as <-. congruence.
        -- intros [Hn | [k' [Hk' Hr]]]; discriminate.
  - cbn [bind]. split; [split; [discriminate | ] | split; [discriminate | ]].
    + intros [f [Hkf _]]. discriminate.
    + intros _. eexists. reflexivity.
Qed.

End ConstructionErrors.

Section ConcreteConstructionErrors.
#[local] Existing Instance Demo.collaborators.
Local Open Scope string_scope.

(** X5 on concrete inputs. *)
Lemma init_subsetting_errors_witness :
  VideoDataset.__init__ PyFloat.one 224 (Demo.options "train" (Some (PyFloatV PyFloat.one)))
                        Demo.sampling = Raise TypeError /\
  exists ds, VideoDataset.__init__ PyFloat.one 224 (Demo.options "train" (Some (PyInt (-1))))
                                   Demo.sampling = Ok ds.
Proof.
  pose proof (init_subsetting_errors PyFloat.one 224
                (Demo.options "train" (Some (PyFloatV PyFloat.one))) Demo.sampling
                ltac:(vm_compute; reflexivity) ltac:(vm_compute; reflexivity)) as H1.
  pose proof (init_subsetting_errors PyFloat.one 224
                (Demo.options "train" (Some (PyInt (-1)))) Demo.sampling
                ltac:(vm_compute; reflexivity) ltac:(vm_compute; reflexivity)) as H2.
  split.
  - apply H1. exists PyFloat.one. split; [reflexivity | vm_compute; reflexivity].
  - apply H2. right. exists (-1). split; [reflexivity | lia].
Defined.

End ConcreteConstructionErrors.

(* ===================================================================== *)
(** * What the lookups hold *)
(* ===================================================================== *)

Module LookupFacts.

Lemma unseen_cons (seen : list Z) (x l : Z) :
  unseen (x :: seen) l = unseen seen l && negb (l =? x).
Proof.
  unfold unseen. cbn [count_occ].
  destruct (Z.eq_dec x l) as [-> | Hne].
  - rewrite Z.eqb_refl. cbn [negb]. rewrite andb_false_r. reflexivity.
  - replace (l =? x) with false by (symmetry; apply Z.eqb_neq; congruence).
    cbn [negb]. rewrite andb_true_r. reflexivity.
Qed.

Lemma filter_filter_unseen (seen : list Z) (x : Z) (U : list Z) :
  filter (unseen seen) (filter (fun y => negb (y =? x)) U) = filter (unseen (x :: seen)) U.
Proof.
  induction U as [ | a U IH]; [reflexivity | ].
  cbn [filter]. rewrite unseen_cons.
  destruct (negb (a =? x)); cbn [filter].
  - rewrite andb_true_r. destruct (unseen seen a); rewrite IH; reflexivity.
  - rewrite andb_false_r. exact IH.
Qed.

(** The classes of the rows that [head(1)] keeps, in order. *)
Lemma head_from_classes (df : DataFrame) : forall seen : list Z,
  map row_lid (groupby_lid_head_from seen 1 df) = filter (unseen seen) (unique (col_lid df)).
Proof.
  induction df as [ | r df IH]; intros seen; [reflexivity | ].
  cbn [groupby_lid_head_from col_lid map unique filter]. fold (col_lid df).
  fold (unseen seen (row_lid r)). rewrite filter_filter_unseen.
  destruct (unseen seen (row_lid r)); cbn [map]; rewrite IH; reflexivity.
Qed.

(** A row that [head(1)] keeps has no row of its class before it. *)
Lemma head_from_first (df : DataFrame) : forall (seen : list Z) (r : Row),
  In r (groupby_lid_head_from seen 1 df) ->
  exists before after,
    df = before ++ r :: after /\ ~ In (row_lid r) (col_lid before) /\ ~ In (row_lid r) seen.
Proof.
  induction df as [ | r0 df IH]; intros seen r Hin; [contradiction | ].
  cbn [groupby_lid_head_from] in Hin.
  assert (Hrec : In r (groupby_lid_head_from (row_lid r0 :: seen) 1 df) ->
                 exists before after,
                   r0 :: df = before ++ r :: after /\
                   ~ In (row_lid r) (col_lid before) /\ ~ In (row_lid r) seen).
  { intros H. destruct (IH _ _ H) as [before [after [-> [Hb Hs]]]].
    exists (r0 :: before), after. split; [reflexivity | ].
    cbn [In col_lid map] in *. fold (col_lid before). tauto. }
  destruct (count_occ Z.eq_dec seen (row_lid r0) <? 1)%nat eqn:Hc; [ | auto].
  destruct Hin as [-> | Hin]; [ | auto].
  exists [], df. split; [reflexivity | ]. split; [intros [] | ].
  apply Nat.ltb_lt in Hc. intros Hs.
  apply (count_occ_In Z.eq_dec) in Hs. lia.
Qed.

(** A key that occurs once selects its entry. *)
Lemma filter_unique_key {V : Type} (s : list (Z * V)) (k : Z) (v : V) :
  NoDup (map fst s) -> In (k, v) s -> filter (fun kv => fst kv =? k) s = [(k, v)].
Proof.
  induction s as [ | [k0 v0] s IH]; intros Hnd Hin; [contradiction | ].
  cbn [map fst] in Hnd. inversion Hnd as [ | ? ? Hnin Hnd']; subst.
  cbn [filter fst].
  destruct Hin as [Heq | Hin].
  - injection Heq as -> ->. rewrite Z.eqb_refl. f_equal.
    apply filter_none. intros [k1 v1] H1. cbn [fst]. apply Z.eqb_neq. intros ->.
    apply Hnin. apply in_map_iff. exists (k, v1). tauto.
  - destruct (Z.eqb_spec k0 k) as [-> | Hne].
    + exfalso. apply Hnin. apply in_map_iff. exists (k, v). tauto.
    + apply IH; assumption.
Qed.

(** Index labels stay distinct under [head]. *)
Lemma head_from_index_NoDup (df : DataFrame) (n : nat) : forall seen : list Z,
  NoDup (map row_index df) -> NoDup (map row_index (groupby_lid_head_from seen n df)).
Proof.
  induction df as [ | r df IH]; intros seen Hnd; [constructor | ].
  cbn [map] in Hnd. inversion Hnd as [ | ? ? Hnin Hnd']; subst.
  cbn [groupby_lid_head_from].
  destruct (count_occ Z.eq_dec seen (row_lid r) <? n)%nat; [ | auto].
  cbn [map]. constructor; [ | auto].
  intros Hin. apply Hnin. apply in_map_iff in Hin. destruct Hin as [r' [Hr' Hin]].
  apply in_map_iff. exists r'. split; [assumption | ]. eapply head_from_In. eassumption.
Qed.

End LookupFacts.

Import LookupFacts.

Section Lookups.
Context {ext : Collaborators}.

(** X6.  What the two lookups built by [__init__] hold.  There is one row
    of the table read from the file per class id of [lids], in the same
    order: the first row of that class.  [lid2labels] holds, for each of
    them, its index label and its label string, and [labels2lid] the
    same pairs turned around.  When the index labels of the table are
    distinct, [lid2labels] at the index label of such a row is its label
    string, and [labels2lid.loc] at that string returns index labels
    among which is that of the row. *)
Theorem lookups_hold_first_row_of_each_class
        (cut : PyFloat.float) (frame_size : Z) (data_opts : DataSetOptions)
        (sampling_opts : SamplingOptions) (ds : VideoDataset.t) :
  VideoDataset.__init__ cut frame_size data_opts sampling_opts = Ok ds ->
  let full := read_meta (do_meta_path data_opts) in
  exists firsts : list Row,
    map row_lid firsts = VideoDataset.lids ds /\
    VideoDataset.lid2labels ds = map (fun r => (row_index r, row_label r)) firsts /\
    lf_rows (VideoDataset.labels2lid ds) = map (fun r => (row_label r, row_index r)) firsts /\
    (forall r, In r firsts ->
       exists before after,
         full = before ++ r :: after /\ ~ In (row_lid r) (col_lid before)) /\
    (NoDup (map row_index full) ->
     forall r, In r firsts ->
       Series_getitem (VideoDataset.lid2labels ds) (row_index r) = Ok (Scalar (row_label r)) /\
       exists ks, LabelFrame_loc (VideoDataset.labels2lid ds) (row_label r) = Ok ks /\
                  In (row_index r) ks).
Proof.
  intros Hinit full. apply init_Ok_inv in Hinit. cbv zeta in Hinit. fold full in Hinit.
  destruct Hinit as [_ [_ [Hlids [Hl2l [Hlab _]]]]].
  exists (groupby_lid_head 1 full).
  rewrite Hlids, Hl2l, Hlab. unfold groupby_lid_label_head, groupby_lid_head.
  split; [ | split; [reflexivity | split; [ | split]]].
  - rewrite head_from_classes. apply filter_all. intros l _. reflexivity.
  - cbn [reset_index_set_index_label lf_rows]. rewrite map_map. reflexivity.
  - intros r Hr. destruct (head_from_first _ _ _ Hr) as [before [after [H1 [H2 _]]]].
    exists before, after. tauto.
  - intros Hnd r Hr. split.
    + unfold Series_getitem.
      rewrite (filter_unique_key _ (row_index r) (row_label r)).
      * reflexivity.
      * rewrite map_map. cbn [fst]. apply head_from_index_NoDup. assumption.
      * apply in_map_iff. exists r. tauto.
    + unfold LabelFrame_loc. cbn [reset_index_set_index_label lf_rows].
      rewrite map_map. cbn [fst snd].
      set (rows := map (fun r0 => (row_label r0, row_index r0)) (groupby_lid_head_from [] 1 full)).
      assert (Hin : In (row_label r, row_index r)
                       (filter (fun kv : string * Z => String.eqb (fst kv) (row_label r)) rows)).
      { apply filter_In. split.
        - apply in_map_iff. exists r. tauto.
        - apply String.eqb_refl. }
      destruct (filter _ rows) as [ | kv kvs] eqn:Hf; [contradiction | ].
      eexists. split; [reflexivity | ].
      apply in_map_iff. exists (row_label r, row_index r). tauto.
Qed.

End Lookups.

Section ConcreteLookups.
#[local] Existing Instance Demo.collaborators.
Local Open Scope string_scope.

(** X6 on concrete inputs. *)
Lemma lookups_hold_first_row_of_each_class_witness :
  exists firsts : list Row,
    map row_index firsts = [0; 2] /\
    map row_lid firsts = VideoDataset.lids Demo.dataset /\
    VideoDataset.lid2labels Demo.dataset = map (fun r => (row_index r, row_label r)) firsts.
Proof.
  destruct (lookups_hold_first_row_of_each_class
              PyFloat.one 224 (Demo.options "train" None) Demo.sampling Demo.dataset
              ltac:(reflexivity)) as [firsts [H1 [H2 _]]].
  exists firsts. split; [ | tauto].
  cbn [VideoDataset.lid2labels Demo.dataset] in H2.
  assert (H : map fst (map (fun r => (row_index r, row_label r)) firsts) = [0; 2])
    by (rewrite <- H2; reflexivity).
  rewrite map_map in H. exact H.
Defined.

End ConcreteLookups.

(* ===================================================================== *)
(** * Access by position *)
(* ===================================================================== *)

(** [iloc] with an integer: positions from [-len] to [len - 1], the
    negative ones counted from the end. *)
Lemma iloc_by_position (df : DataFrame) (item : Z) :
  let n := Z.of_nat (List.length df) in
  (item < - n \/ n <= item -> VideoDataset.iloc df item = Raise IndexError) /\
  (- n <= item < n ->
   exists row, nth_error df (Z.to_nat (item mod n)) = Some row /\
               VideoDataset.iloc df item = Ok row).
Proof.
  intros n. unfold VideoDataset.iloc. fold n. split.
  - intros Hout.
    destruct (Z.ltb_spec item 0).
    + replace (item + n <? 0) with true by (symmetry; apply Z.ltb_lt; lia). reflexivity.
    + replace (item <? 0) with false by (symmetry; apply Z.ltb_ge; lia).
      replace (n <=? item) with true by (symmetry; apply Z.leb_le; lia).
      reflexivity.
  - intros Hin.
    assert (Hmod : item mod n = if item <? 0 then item + n else item).
    { destruct (Z.ltb_spec item 0).
      - symmetry. apply Z.mod_unique with (q := -1); lia.
      - apply Z.mod_small. lia. }
    rewrite <- Hmod.
    assert (Hr : 0 <= item mod n < n) by (apply Z.mod_pos_bound; lia).
    replace (item mod n <? 0) with false by (symmetry; apply Z.ltb_ge; lia).
    replace (n <=? item mod n) with false by (symmetry; apply Z.leb_gt; lia).
    cbn [orb].
    destruct (nth_error df (Z.to_nat (item mod n))) as [row | ] eqn:Hnth.
    + exists row. tauto.
    + apply nth_error_None in Hnth. lia.
Qed.

Section Access.
Context {ext : Collaborators}.
Import ImgAug Augment AugmentFacts.

(** X7.  [dataset[item]] addresses the rows of the (subsetted) table by
    position.  Outside [-len, len) it raises [IndexError]; inside, a
    negative [item] counts from the end, an exception of the [Video]
    constructor is passed on unchanged, and otherwise the label returned
    carries the class id of the row at that position, the video carries
    the same metadata as the label, and has one tensor per decoded
    frame. *)
Theorem getitem_by_position (self : VideoDataset.t) (item : Z) (g : RandomState) :
  let n := Z.of_nat (VideoDataset.__len__ self) in
  (item < - n \/ n <= item -> VideoDataset.__getitem__ self item g = Raise IndexError) /\
  (- n <= item < n ->
   exists row,
     nth_error (VideoDataset.meta self) (Z.to_nat (item mod n)) = Some row /\
     match load_frames (row_meta row) (do_root_path (VideoDataset.do self))
                       (do_read_jpeg (VideoDataset.do self)) (VideoDataset.cut self)
                       (do_setting (VideoDataset.do self))
                       (so_num_segments (VideoDataset.so self)) g with
     | (Raise e, _) => VideoDataset.__getitem__ self item g = Raise e
     | (Ok frames, _) =>
         exists video label params g',
           VideoDataset.__getitem__ self item g = Ok (video, label, params, g') /\
           Label.data label = row_lid row /\
           Label.meta label = row_meta row /\
           Video.meta video = row_meta row /\
           List.length (Video.data video) = List.length frames
     end).
Proof.
  intros n. unfold n, VideoDataset.__len__.
  destruct (iloc_by_position (VideoDataset.meta self) item) as [Hout Hin].
  split.
  - intros H. unfold VideoDataset.__getitem__. rewrite (Hout H). reflexivity.
  - intros H. destruct (Hin H) as [row [Hnth Hrow]]. exists row. split; [assumption | ].
    unfold VideoDataset.__getitem__. rewrite Hrow. cbn [bind].
    destruct (load_frames _ _ _ _ _ _ g) as [[frames | e] g1]; cbn [bind]; [ | reflexivity].
    destruct (VideoDataset.aug self _ g1) as [[tensors params] g2] eqn:Haug.
    eexists _, _, _, _. split; [reflexivity | ].
    cbn. repeat split.
    unfold VideoDataset.aug in Haug. cbn [Video.data] in Haug.
    destruct (to_deterministic (VideoDataset.aug_seq self) g1) as [det g1'] eqn:Hdet.
    pose proof (to_deterministic_frozen (VideoDataset.aug_seq self) g1) as [Hfr _].
    rewrite Hdet in Hfr. cbn [fst] in Hfr.
    rewrite (augment_frames_frozen det frames g1' Hfr) in Haug.
    injection Haug as <- _ _. apply length_map.
Qed.

End Access.

Section ConcreteAccess.
#[local] Existing Instance Demo.collaborators.
Local Open Scope string_scope.

(** X7 on concrete inputs. *)
Lemma getitem_by_position_witness :
  VideoDataset.__getitem__ Demo.dataset 4 42 = Raise IndexError /\
  VideoDataset.__getitem__ Demo.dataset (-5) 42 = Raise IndexError /\
  exists video label params g',
    VideoDataset.__getitem__ Demo.dataset (-2) 42 = Ok (video, label, params, g') /\
    Label.data label = 9 /\
    List.length (Video.data video) = 2%nat.
Proof.
  split; [ | split].
  - apply (getitem_by_position Demo.dataset 4 42). vm_compute. right. discriminate.
  - apply (getitem_by_position Demo.dataset (-5) 42). vm_compute. left. reflexivity.
  - destruct (getitem_by_position Demo.dataset (-2) 42) as [_ H].
    destruct H as [row [Hrow H]]; [vm_compute; split; [discriminate | reflexivity] | ].
    vm_compute in Hrow. injection Hrow as <-.
    cbn [load_frames Demo.collaborators] in H.
    destruct H as [video [label [params [g' [Hg [Hl [_ [_ Hn]]]]]]]].
    exists video, label, params, g'. split; [exact Hg | split; [exact Hl | exact Hn]].
Defined.

End ConcreteAccess.

Section ListedClasses.
Context {ext : Collaborators}.

(** X19.  Every sample of a dataset has a class id that [lids] lists.
    [lids] is computed before the subsetting and holds each class id of
    the table read from the file once; the rows that the subsetting keeps
    are rows of that table, so the class id of every row of the dataset,
    and the target of every label that [dataset[item]] returns, is an
    entry of [lids].  The target is the class id itself, not its position
    in [lids]. *)
Theorem every_label_is_a_listed_class
        (cut : PyFloat.float) (frame_size : Z) (data_opts : DataSetOptions)
        (sampling_opts : SamplingOptions) (ds : VideoDataset.t) :
  VideoDataset.__init__ cut frame_size data_opts sampling_opts = Ok ds ->
  NoDup (VideoDataset.lids ds) /\
  (forall row, In row (VideoDataset.meta ds) -> In (row_lid row) (VideoDataset.lids ds)) /\
  (forall item g video label params g',
      VideoDataset.__getitem__ ds item g = Ok (video, label, params, g') ->
      In (Label.data label) (VideoDataset.lids ds) /\
      exists row, In row (VideoDataset.meta ds) /\ Label.data label = row_lid row /\
                  Video.meta video = row_meta row).
Proof.
  intros Hinit. apply init_Ok_inv in Hinit. cbv zeta in Hinit.
  destruct Hinit as [_ [Hsub [Hlids _]]].
  assert (Hrows : forall row, In row (VideoDataset.meta ds) ->
                              In (row_lid row) (VideoDataset.lids ds)).
  { intros row Hrow. rewrite Hlids. apply unique_In. unfold col_lid.
    apply in_map_iff. exists row. split; [reflexivity | ].
    destruct (subset_class_prefix _ _ _ Hsub (row_lid row)) as [m Hm].
    assert (Hin : In row (where_lid (VideoDataset.meta ds) (row_lid row))).
    { apply filter_In. split; [assumption | apply Z.eqb_refl]. }
    rewrite Hm in Hin. apply firstn_In in Hin. eapply where_lid_In. eassumption. }
  split; [rewrite Hlids; apply unique_NoDup | ].
  split; [exact Hrows | ].
  intros item g video label params g' Hget.
  unfold VideoDataset.__getitem__ in Hget.
  destruct (VideoDataset.iloc (VideoDataset.meta ds) item) as [row | e] eqn:Hrow;
    cbn [bind] in Hget; [ | discriminate].
  destruct (load_frames _ _ _ _ _ _ g) as [[frames | e] g1]; cbn [bind] in Hget;
    [ | discriminate].
  destruct (VideoDataset.aug ds _ g1) as [[tensors ps] g2].
  injection Hget as <- <- _ _.
  assert (Hin : In row (VideoDataset.meta ds)).
  { unfold VideoDataset.iloc in Hrow.
    destruct (_ || _); [discriminate | ].
    destruct (nth_error _ _) as [r | ] eqn:Hnth; [ | discriminate].
    injection Hrow as <-. eapply nth_error_In. eassumption. }
  split; [apply Hrows; assumption | ].
  exists row. repeat split; assumption.
Qed.

End ListedClasses.

Section ConcreteListedClasses.
#[local] Existing Instance Demo.collaborators.
Local Open Scope string_scope.

(** X19 on concrete inputs. *)
Lemma every_label_is_a_listed_class_witness :
  NoDup (VideoDataset.lids Demo.dataset) /\
  forall row, In row (VideoDataset.meta Demo.dataset) ->
              In (row_lid row) (VideoDataset.lids Demo.dataset).
Proof.
  destruct (every_label_is_a_listed_class PyFloat.one 224 (Demo.options "train" None)
              Demo.sampling Demo.dataset ltac:(reflexivity)) as [H1 [H2 _]].
  split; assumption.
Defined.

End ConcreteListedClasses.

(* ===================================================================== *)
(** * Augmentation of a clip *)
(* ===================================================================== *)

Section ClipAugmentation.
Context {ext : Collaborators}.
Import ImgAug Augment AugmentFacts.

(** [aug] in closed form: the deterministic copy is made first, and its
    parameters serve every frame. *)
Lemma aug_closed_form (self : VideoDataset.t) (video_data : list ndarray) (g : RandomState) :
  let det := fst (to_deterministic (VideoDataset.aug_seq self) g) in
  let g1 := snd (to_deterministic (VideoDataset.aug_seq self) g) in
  let ps := map (fun a => params_of a g1) (seq_children det) in
  VideoDataset.aug self video_data g
  = (map (fun f => Torch.to_tensor (apply_all (VideoDataset.ops self) ps f)) video_data,
     repeat ps (List.length video_data), g1).
Proof.
  intros det g1 ps. unfold VideoDataset.aug.
  pose proof (to_deterministic_frozen (VideoDataset.aug_seq self) g) as [Hfr Hops].
  fold det in Hfr, Hops. subst g1 ps.
  destruct (to_deterministic (VideoDataset.aug_seq self) g) as [det' g1'] eqn:Hd.
  cbn [fst snd] in *. subst det.
  rewrite (augment_frames_frozen det' video_data g1' Hfr). cbv zeta.
  unfold VideoDataset.ops. rewrite Hops. reflexivity.
Qed.

(** X8.  [aug] works frame by frame under one set of sampled parameters.
    From a given random state, the tensors of a clip made of two parts
    are the tensors of the first part followed by those of the second,
    there is one tensor per frame, in order, and the random state that
    [aug] leaves behind is the same whatever the frames are, and however
    many. *)
Theorem aug_frame_by_frame (self : VideoDataset.t) (part1 part2 : list ndarray)
        (g : RandomState) :
  fst (fst (VideoDataset.aug self (part1 ++ part2) g))
  = fst (fst (VideoDataset.aug self part1 g)) ++ fst (fst (VideoDataset.aug self part2 g)) /\
  List.length (fst (fst (VideoDataset.aug self part1 g))) = List.length part1 /\
  snd (VideoDataset.aug self part1 g) = snd (VideoDataset.aug self part2 g) /\
  snd (VideoDataset.aug self part1 g) = snd (to_deterministic (VideoDataset.aug_seq self) g).
Proof.
  rewrite !aug_closed_form. cbn [fst snd].
  rewrite map_app, length_map. repeat split.
Qed.

(** X9.  With setting ['eval'] the augmentation is the same on every call.
    The two augmenters pad and crop to 224 by 224 around the centre, so
    the tensors and the recorded parameters of [aug] do not depend on the
    random state. *)
Theorem eval_aug_ignores_random_state (cut : PyFloat.float) (frame_size : Z)
        (data_opts : DataSetOptions) (sampling_opts : SamplingOptions) (ds : VideoDataset.t) :
  VideoDataset.__init__ cut frame_size data_opts sampling_opts = Ok ds ->
  do_setting data_opts = "eval"%string ->
  forall (video_data : list ndarray) (g : RandomState),
    let centre := Offset PyFloat.half PyFloat.half in
    fst (VideoDataset.aug ds video_data g)
    = (map (fun f => Torch.to_tensor
                       (apply_params (CropToFixedSize 224 224 Center) centre
                          (apply_params (PadToFixedSize 224 224 Center) centre f)))
           video_data,
       repeat [centre; centre] (List.length video_data)).
Proof.
  intros Hinit Hset video_data g centre.
  apply init_Ok_inv in Hinit. cbv zeta in Hinit.
  destruct Hinit as [_ [_ [_ [_ [_ [Haug _]]]]]].
  rewrite Hset in Haug.
  rewrite aug_closed_form. cbn [fst].
  unfold VideoDataset.ops. rewrite Haug.
  unfold to_deterministic, VideoDataset._compose_aug_seq.
  cbn [String.eqb Ascii.eqb Bool.eqb seq_children children_to_deterministic
       VideoDataset.fresh aug_op map].
  destruct (new_random_state g) as [rs1 g1].
  destruct (new_random_state g1) as [rs2 g2].
  destruct (new_random_state g2) as [rs3 g3].
  cbn [fst snd seq_children map params_of aug_random_state aug_op draw_params apply_all].
  reflexivity.
Qed.

End ClipAugmentation.

Section ConcreteClipAugmentation.
#[local] Existing Instance Demo.collaborators.
Local Open Scope string_scope.
Import ImgAug Augment.

(** X9 on concrete inputs. *)
Lemma eval_aug_ignores_random_state_witness :
  VideoDataset.__init__ PyFloat.one 224 (Demo.options "eval" None) Demo.sampling
  = Ok Fixtures.eval_dataset /\
  fst (VideoDataset.aug Fixtures.eval_dataset [Demo.frame0; Demo.frame1] 1)
  = fst (VideoDataset.aug Fixtures.eval_dataset [Demo.frame0; Demo.frame1] 2).
Proof.
  assert (Hinit : VideoDataset.__init__ PyFloat.one 224 (Demo.options "eval" None)
                                        Demo.sampling = Ok Fixtures.eval_dataset)
    by reflexivity.
  split; [exact Hinit | ].
  rewrite (eval_aug_ignores_random_state _ _ _ _ _ Hinit eq_refl [Demo.frame0; Demo.frame1] 1).
  rewrite (eval_aug_ignores_random_state _ _ _ _ _ Hinit eq_refl [Demo.frame0; Demo.frame1] 2).
  reflexivity.
Defined.

End ConcreteClipAugmentation.

Section TensorLayout.
Context {ext : Collaborators}.
Import ImgAug Augment AugmentFacts TensorFacts.

(** X10.  The tensors of [aug] are channel-first copies of the augmented
    frames.  [aug] draws one parameter for each augmenter of the dataset,
    and records that list of parameters for every frame.  The tensor at
    position [i] is made from the frame at position [i] after the image
    operation of every augmenter, in order, each with its drawn
    parameter; it has shape (C, H, W) for an augmented image of shape
    (H, W, C), and its element (c, h, w) is the byte (h, w, c) of that
    image divided by 255. *)
Theorem aug_tensors_are_channel_first
        (self : VideoDataset.t) (video_data : list ndarray) (g : RandomState)
        (i : nat) (frame : ndarray) :
  nth_error video_data i = Some frame ->
  exists (ps : list Params),
    Forall2 (fun op p => exists rs : RandomState, p = draw_params op rs)
            (VideoDataset.ops self) ps /\
    snd (fst (VideoDataset.aug self video_data g)) = repeat ps (List.length video_data) /\
    let img := fold_left (fun im op_p => apply_params (fst op_p) (snd op_p) im)
                         (combine (VideoDataset.ops self) ps) frame in
    img = apply_all (VideoDataset.ops self) ps frame /\
    nth_error (fst (fst (VideoDataset.aug self video_data g))) i = Some (to_tensor img) /\
    t_shape (to_tensor img) = [nd_c img; nd_h img; nd_w img] /\
    forall c h w : nat,
      (c < nd_c img)%nat -> (h < nd_h img)%nat -> (w < nd_w img)%nat ->
      nth_error (t_elems (to_tensor img)) ((c * nd_h img + h) * nd_w img + w)
      = Some (F32 (normalize (nth ((h * nd_w img + w) * nd_c img + c) (nd_data img) x00))).
Proof.
  intros Hi. rewrite aug_closed_form. cbn [fst snd].
  eexists. split; [apply aug_parameters_drawn | ]. split; [reflexivity | ].
  cbv zeta. rewrite <- apply_all_in_turn. split; [reflexivity | ]. split; [ | split].
  - rewrite nth_error_map, Hi. reflexivity.
  - reflexivity.
  - intros c h w. apply to_tensor_channel_first.
Qed.

End TensorLayout.

Section ConcreteTensorLayout.
#[local] Existing Instance Demo.collaborators.
Import ImgAug Augment.

(** X10 on the dataset for evaluation: the second tensor of a clip of
    two frames is made from the second frame, padded and then cropped
    around the centre. *)
Lemma aug_tensors_are_channel_first_witness :
  let centre := Offset PyFloat.half PyFloat.half in
  nth_error (fst (fst (VideoDataset.aug Fixtures.eval_dataset [Demo.frame0; Demo.frame1] 42))) 1
  = Some (to_tensor (apply_params (CropToFixedSize 224 224 Center) centre
                       (apply_params (PadToFixedSize 224 224 Center) centre Demo.frame1))) /\
  snd (fst (VideoDataset.aug Fixtures.eval_dataset [Demo.frame0; Demo.frame1] 42))
  = [[centre; centre]; [centre; centre]].
Proof.
  destruct (aug_tensors_are_channel_first Fixtures.eval_dataset [Demo.frame0; Demo.frame1] 42
              1 Demo.frame1 eq_refl) as [ps [Hps [Hrec [_ [H _]]]]].
  change (VideoDataset.ops Fixtures.eval_dataset)
    with [PadToFixedSize 224 224 Center; CropToFixedSize 224 224 Center] in Hps, H.
  inversion Hps as [ | op1 p1 ops1 ps1 [rs1 Hp1] Hps1]; subst.
  inversion Hps1 as [ | op2 p2 ops2 ps2 [rs2 Hp2] Hps2]; subst.
  inversion Hps2; subst.
  split; [exact H | exact Hrec].
Defined.

End ConcreteTensorLayout.

(* ===================================================================== *)
(** * What a collated batch holds *)
(* ===================================================================== *)

Section BatchContents.
Context {release : Release}.

(** X11.  [collate] succeeds only on a uniform batch, and then it keeps the
    data in order.  If it returns, the batch is not empty, every video has
    the same positive number of frame tensors, all of one shape, and every
    class id fits 64 bits; the video tensor has the batch size and the
    frame count in front of the frame shape, and its elements are those of
    the frames, video after video and frame after frame; the label tensor
    holds the class ids in batch order; the videos and labels come back
    unchanged. *)
Theorem collate_returns_only_uniform_batches
        (batch : list sample) (videos_data labels_data : Tensor) (videos labels : list item) :
  collate batch = Ok (videos_data, labels_data, videos, labels) ->
  batch <> [] /\
  (exists (T : nat) (shp : list nat),
      (0 < T)%nat /\
      (forall s, In s batch ->
         List.length (Video.data (fst s)) = T /\
         forall t, In t (Video.data (fst s)) -> t_shape t = shp) /\
      t_shape videos_data = List.length batch :: T :: shp) /\
  (forall s, In s batch -> fits_int64 (Label.data (snd s)) = true) /\
  t_elems videos_data = flat_map (fun s => flat_map t_elems (Video.data (fst s))) batch /\
  t_elems labels_data = map (fun s => I64 (Label.data (snd s))) batch /\
  videos = map (fun s => ItemVideo (fst s)) batch /\
  labels = map (fun s => ItemLabel (snd s)) batch.
Proof.
  intros H.
  assert (Hne : batch <> []) by (intros ->; discriminate H).
  split; [assumption | ].
  rewrite (collate_unzipped batch Hne) in H.
  destruct (mapM (fun s : Video.t Tensor * Label.t => stack (Video.data (fst s))) batch)
    as [per_video | e] eqn:Hm; cbn [bind] in H; [ | discriminate].
  destruct (stack per_video) as [vd | e] eqn:Hs; cbn [bind] in H; [ | discriminate].
  destruct (tensor_int64 _) as [ld | e] eqn:Hl; cbn [bind] in H; [ | discriminate].
  injection H as <- <- <- <-.
  apply mapM_Ok in Hm.
  pose proof (stack_Ok_inv _ _ Hs) as [shp' [Hshp' Hvd]].
  pose proof (stack_Ok_elems _ _ Hs) as [_ Hel].
  assert (Hlen : List.length per_video = List.length batch).
  { symmetry. eapply Forall2_length. eassumption. }
  split; [ | split; [ | split; [ | split; [ | split; reflexivity]]]].
  - destruct batch as [ | s0 batch0]; [contradiction | ].
    inversion Hm as [ | ? y0 ? per0 Hs0 Hm0]; subst.
    pose proof (stack_Ok_inv _ _ Hs0) as [shp [Hshp Hy0]].
    pose proof (stack_Ok_elems _ _ Hs0) as [Hne0 _].
    exists (List.length (Video.data (fst s0))), shp.
    assert (Hshape : shp' = List.length (Video.data (fst s0)) :: shp).
    { rewrite <- Hy0. symmetry. apply Hshp'. left. reflexivity. }
    split; [destruct (Video.data (fst s0)); [contradiction | simpl; lia] | ].
    split.
    + intros s Hin.
      destruct (Forall2_In_left _ _ _ s Hm Hin) as [y [Hy Hsy]].
      pose proof (stack_Ok_inv _ _ Hsy) as [shp1 [Hshp1 Hy1]].
      rewrite (Hshp' y Hy), Hshape in Hy1. injection Hy1 as Hl1 Hs1.
      split; [congruence | ]. intros t Ht. rewrite Hs1. apply Hshp1. assumption.
    + rewrite Hvd, Hlen, Hshape. reflexivity.
  - intros s Hin. unfold tensor_int64 in Hl.
    destruct (forallb fits_int64 _) eqn:Hfit; [ | discriminate].
    rewrite forallb_forall in Hfit. apply Hfit. apply in_map_iff. exists s. tauto.
  - rewrite Hel. apply per_video_elems. assumption.
  - unfold tensor_int64 in Hl.
    destruct (forallb fits_int64 _); [ | discriminate].
    injection Hl as <-. cbn [t_elems]. apply map_map.
Qed.

(** X12.  Where [collate] fails, and with what.  An empty batch raises
    [ValueError], at the unpacking of the transposed batch.  A non-empty
    batch fails at the stacking, with the [RuntimeError] of [torch.stack],
    and then its videos do not all have one positive number of frame
    tensors of one shape; or, its videos being uniform, it fails at the
    label tensor, and then some class id does not fit 64 bits and the
    exception is the one that [torch.tensor] raises for it in the release
    of torch at hand: [RuntimeError] up to torch 2.0, [ValueError] in
    later releases.  No other exception is raised. *)
Theorem collate_fails_at_unpacking_stacking_or_labels (batch : list sample) (e : exn) :
  collate batch = Raise e ->
  (batch = [] /\ e = ValueError) \/
  (batch <> [] /\ e = RuntimeError /\
   ~ exists (T : nat) (shp : list nat),
       (0 < T)%nat /\
       forall s, In s batch ->
         List.length (Video.data (fst s)) = T /\
         forall t, In t (Video.data (fst s)) -> t_shape t = shp) \/
  (batch <> [] /\ e = int64_overflow /\
   (exists (T : nat) (shp : list nat),
       (0 < T)%nat /\
       forall s, In s batch ->
         List.length (Video.data (fst s)) = T /\
         forall t, In t (Video.data (fst s)) -> t_shape t = shp) /\
   exists s, In s batch /\ fits_int64 (Label.data (snd s)) = false).
Proof.
  destruct batch as [ | s0 batch0].
  - intros H. left. split; [reflexivity | ]. cbv in H. congruence.
  - intros H. right.
    assert (Hne : s0 :: batch0 <> []) by discriminate.
    revert H Hne. generalize (s0 :: batch0) as batch. intros batch H Hne.
    rewrite collate_unzipped in H by assumption.
    destruct (mapM (fun s : Video.t Tensor * Label.t => stack (Video.data (fst s))) batch)
      as [per_video | e1] eqn:Hm; cbn [bind] in H.
    + destruct (stack per_video) as [vd | e2] eqn:Hs; cbn [bind] in H.
      * right. split; [assumption | ].
        unfold tensor_int64 in H.
        destruct (forallb fits_int64 _) eqn:Hfit; cbn [bind] in H; [discriminate | ].
        injection H as <-. split; [reflexivity | ].
        split; [exact (stacked_batch_uniform batch per_video vd Hne Hm Hs) | ].
        destruct (some_id_overflows _ Hfit) as [z [Hz Hbig]].
        apply in_map_iff in Hz. destruct Hz as [s [<- Hin]].
        exists s. split; assumption.
      * left. split; [assumption | ]. injection H as <-.
        split; [eapply stack_raises; eassumption | ].
        intros [T [shp [HT Hframes]]].
        destruct (uniform_batch_stacks batch T shp Hne HT Hframes)
          as [pv [vd [Hpv [Hvd _]]]].
        rewrite Hm in Hpv. injection Hpv as <-. rewrite Hs in Hvd. discriminate.
    + left. split; [assumption | ]. injection H as <-. split.
      * revert Hm. apply (mapM_raise (fun e => e = RuntimeError)).
        intros s e'. apply stack_raises.
      * intros [T [shp [HT Hframes]]].
        destruct (uniform_batch_stacks batch T shp Hne HT Hframes) as [pv [vd [Hpv _]]].
        rewrite Hm in Hpv. discriminate.
Qed.

End BatchContents.

Section ConcreteBatchContents.
#[local] Existing Instance Demo.torch_later.

(** X11 on concrete inputs. *)
Lemma collate_returns_only_uniform_batches_witness :
  exists videos_data labels_data videos labels,
    collate [Demo.sample2; Demo.sample2'] = Ok (videos_data, labels_data, videos, labels) /\
    t_shape videos_data = [2; 2; 3; 1; 2]%nat /\
    t_elems videos_data
    = flat_map (fun s => flat_map t_elems (Video.data (fst s))) [Demo.sample2; Demo.sample2'] /\
    t_elems labels_data = [I64 7; I64 9].
Proof.
  destruct (collate [Demo.sample2; Demo.sample2']) as [[[[vd ld] vs] ls] | e] eqn:H;
    [ | vm_compute in H; discriminate H].
  exists vd, ld, vs, ls. split; [reflexivity | ].
  pose proof (collate_returns_only_uniform_batches _ _ _ _ _ H) as [_ [_ [_ [He [Hl _]]]]].
  split; [ | split; [exact He | exact Hl]].
  vm_compute in H. injection H as <- _ _ _. reflexivity.
Defined.

(** X12 on concrete inputs, in a release of torch after 2.0: a video of
    two frames with a video of one frame stops the stacking, and a class
    id of [2 ^ 63] stops the label tensor with a [ValueError] although
    the batch is not empty. *)
Lemma collate_fails_at_unpacking_stacking_or_labels_witness :
  (collate [Demo.sample2; Demo.sample1] = Raise RuntimeError /\
   ~ exists (T : nat) (shp : list nat),
       (0 < T)%nat /\
       forall s, In s [Demo.sample2; Demo.sample1] ->
         List.length (Video.data (fst s)) = T /\
         forall t, In t (Video.data (fst s)) -> t_shape t = shp) /\
  (collate [(Demo.video [Demo.frame0], Label.__init__ (Demo.clip 100 "push" (2 ^ 63)))]
   = Raise ValueError /\
   exists s,
     In s [(Demo.video [Demo.frame0], Label.__init__ (Demo.clip 100 "push" (2 ^ 63)))] /\
     fits_int64 (Label.data (snd s)) = false).
Proof.
  assert (H1 : collate [Demo.sample2; Demo.sample1] = Raise RuntimeError)
    by (vm_compute; reflexivity).
  assert (H2 : collate [(Demo.video [Demo.frame0],
                         Label.__init__ (Demo.clip 100 "push" (2 ^ 63)))] = Raise ValueError)
    by (vm_compute; reflexivity).
  split; (split; [assumption | ]).
  - destruct (collate_fails_at_unpacking_stacking_or_labels _ _ H1)
      as [[H _] | [[_ [_ H]] | [_ [H _]]]];
      [discriminate H | exact H | discriminate H].
  - destruct (collate_fails_at_unpacking_stacking_or_labels _ _ H2)
      as [[H _] | [[_ [H _]] | [_ [_ [_ H]]]]];
      [discriminate H | discriminate H | exact H].
Defined.

End ConcreteBatchContents.

(* ===================================================================== *)
(** * From the dataset to a batch *)
(* ===================================================================== *)

Section SampleAt.
Context {ext : Collaborators}.
Import ImgAug Augment AugmentFacts.

(** A sample at a position whose row loads. *)
Lemma getitem_of_row (self : VideoDataset.t) (item : Z) (g g1 : RandomState)
      (row : Row) (frames : list ndarray) :
  VideoDataset.iloc (VideoDataset.meta self) item = Ok row ->
  load_frames (row_meta row) (do_root_path (VideoDataset.do self))
              (do_read_jpeg (VideoDataset.do self)) (VideoDataset.cut self)
              (do_setting (VideoDataset.do self))
              (so_num_segments (VideoDataset.so self)) g = (Ok frames, g1) ->
  exists video params g',
    VideoDataset.__getitem__ self item g = Ok (video, Label.__init__ (row_meta row), params, g') /\
    Video.meta video = row_meta row /\
    List.length (Video.data video) = List.length frames.
Proof.
  intros Hrow Hload. unfold VideoDataset.__getitem__. rewrite Hrow. cbn [bind].
  rewrite Hload. cbn [bind].
  destruct (VideoDataset.aug self _ g1) as [[tensors params] g2] eqn:Haug.
  eexists _, _, _. split; [reflexivity | ]. split; [reflexivity | ].
  cbn [Video.set_data Video.data] in *.
  rewrite aug_closed_form in Haug. injection Haug as <- _ _. apply length_map.
Qed.

End SampleAt.

Section Pipeline.
Context {ext : Collaborators} {release : Release}.
Import ImgAug Augment AugmentFacts TensorFacts.

(** X20.  Samples of one dataset collate into a batch of shape
    (B, T, C, H, W).  Take any non-empty list of samples that
    [dataset[item]] returned, for whatever items and random states.  When
    every clip of the dataset decodes to [T > 0] frames, the image
    operations of the augmenters of the dataset, each with a parameter
    drawn for it, bring each of these frames to height [H], width [W]
    and [C] channels, and the class ids fit 64 bits, then [collate]
    returns: the video tensor has shape (B, T, C, H, W) and elements
    between 0 and 1, and the label tensor has one class id of the table
    per sample. *)
Theorem collate_of_dataset_samples
        (self : VideoDataset.t) (batch : list sample) (T H W C : nat) :
  batch <> [] ->
  (0 < T)%nat ->
  (forall s, In s batch ->
     exists item g params g',
       VideoDataset.__getitem__ self item g = Ok (fst s, snd s, params, g')) ->
  (forall row g frames g1,
     In row (VideoDataset.meta self) ->
     load_frames (row_meta row) (do_root_path (VideoDataset.do self))
                 (do_read_jpeg (VideoDataset.do self)) (VideoDataset.cut self)
                 (do_setting (VideoDataset.do self))
                 (so_num_segments (VideoDataset.so self)) g = (Ok frames, g1) ->
     List.length frames = T /\
     forall frame ps, In frame frames ->
       Forall2 (fun op p => exists rs : RandomState, p = draw_params op rs)
               (VideoDataset.ops self) ps ->
       let img := apply_all (VideoDataset.ops self) ps frame in
       nd_h img = H /\ nd_w img = W /\ nd_c img = C) ->
  (forall row, In row (VideoDataset.meta self) -> fits_int64 (row_lid row) = true) ->
  exists videos_data labels_data,
    collate batch = Ok (videos_data, labels_data,
                        map (fun s => ItemVideo (fst s)) batch,
                        map (fun s => ItemLabel (snd s)) batch) /\
    t_shape videos_data = [List.length batch; T; C; H; W] /\
    forallb in_unit_interval (t_elems videos_data) = true /\
    t_shape labels_data = [List.length batch] /\
    t_elems labels_data = map (fun s => I64 (Label.data (snd s))) batch /\
    forall s, In s batch ->
      exists row, In row (VideoDataset.meta self) /\ Label.data (snd s) = row_lid row.
Proof.
  intros Hne HT Hfrom Hload Hfit.
  assert (Hsample : forall s, In s batch ->
            exists row frames ps,
              In row (VideoDataset.meta self) /\
              Label.data (snd s) = row_lid row /\
              List.length frames = T /\
              (forall frame, In frame frames ->
                 let img := apply_all (VideoDataset.ops self) ps frame in
                 nd_h img = H /\ nd_w img = W /\ nd_c img = C) /\
              Video.data (fst s)
              = map (fun f => to_tensor (apply_all (VideoDataset.ops self) ps f)) frames).
  { intros s Hs. destruct (Hfrom s Hs) as [item [g [params [g' Hget]]]].
    unfold VideoDataset.__getitem__ in Hget.
    destruct (VideoDataset.iloc (VideoDataset.meta self) item) as [row | e] eqn:Hrow;
      cbn [bind] in Hget; [ | discriminate].
    destruct (load_frames _ _ _ _ _ _ g) as [[frames | e] g1] eqn:Hfr; cbn [bind] in Hget;
      [ | discriminate].
    rewrite aug_closed_form in Hget. cbn [Video.data] in Hget.
    injection Hget as Hv Hl _ _.
    assert (Hin : In row (VideoDataset.meta self)).
    { unfold VideoDataset.iloc in Hrow.
      destruct (_ || _); [discriminate | ].
      destruct (nth_error _ _) as [r | ] eqn:Hnth; [ | discriminate].
      injection Hrow as <-. eapply nth_error_In. eassumption. }
    destruct (Hload row g frames g1 Hin Hfr) as [HlenT Himg].
    exists row, frames,
      (map (fun a => params_of a (snd (to_deterministic (VideoDataset.aug_seq self) g1)))
           (seq_children (fst (to_deterministic (VideoDataset.aug_seq self) g1)))).
    split; [assumption | ].
    split; [rewrite <- Hl; reflexivity | ].
    split; [assumption | ].
    split; [intros frame Hframe; apply Himg; [assumption | apply aug_parameters_drawn] | ].
    rewrite <- Hv. reflexivity. }
  destruct (collate_uniform batch T [C; H; W] Hne HT) as [vd [ld [Hc [Hs1 [He [_ Hld]]]]]].
  - intros s Hs. destruct (Hsample s Hs) as [row [frames [ps [_ [_ [HlenT [Himg Hdata]]]]]]].
    rewrite Hdata. split; [rewrite length_map; assumption | ].
    intros t Ht. apply in_map_iff in Ht. destruct Ht as [f [<- Hf]].
    destruct (Himg f Hf) as [Hh [Hw Hch]]. cbn [to_tensor t_shape].
    rewrite Hh, Hw, Hch. reflexivity.
  - intros s Hs. destruct (Hsample s Hs) as [row [_ [_ [Hin [Hl _]]]]].
    rewrite Hl. apply Hfit. assumption.
  - exists vd, ld. split; [assumption | ]. split; [assumption | ].
    split; [ | rewrite Hld; split; [reflexivity | split; [reflexivity | ]]].
    + rewrite He. apply forallb_forall. intros x Hx.
      apply in_flat_map in Hx. destruct Hx as [s [Hs Hx]].
      apply in_flat_map in Hx. destruct Hx as [t [Ht Hx]].
      destruct (Hsample s Hs) as [_ [frames [ps [_ [_ [_ [_ Hdata]]]]]]].
      rewrite Hdata in Ht. apply in_map_iff in Ht. destruct Ht as [f [<- _]].
      destruct (to_tensor_spec (apply_all (VideoDataset.ops self) ps f)) as [_ [_ Hunit]].
      rewrite forallb_forall in Hunit. apply Hunit. assumption.
    + intros s Hs. destruct (Hsample s Hs) as [row [_ [_ [Hin [Hl _]]]]].
      exists row. tauto.
Qed.

End Pipeline.

Section ConcretePipeline.
#[local] Existing Instance Fixtures.resizing.
#[local] Existing Instance Demo.torch_later.
Local Open Scope string_scope.
Import ImgAug Augment.

Example init_builds_resizing_dataset :
  VideoDataset.__init__ PyFloat.one 224 (Demo.options "train" None) Demo.sampling
  = Ok Fixtures.resizing_dataset.
Proof. reflexivity. Qed.

(** The frames of [Demo], of height 1 and width 2, are padded. *)
Example pad_resizes_the_frame :
  nd_h (apply_params (PadToFixedSize 224 224 Uniform) (Offset PyFloat.half PyFloat.half)
                     Demo.frame0) = 224%nat /\
  nd_w (apply_params (PadToFixedSize 224 224 Uniform) (Offset PyFloat.half PyFloat.half)
                     Demo.frame0) = 224%nat /\
  nd_h Demo.frame0 = 1%nat /\ nd_w Demo.frame0 = 2%nat.
Proof. repeat split. Qed.

Lemma image_op_height (op : AugOp) (p : Params) (img : ndarray) :
  nd_h (Demo.image_op op p img) = nd_h img.
Proof. destruct p as [x y | [ | ] | v]; reflexivity. Qed.

Lemma image_op_width (op : AugOp) (p : Params) (img : ndarray) :
  nd_w (Demo.image_op op p img) = nd_w img.
Proof. destruct p as [x y | [ | ] | v]; reflexivity. Qed.

Lemma image_op_channels (op : AugOp) (p : Params) (img : ndarray) :
  nd_c (Demo.image_op op p img) = nd_c img.
Proof. destruct p as [x y | [ | ] | v]; reflexivity. Qed.

(** The six augmenters for training bring every image to 224 by 224. *)
Lemma training_ops_resize (ps : list Params) (frame : ndarray) :
  Forall2 (fun op p => exists rs : RandomState, p = draw_params op rs)
          (VideoDataset.ops Fixtures.resizing_dataset) ps ->
  nd_h (apply_all (VideoDataset.ops Fixtures.resizing_dataset) ps frame) = 224%nat /\
  nd_w (apply_all (VideoDataset.ops Fixtures.resizing_dataset) ps frame) = 224%nat /\
  nd_c (apply_all (VideoDataset.ops Fixtures.resizing_dataset) ps frame) = nd_c frame.
Proof.
  change (VideoDataset.ops Fixtures.resizing_dataset)
    with [PadToFixedSize 224 224 Uniform; CropToFixedSize 224 224 Uniform;
          Fliplr PyFloat.half; Flipud PyFloat.half; Add (-25) 25;
          AddToHueAndSaturation (-25) 25].
  intros H.
  repeat match goal with
         | Hall : Forall2 _ _ _ |- _ => inversion Hall; clear Hall; subst
         end.
  cbn [apply_all apply_params Fixtures.resizing Fixtures.resizing_op].
  rewrite !image_op_height, !image_op_width, !image_op_channels.
  cbn [Fixtures.resized nd_h nd_w nd_c].
  change (Z.to_nat 224) with 224%nat.
  repeat split; lia.
Qed.

(** X20 on two samples of the dataset whose image operations resize:
    the frames, decoded with height 1 and width 2, come out at 224 by
    224. *)
Lemma collate_of_dataset_samples_witness :
  exists s0 s1 videos_data labels_data,
    (exists params g',
        VideoDataset.__getitem__ Fixtures.resizing_dataset 0 42
        = Ok (fst s0, snd s0, params, g')) /\
    (exists params g',
        VideoDataset.__getitem__ Fixtures.resizing_dataset 2 7
        = Ok (fst s1, snd s1, params, g')) /\
    collate [s0; s1] = Ok (videos_data, labels_data,
                           map (fun s => ItemVideo (fst s)) [s0; s1],
                           map (fun s => ItemLabel (snd s)) [s0; s1]) /\
    t_shape videos_data = [2; 2; 3; 224; 224]%nat /\
    forallb in_unit_interval (t_elems videos_data) = true /\
    t_elems labels_data = [I64 7; I64 9].
Proof.
  destruct (getitem_of_row Fixtures.resizing_dataset 0 42 (Demo.lcg 42)
              (mkRow 0 (Demo.clip 100 "push" 7)) [Demo.frame0; Demo.frame1]
              eq_refl eq_refl) as [v0 [p0 [g0 [H0 _]]]].
  destruct (getitem_of_row Fixtures.resizing_dataset 2 7 (Demo.lcg 7)
              (mkRow 2 (Demo.clip 102 "pull" 9)) [Demo.frame0; Demo.frame1]
              eq_refl eq_refl) as [v1 [p1 [g1 [H1 _]]]].
  destruct (collate_of_dataset_samples
              Fixtures.resizing_dataset
              [(v0, Label.__init__ (Demo.clip 100 "push" 7));
               (v1, Label.__init__ (Demo.clip 102 "pull" 9))] 2 224 224 3)
    as [vd [ld [Hc [Hs [Hu [_ [Hl _]]]]]]].
  - discriminate.
  - lia.
  - intros s [<- | [<- | []]].
    + exists 0, 42, p0, g0. exact H0.
    + exists 2, 7, p1, g1. exact H1.
  - intros row g frames g1' _ Hfr. cbn [load_frames Fixtures.resizing] in Hfr.
    injection Hfr as <- _. split; [reflexivity | ].
    intros frame ps Hframe Hps. cbv zeta.
    destruct (training_ops_resize ps frame Hps) as [E1 [E2 E3]].
    rewrite E1, E2, E3.
    destruct Hframe as [<- | [<- | []]]; repeat split.
  - intros row Hrow. cbn in Hrow.
    destruct Hrow as [<- | [<- | [<- | [<- | []]]]]; reflexivity.
  - exists (v0, Label.__init__ (Demo.clip 100 "push" 7)),
           (v1, Label.__init__ (Demo.clip 102 "pull" 9)), vd, ld.
    split; [exists p0, g0; exact H0 | ].
    split; [exists p1, g1; exact H1 | ].
    split; [exact Hc | ]. split; [exact Hs | ]. split; [exact Hu | ].
    rewrite Hl. reflexivity.
Defined.

End ConcretePipeline.

(* ===================================================================== *)
(** * Sampling a batch *)
(* ===================================================================== *)

Module SamplingFacts.
Import Sampling.

(** In an index without repeated labels a label is found where it is. *)
Lemma positions_from_unique (index : list Z) (label : Z) : forall (start p : nat),
  NoDup index -> nth_error index p = Some label ->
  positions_from start index label = [(start + p)%nat].
Proof.
  induction index as [ | i index IH]; intros start p Hnd Hp.
  - destruct p; discriminate.
  - inversion Hnd as [ | ? ? Hnin Hnd']; subst. cbn [positions_from].
    destruct p as [ | p]; cbn [nth_error] in Hp.
    + injection Hp as ->. rewrite Z.eqb_refl. rewrite Nat.add_0_r. f_equal.
      clear IH Hnd Hnd'. revert start.
      induction index as [ | j index IH]; intros start; [reflexivity | ].
      cbn [positions_from].
      destruct (Z.eqb_spec j label) as [-> | Hne]; [exfalso; apply Hnin; left; reflexivity | ].
      apply IH. intros H. apply Hnin. right. assumption.
    + destruct (Z.eqb_spec i label) as [-> | Hne].
      * exfalso. apply Hnin. eapply nth_error_In. eassumption.
      * rewrite (IH (S start) p Hnd' Hp). f_equal. lia.
Qed.

Lemma get_loc_unique (df : DataFrame) (p : nat) (row : Row) :
  NoDup (map row_index df) -> nth_error df p = Some row ->
  get_loc (map row_index df) (row_index row) = Ok (At p).
Proof.
  intros Hnd Hp. unfold get_loc.
  rewrite (positions_from_unique _ _ 0 p Hnd).
  - reflexivity.
  - rewrite nth_error_map, Hp. reflexivity.
Qed.

(** [take] at positions inside the table. *)
Lemma take_inside (df : DataFrame) (positions : list nat) :
  (forall p, In p positions -> (p < List.length df)%nat) ->
  exists rows, take df positions = Ok rows /\
               Forall2 (fun p r => nth_error df p = Some r) positions rows.
Proof.
  unfold take. induction positions as [ | p positions IH]; intros Hin.
  - exists []. split; [reflexivity | constructor].
  - destruct IH as [rows [Hrows Hall]]; [intros q Hq; apply Hin; right; assumption | ].
    destruct (nth_error df p) as [r | ] eqn:Hp.
    + exists (r :: rows). cbn [mapM]. rewrite Hp. cbn [bind]. rewrite Hrows. cbn [bind].
      split; [reflexivity | constructor; assumption].
    + apply nth_error_None in Hp. specialize (Hin p (or_introl eq_refl)). lia.
Qed.

(** Rows taken at distinct positions of a table without repeated index
    labels have distinct index labels. *)
Lemma taken_rows_distinct (df : DataFrame) (positions : list nat) (rows : list Row) :
  NoDup (map row_index df) -> NoDup positions ->
  Forall2 (fun p r => nth_error df p = Some r) positions rows ->
  NoDup (map row_index rows) /\ incl rows df /\ List.length rows = List.length positions.
Proof.
  intros Hnd Hpos Hall.
  induction Hall as [ | p r positions rows Hp Hall IH].
  - split; [constructor | split; [intros x [] | reflexivity]].
  - inversion Hpos as [ | ? ? Hnin Hpos']; subst.
    destruct (IH Hpos') as [IH1 [IH2 IH3]].
    split; [ | split].
    + cbn [map]. constructor; [ | assumption].
      intros Hin. apply in_map_iff in Hin. destruct Hin as [r' [Hr' Hin]].
      apply Hnin.
      clear - Hnd Hp Hall Hr' Hin.
      induction Hall as [ | q r1 positions rows Hq Hall IH]; [contradiction | ].
      destruct Hin as [-> | Hin]; [ | right; apply IH; assumption].
      left. apply (proj1 (NoDup_nth_error (map row_index df)) Hnd).
      * apply nth_error_Some. rewrite nth_error_map, Hq. discriminate.
      * rewrite !nth_error_map, Hq, Hp. cbn. congruence.
    + intros x [<- | Hx]; [eapply nth_error_In; eassumption | apply IH2; assumption].
    + cbn [List.length]. congruence.
Qed.

End SamplingFacts.

Import SamplingFacts.

Section BatchSampling.
Context {ext : Collaborators} {insp : Inspection}.
Import Sampling ImgAug Augment AugmentFacts.

Lemma get_batch_rows_ok (self : VideoDataset.t) (rows : list Row) :
  NoDup (map row_index (VideoDataset.meta self)) ->
  all_load self ->
  incl rows (VideoDataset.meta self) ->
  forall g, exists videos labels g',
    get_batch_rows self rows g = Ok (videos, labels, g') /\
    map Video.meta videos = map row_meta rows /\
    map Label.meta labels = map row_meta rows /\
    map Label.data labels = map row_lid rows.
Proof.
  intros Hnd Hload. induction rows as [ | row rows IH]; intros Hincl g.
  - exists [], [], g. repeat split.
  - assert (Hin : In row (VideoDataset.meta self)) by (apply Hincl; left; reflexivity).
    destruct (In_nth_error _ _ Hin) as [p Hp].
    cbn [get_batch_rows]. rewrite (get_loc_unique _ p row Hnd Hp). cbn [bind getitem_at].
    assert (Hrow : VideoDataset.iloc (VideoDataset.meta self) (Z.of_nat p) = Ok row).
    { assert (Hlt : (p < List.length (VideoDataset.meta self))%nat)
        by (apply nth_error_Some; rewrite Hp; discriminate).
      destruct (iloc_by_position (VideoDataset.meta self) (Z.of_nat p)) as [_ Hi].
      destruct Hi as [row' [Hnth Hi]]; [lia | ].
      rewrite Z.mod_small, Nat2Z.id in Hnth by lia. congruence. }
    destruct (Hload row g Hin) as [frames [g1 Hfr]].
    destruct (getitem_of_row self _ g g1 row frames Hrow Hfr) as [video [params [g2 [Hg [Hm _]]]]].
    rewrite Hg. cbn [bind].
    destruct (IH (fun x Hx => Hincl x (or_intror Hx)) g2)
      as [videos [labels [g3 [Hrec [Hv [Hl Hd]]]]]].
    rewrite Hrec. cbn [bind].
    exists (video :: videos), (Label.__init__ (row_meta row) :: labels), g3.
    split; [reflexivity | ]. cbn [map]. rewrite Hv, Hl, Hd, Hm. repeat split.
Qed.

(** X13.  [get_batch(n)] returns [n] distinct clips with their labels.  A
    negative [n], or one above the length of the dataset, raises
    [ValueError] before any clip is read.  Otherwise, when the index
    labels of the table are distinct and its clips load, the two lists
    returned have [n] entries each; entry by entry the video and the label
    carry the metadata of one row of the table, the label its class id;
    and no row is drawn twice. *)
Theorem get_batch_draws_distinct_rows (self : VideoDataset.t) (n : Z) (g : RandomState) :
  (n < 0 \/ Z.of_nat (VideoDataset.__len__ self) < n ->
   get_batch self n g = Raise ValueError) /\
  ((forall len g0, Permutation (fst (permutation len g0)) (seq 0 len)) ->
   NoDup (map row_index (VideoDataset.meta self)) ->
   all_load self ->
   0 <= n <= Z.of_nat (VideoDataset.__len__ self) ->
   exists videos labels g' rows,
     get_batch self n g = Ok (videos, labels, g') /\
     List.length videos = Z.to_nat n /\
     List.length labels = Z.to_nat n /\
     map Video.meta videos = map row_meta rows /\
     map Label.meta labels = map row_meta rows /\
     map Label.data labels = map row_lid rows /\
     incl rows (VideoDataset.meta self) /\
     NoDup (map row_index rows)).
Proof.
  unfold VideoDataset.__len__. split.
  - intros Hn. unfold get_batch, sample.
    destruct (Z.ltb_spec n 0); [reflexivity | ].
    replace (Z.of_nat (List.length (VideoDataset.meta self)) <? n) with true
      by (symmetry; apply Z.ltb_lt; lia).
    reflexivity.
  - intros Hperm Hnd Hload Hn. unfold get_batch, sample.
    replace (n <? 0) with false by (symmetry; apply Z.ltb_ge; lia).
    replace (Z.of_nat (List.length (VideoDataset.meta self)) <? n) with false
      by (symmetry; apply Z.ltb_ge; lia).
    specialize (Hperm (List.length (VideoDataset.meta self)) g).
    destruct (permutation (List.length (VideoDataset.meta self)) g) as [perm g1].
    cbn [fst] in Hperm.
    assert (Hpnd : NoDup (firstn (Z.to_nat n) perm)).
    { apply NoDup_firstn. apply (Permutation_NoDup (Permutation_sym Hperm)). apply seq_NoDup. }
    assert (Hplt : forall p, In p (firstn (Z.to_nat n) perm) ->
                             (p < List.length (VideoDataset.meta self))%nat).
    { intros p Hp. apply firstn_In in Hp.
      apply (Permutation_in _ Hperm) in Hp. apply in_seq in Hp. lia. }
    assert (Hplen : List.length (firstn (Z.to_nat n) perm) = Z.to_nat n).
    { rewrite length_firstn. rewrite (Permutation_length Hperm), length_seq. lia. }
    destruct (take_inside _ _ Hplt) as [rows [Htake Hall]].
    rewrite Htake. cbn [bind].
    destruct (taken_rows_distinct _ _ _ Hnd Hpnd Hall) as [Hrnd [Hincl Hrlen]].
    destruct (get_batch_rows_ok self rows Hnd Hload Hincl g1)
      as [videos [labels [g' [Hb [Hv [Hl Hd]]]]]].
    exists videos, labels, g', rows. rewrite Hb.
    split; [reflexivity | ].
    split; [rewrite <- (length_map Video.meta), Hv, length_map; congruence | ].
    split; [rewrite <- (length_map Label.meta), Hl, length_map; congruence | ].
    tauto.
Qed.

(** X14.  Printing a dataset reads its first clip.  [__str__] raises
    [IndexError] on a dataset without rows; otherwise it raises what
    [dataset[0]] raises, and when that returns, the text is the length
    and the pair returned, and the random state has moved as
    [dataset[0]] moves it. *)
Theorem str_reads_first_clip (self : VideoDataset.t) (g : RandomState) :
  (VideoDataset.meta self = [] -> __str__ self g = Raise IndexError) /\
  (forall e, VideoDataset.__getitem__ self 0 g = Raise e -> __str__ self g = Raise e) /\
  (forall video label params g1,
      VideoDataset.__getitem__ self 0 g = Ok (video, label, params, g1) ->
      __str__ self g
      = Ok (("Something-Something Dataset: "
             ++ str_int (Z.of_nat (List.length (VideoDataset.meta self)))
             ++ " x "
             ++ ("(" ++ video_repr video ++ ", "
                 ++ ("(" ++ str_int (Label.data label) ++ " "
                     ++ VideoMeta.label (Label.meta label) ++ ")")
                 ++ ")"))%string, g1)).
Proof.
  unfold __str__. split; [ | split].
  - intros Hm. unfold VideoDataset.__getitem__, VideoDataset.iloc. rewrite Hm. reflexivity.
  - intros e ->. reflexivity.
  - intros video label params g1 ->. reflexivity.
Qed.

End BatchSampling.

Section ConcreteBatchSampling.
#[local] Existing Instance Demo.collaborators.
#[local] Existing Instance Fixtures.inspection.
Local Open Scope string_scope.
Import Sampling.

(** X13 on concrete inputs. *)
Lemma get_batch_draws_distinct_rows_witness :
  get_batch Demo.dataset 5 42 = Raise ValueError /\
  exists videos labels g' rows,
    get_batch Demo.dataset 2 42 = Ok (videos, labels, g') /\
    List.length videos = 2%nat /\
    map Label.data labels = map row_lid rows /\
    NoDup (map row_index rows).
Proof.
  destruct (get_batch_draws_distinct_rows Demo.dataset 5 42) as [H5 _].
  destruct (get_batch_draws_distinct_rows Demo.dataset 2 42) as [_ H2].
  split.
  - apply H5. right. vm_compute. reflexivity.
  - destruct H2 as [videos [labels [g' [rows H]]]].
    + intros len g0. cbn [permutation Fixtures.inspection fst].
      apply Permutation_sym, Permutation_rev.
    + apply has_duplicates_false. reflexivity.
    + intros row g _. eexists _, _. reflexivity.
    + vm_compute. split; discriminate.
    + exists videos, labels, g', rows. tauto.
Defined.

(** X14 on concrete inputs. *)
Lemma str_reads_first_clip_witness :
  VideoDataset.__init__ PyFloat.one 224 (Demo.options "train" (Some (PyInt 0))) Demo.sampling
  = Ok Fixtures.empty_dataset /\
  __str__ Fixtures.empty_dataset 42 = Raise IndexError /\
  option_map fst (match __str__ Demo.dataset 42 with Ok r => Some r | Raise _ => None end)
  = Some "Something-Something Dataset: 4 x (Video push, (7 push))".
Proof.
  split; [reflexivity | split].
  - apply (str_reads_first_clip Fixtures.empty_dataset 42). reflexivity.
  - destruct (VideoDataset.__getitem__ Demo.dataset 0 42) as [[[[video label] params] g1] | e]
      eqn:Hg; [ | vm_compute in Hg; discriminate Hg].
    destruct (str_reads_first_clip Demo.dataset 42) as [_ [_ H]].
    rewrite (H _ _ _ _ Hg). vm_compute in Hg. injection Hg as <- <- _ _. reflexivity.
Defined.

End ConcreteBatchSampling.

(* ===================================================================== *)
(** * Printing the options *)
(* ===================================================================== *)

Module LoggerFacts.
Import Logger.
Local Open Scope string_scope.

(** Induction on nested dictionaries. *)
Lemma value_nested_ind (P : value -> Prop) :
  (forall text, P (Leaf text)) ->
  (forall items, Forall (fun item => P (snd item)) items -> P (Dict items)) ->
  forall v, P v.
Proof.
  intros HL HD. fix IH 1. intros [text | items]; [apply HL | ].
  apply HD. induction items as [ | item items IHitems]; constructor; [apply IH | assumption].
Qed.

Lemma inner_item_off_main (self : t) (v : value) :
  main_proc self = false ->
  forall prefix name terminal, inner_item self prefix name v terminal = terminal.
Proof.
  intros Hoff. induction v as [text | items IH] using value_nested_ind;
    intros prefix name terminal; cbn [inner_item].
  - unfold log, main_proc_only. rewrite Hoff. reflexivity.
  - generalize (extend prefix name) as p. intros p. revert terminal.
    induction IH as [ | item items Hitem _ IHitems]; intros terminal; cbn [fold_left].
    + reflexivity.
    + rewrite Hitem. apply IHitems.
Qed.

(** The characters of two texts put together, and of a run of spaces. *)
Lemma len_app_string (a b : string) : len (a ++ b) = (len a + len b)%nat.
Proof.
  induction a as [ | c a IH]; cbn [append len]; [reflexivity | ].
  rewrite IH. destruct (continues c); reflexivity.
Qed.

Lemma len_spaces (n : nat) : len (spaces n) = n.
Proof. unfold spaces. induction n as [ | n IH]; cbn; [reflexivity | rewrite IH; reflexivity]. Qed.

(** A line is as wide as its two columns, each at least 50 characters
    wide. *)
Lemma field_line_width (p text : string) :
  len (field_line p text) = (Nat.max 50 (len p) + Nat.max 50 (len text))%nat.
Proof.
  unfold field_line, ljust, rjust. rewrite !len_app_string, !len_spaces. lia.
Qed.

Lemma app_string_assoc (a b c : string) : (a ++ b) ++ c = a ++ b ++ c.
Proof. induction a as [ | ch a IH]; cbn; [reflexivity | rewrite IH; reflexivity]. Qed.

Lemma dotted_snoc (path : list string) (name : string) :
  path <> [] -> dotted (path ++ [name]) = dotted path ++ "." ++ name.
Proof.
  unfold dotted. induction path as [ | x path IH]; intros Hne; [contradiction | ].
  destruct path as [ | y path].
  - reflexivity.
  - change (String.concat "." ((x :: y :: path) ++ [name]))
      with (x ++ "." ++ String.concat "." ((y :: path) ++ [name])).
    rewrite IH by discriminate.
    change (String.concat "." (x :: y :: path))
      with (x ++ "." ++ String.concat "." (y :: path)).
    rewrite !app_string_assoc. reflexivity.
Qed.

Lemma dotted_nonempty (path : list string) (name : string) :
  name <> "" -> dotted (path ++ [name]) <> "".
Proof.
  intros Hn. destruct path as [ | x path].
  - exact Hn.
  - rewrite dotted_snoc by discriminate. unfold dotted.
    destruct (String.concat "." (x :: path)); discriminate.
Qed.

(** The prefix that [inner] carries is the dotted name of the path. *)
Lemma extend_dotted (path : list string) (name : string) :
  (path = [] \/ dotted path <> "") ->
  extend (dotted path) name = dotted (path ++ [name]).
Proof.
  intros [-> | Hne]; [reflexivity | ].
  unfold extend. destruct (String.eqb_spec (dotted path) ""); [contradiction | ].
  symmetry. apply dotted_snoc. intros ->. apply Hne. reflexivity.
Qed.

Lemma inner_item_on_main (self : t) (v : value) :
  main_proc self = true ->
  forall path name terminal,
    named name v = true ->
    (path = [] \/ dotted path <> "") ->
    inner_item self (dotted path) name v terminal
    = (terminal ++ map line_of (leaves_of path name v))%list.
Proof.
  intros Hon. induction v as [text | items IH] using value_nested_ind;
    intros path name terminal Hnamed Hpath; cbn [inner_item leaves_of].
  - unfold log, main_proc_only. rewrite Hon. rewrite extend_dotted by assumption. reflexivity.
  - rewrite extend_dotted by assumption.
    cbn [named] in Hnamed. apply andb_true_iff in Hnamed. destruct Hnamed as [Hname Hitems].
    assert (Hp : (path ++ [name])%list = [] \/ dotted (path ++ [name]) <> "").
    { right. apply dotted_nonempty.
      apply negb_true_iff in Hname. apply String.eqb_neq. assumption. }
    revert Hp. generalize (path ++ [name])%list as path'. intros path' Hp.
    revert terminal.
    induction IH as [ | item items Hitem _ IHitems]; intros terminal;
      cbn [fold_left flat_map].
    + rewrite app_nil_r. reflexivity.
    + cbn [forallb] in Hitems. apply andb_true_iff in Hitems. destruct Hitems as [Hi Hrest].
      rewrite Hitem by assumption. rewrite IHitems by assumption.
      rewrite map_app, app_assoc. reflexivity.
Qed.

Lemma inner_on_main (self : t) (items : list (string * value)) :
  main_proc self = true ->
  forallb (fun item => named (fst item) (snd item)) items = true ->
  forall terminal,
    inner self items "" terminal = (terminal ++ map line_of (leaves items))%list.
Proof.
  intros Hon. unfold inner, leaves.
  induction items as [ | item items IH]; intros Hnamed terminal; cbn [fold_left flat_map].
  - rewrite app_nil_r. reflexivity.
  - cbn [forallb] in Hnamed. apply andb_true_iff in Hnamed. destruct Hnamed as [Hi Hrest].
    change ""%string with (dotted []).
    rewrite inner_item_on_main by (auto; left; reflexivity).
    rewrite IH by assumption. rewrite map_app, app_assoc. reflexivity.
Qed.

End LoggerFacts.

Import LoggerFacts.

(** X15.  Off the main process [print_options] writes nothing.  The method
    is not decorated itself, but every message goes through [log], which
    is; so whatever the options are, the terminal is left as it was. *)
Theorem print_options_silent_off_main_process (self : Logger.t) (terminal : list string) :
  Logger.main_proc self = false ->
  Logger.print_options self terminal = terminal.
Proof.
  intros Hoff. unfold Logger.print_options, Logger.inner.
  assert (H0 : forall msg written, Logger.log self msg written = written).
  { intros msg written. unfold Logger.log, Logger.main_proc_only. rewrite Hoff. reflexivity. }
  rewrite !H0.
  generalize (Logger.opts self) as items. intros items. revert terminal.
  induction items as [ | item items IH]; intros terminal; cbn [fold_left]; [reflexivity | ].
  rewrite inner_item_off_main by assumption. apply IH.
Qed.

(** X15 on concrete inputs. *)
Lemma print_options_silent_off_main_process_witness :
  Logger.print_options (Logger.mk Logger.sample_opts false) ["epoch 1"%string]
  = ["epoch 1"%string].
Proof.
  apply (print_options_silent_off_main_process (Logger.mk Logger.sample_opts false)).
  reflexivity.
Defined.

(** X16.  On the main process [print_options] writes a table of the options.
    After the two header lines comes one line per option that is not a
    dictionary, in field order, nested dictionaries flattened in place.
    The line shows the field names that lead to the option joined by
    dots, which holds when no field has the empty name, and the text of
    its value; each of the two columns is padded with spaces to 50
    characters, counted as Python counts them and not as bytes, and
    never cut. *)
Theorem print_options_lists_every_field (self : Logger.t) (terminal : list string) :
  Logger.main_proc self = true ->
  forallb (fun item => Logger.named (fst item) (snd item)) (Logger.opts self) = true ->
  Logger.print_options self terminal
  = (terminal
     ++ [Logger.field_line "Field" "Value"; Logger.field_line Logger.rule Logger.rule]
     ++ map (fun leaf => Logger.field_line (String.concat "." (fst leaf)) (snd leaf))
            (Logger.leaves (Logger.opts self)))%list /\
  forall p text,
    Logger.field_line p text
    = (p ++ Logger.spaces (50 - Logger.len p)
       ++ Logger.spaces (50 - Logger.len text) ++ text)%string /\
    Logger.len (Logger.field_line p text)
    = (Nat.max 50 (Logger.len p) + Nat.max 50 (Logger.len text))%nat.
Proof.
  intros Hon Hnamed. split.
  - unfold Logger.print_options.
    assert (H1 : forall msg written, Logger.log self msg written = (written ++ [msg])%list).
    { intros msg written. unfold Logger.log, Logger.main_proc_only. rewrite Hon. reflexivity. }
    rewrite !H1. rewrite inner_on_main by assumption.
    rewrite <- !app_assoc. reflexivity.
  - intros p text. split; [ | apply field_line_width].
    unfold Logger.field_line, Logger.ljust, Logger.rjust. apply app_string_assoc.
Qed.

(** X16 on concrete inputs: the table of the sample options, and the
    line of an option whose value has four characters in five bytes,
    which gets 46 spaces in its column, as in Python. *)
Lemma print_options_lists_every_field_witness :
  map (fun line => (substring 0 24 line, substring 95 5 line))
      (Logger.print_options (Logger.mk Logger.sample_opts true) [])
  = [ ("Field                   ", "Value");
      ("========================", "=====");
      ("name                    ", "  dev");
      ("trainer.epochs          ", "    3");
      ("trainer.optimizer.lr    ", "0.001");
      ("debug                   ", "False") ]%string /\
  Logger.print_options (Logger.mk [("name"%string, Logger.Leaf Logger.cafe)] true) []
  = [ Logger.field_line "Field" "Value"; Logger.field_line Logger.rule Logger.rule;
      ("name" ++ Logger.spaces 46 ++ Logger.spaces 46 ++ Logger.cafe)%string ] /\
  String.length Logger.cafe = 5%nat /\
  Logger.len Logger.cafe = 4%nat /\
  Logger.len (Logger.field_line "name" Logger.cafe) = 100%nat.
Proof.
  split; [ | split; [ | split; [reflexivity | split; [reflexivity | ]]]].
  - destruct (print_options_lists_every_field (Logger.mk Logger.sample_opts true) [])
      as [H _]; [reflexivity | reflexivity | ].
    rewrite H. reflexivity.
  - destruct (print_options_lists_every_field
                (Logger.mk [("name"%string, Logger.Leaf Logger.cafe)] true) [])
      as [H Hline]; [reflexivity | reflexivity | ].
    rewrite H. cbn [Logger.opts Logger.leaves Logger.leaves_of flat_map map app fst snd
                    String.concat].
    rewrite (proj1 (Hline "name"%string Logger.cafe)). reflexivity.
  - destruct (print_options_lists_every_field (Logger.mk Logger.sample_opts true) [])
      as [_ Hline]; [reflexivity | reflexivity | ].
    rewrite (proj2 (Hline "name"%string Logger.cafe)). reflexivity.
Defined.

(* ===================================================================== *)
(** * Building blocks *)
(* ===================================================================== *)

Section BlockFacts.
Import Blocks.
Local Open Scope string_scope.
Variable get_padding_shape : list Z -> option (list Z) -> outcome (list Z).
Variable simplify_padding : list Z -> outcome (bool * Z).
Variable call : Layer -> Torch.Tensor -> outcome Torch.Tensor.

(** X17.  A [Unit3D] is built with padding ['SAME'] or ['VALID'] only.
    ['TEMPORAL_VALID'] passes the first test of [__init__], which names it
    in its message, but once the padding shape is computed the branch
    that is left raises [ValueError].  In a unit that was built the
    padding is applied in one place at most: when there is a padding
    layer the convolution has padding 0, and with ['VALID'] there is
    neither; the convolution and the batch normalisation have the
    channels of the options. *)
Theorem Unit3D_accepts_SAME_and_VALID_only (opts : Unit3DOptions) :
  (forall padding_shape,
      padding opts = "TEMPORAL_VALID" ->
      get_padding_shape (kernel_size opts) (Some (stride opts)) = Returns padding_shape ->
      Unit3D__init__ get_padding_shape simplify_padding opts = Raises ValueError) /\
  (forall unit,
      Unit3D__init__ get_padding_shape simplify_padding opts = Returns unit ->
      (padding opts = "SAME" \/ padding opts = "VALID") /\
      (pad unit <> None -> padding opts = "SAME" /\ conv_padding (conv3d unit) = 0) /\
      (padding opts = "VALID" -> pad unit = None /\ conv_padding (conv3d unit) = 0) /\
      conv_in_channels (conv3d unit) = in_channels opts /\
      conv_out_channels (conv3d unit) = out_channels opts /\
      (forall n, batch3d unit = Some n -> n = out_channels opts)).
Proof.
  unfold Unit3D__init__. split.
  - intros padding_shape Hp Hshape. rewrite Hp, Hshape. reflexivity.
  - intros unit.
    destruct (negb (existsb _ _)); [discriminate | ].
    destruct (get_padding_shape _ _) as [padding_shape | e | ]; cbn [and_then];
      try discriminate.
    destruct (String.eqb_spec (padding opts) "SAME") as [Hsame | Hnsame].
    + destruct (simplify_padding padding_shape) as [[simplify_pad pad_size] | e | ];
        cbn [and_then]; try discriminate.
      destruct simplify_pad; cbn [and_then]; intros H; injection H as <-; cbn;
        repeat split; try tauto; try congruence;
        try (intros n; destruct (use_bn opts); congruence).
    + destruct (String.eqb_spec (padding opts) "VALID") as [Hvalid | Hnvalid];
        cbn [and_then]; [ | discriminate].
      intros H; injection H as <-; cbn.
      repeat split; try tauto; try congruence.
      intros n. destruct (use_bn opts); congruence.
Qed.

(** X18.  A [MaxPool3dTFPadding] works with padding ['SAME'] only.  With any
    other padding the constructor returns an object on which [pad] was
    never assigned, and [forward] raises [AttributeError] on every
    input. *)
Theorem MaxPool3dTFPadding_forward_needs_SAME
        (kernel_size : list Z) (stride : option (list Z)) (padding : string) :
  padding <> "SAME" ->
  exists pool,
    MaxPool3dTFPadding__init__ get_padding_shape kernel_size stride padding = Returns pool /\
    forall _in, MaxPool3dTFPadding_forward call pool _in = RaisesAttributeError.
Proof.
  intros Hp. unfold MaxPool3dTFPadding__init__.
  destruct (String.eqb_spec padding "SAME"); [contradiction | ].
  eexists. split; [reflexivity | ]. intros _in. reflexivity.
Qed.

End BlockFacts.

Section ConcreteBlocks.
Import Blocks.
Local Open Scope string_scope.

(** X17 on concrete inputs. *)
Lemma Unit3D_accepts_SAME_and_VALID_only_witness :
  Unit3D__init__ Fixtures.padding_by_one Fixtures.same_on_all_sides
                 (Fixtures.unit_options "TEMPORAL_VALID") = Raises ValueError /\
  exists unit,
    Unit3D__init__ Fixtures.padding_by_one Fixtures.same_on_all_sides
                   (Fixtures.unit_options "SAME") = Returns unit /\
    pad unit = None /\ conv_padding (conv3d unit) = 1.
Proof.
  split.
  - destruct (Unit3D_accepts_SAME_and_VALID_only
                Fixtures.padding_by_one Fixtures.same_on_all_sides
                (Fixtures.unit_options "TEMPORAL_VALID")) as [H _].
    apply (H [1; 1; 1; 1; 1; 1]); reflexivity.
  - eexists. split; [reflexivity | ]. split; reflexivity.
Defined.

(** X18 on concrete inputs. *)
Lemma MaxPool3dTFPadding_forward_needs_SAME_witness :
  exists pool,
    MaxPool3dTFPadding__init__ Fixtures.padding_by_one [2; 2; 2] (Some [2; 2; 2]) "VALID"
    = Returns pool /\
    forall _in, MaxPool3dTFPadding_forward Fixtures.identity_call pool _in
                = RaisesAttributeError.
Proof.
  apply (MaxPool3dTFPadding_forward_needs_SAME
           Fixtures.padding_by_one Fixtures.identity_call [2; 2; 2] (Some [2; 2; 2]) "VALID").
  discriminate.
Defined.

End ConcreteBlocks.
